(** * cslib: the XML-RPC value codec, the XML-RPC client and the AIR service

    A shallow embedding of [src/air/XmlRpcClient.ts] and
    [src/air/AIRService.ts], with the routes that call the service
    ([src/server/routes/air.routes.ts]) and their error handler.

    - JavaScript values are the inductive type [js]; a Number is a binary64
      float ([PrimFloat.float]), an object is the list of its own enumerable
      data properties in insertion order (the model does not move
      integer-like keys to the front, as [Object.entries] does) and, when
      an assignment to [__proto__] has replaced it, its prototype; a [Map]
      is an insertion-ordered association list or a [gmap] when iteration
      order is never observed.
    - A function that can throw returns a [completion]; [x ← m; k] is the
      sequencing of the source, and [try { ... } catch (e) { log; throw e }]
      is the identity on completions.
    - The mutable singleton [AIRService] is threaded as an explicit state
      record; [await] points are sequential steps (no interleaving is
      modelled).
    - The recursive methods of the codec run on the call stack: they take
      the nesting of calls that the stack has room for, and throw the
      engine's RangeError when it is used up.
    - What the host provides and the repository does not define (the XML
      library, the HTTP exchange, the implementation-defined parts of
      [Date], the room on the call stack) is the class [Host]. *)

From Stdlib Require Import ZArith List String Ascii Bool Lia.
From Stdlib Require Import Floats.
From stdpp Require Import base option list gmap strings.
Import ListNotations.

Set Warnings "-inexact-float,-register-all".
Open Scope string_scope.
Open Scope Z_scope.

(** ** Completions: normal return or a thrown exception *)

Inductive exn : Type :=
| Error (message : string)
| TypeError (message : string)
| RangeError (message : string).

Inductive completion (A : Type) : Type :=
| Return (a : A)
| Throw (e : exn).
Arguments Return {A} a.
Arguments Throw {A} e.

#[global] Instance completion_ret : MRet completion := @Return.
#[global] Instance completion_bind : MBind completion :=
  λ A B f m, match m with Return a => f a | Throw e => Throw e end.

(** ** JavaScript values *)

#[local] Unset Elimination Schemes.
Inductive js : Type :=
| JUndefined
| JNull
| JBool (b : bool)
| JNum (x : float)
| JStr (s : string)
| JDate (t : option Z)          (* time value in ms; [None] is Invalid Date *)
| JArr (items : list js)
| JObj (props : list (string * js))      (* prototype: [Object.prototype] *)
| JObjProto (proto : js) (props : list (string * js)).
#[local] Set Elimination Schemes.

(** [JObj props] is an object as an object literal, [JSON.parse] or the XML
    parser creates it.  [JObjProto proto props] is an object whose
    prototype has been replaced by [proto], which is [null] or an object
    (an array and a Date are objects, whose own prototypes are
    [Array.prototype] and [Date.prototype]). *)

(** ** The host: what the runtime and the libraries provide *)

Module Axios.
Record Response : Type := {
  status : Z;
  statusText : string;
  data : string
}.
End Axios.

Class Host : Type := {
  (** [Date.prototype.toString] of a valid date (local time zone). *)
  date_toString : Z → string;
  (** [Date.parse] on a string that is not in the [toISOString] format
      (implementation-defined). *)
  date_parse_other : string → option Z;
  (** [XMLBuilder.build] of fast-xml-parser. *)
  xml_build : js → string;
  (** [XMLParser.parse] of fast-xml-parser. *)
  xml_parse : string → completion js;
  (** [axios.post(url, body)] with [validateStatus: () => true]: resolves
      with the response whatever its status, rejects on a network failure
      or a timeout. *)
  http_post : string → string → completion Axios.Response;
  (** [String(o)] of an object [o] that inherits from an array and has no
      [toString] of its own: the result of the inherited
      [Array.prototype.toString]. *)
  array_like_toString : js → completion string;
  (** How deep the calls of [buildValue], and those of [extractValue], can
      nest when the method is entered, before the engine throws its
      RangeError; there is room for the method and one nested call. *)
  encode_stack : nat;
  encode_stack_room : Nat.leb 2 encode_stack = true;
  decode_stack : nat;
  decode_stack_room : Nat.leb 2 decode_stack = true
}.

(** ** Numbers: conversions between binary64 and exact integers/rationals *)

Module JSNumber.

(** The binary64 number nearest to [n/d] (ties to even), for [n >= 0], [d > 0]. *)
Definition nearest (n d : Z) : float :=
  match n, d with
  | Zpos pn, Zpos pd =>
      SF2Prim (SFdiv prec emax (S754_finite false pn 0) (S754_finite false pd 0))
  | _, _ => 0%float
  end.

(** The Number value of a mathematical integer. *)
Definition of_Z (z : Z) : float :=
  match z with
  | Z0 => 0%float
  | Zpos _ => nearest z 1
  | Zneg p => (- nearest (Zpos p) 1)%float
  end.

Definition signed (negative : bool) (x : float) : float :=
  if negative then (- x)%float else x.

(** [Number.isInteger(x)]: finite with no fractional part. *)
Definition isInteger (x : float) : bool :=
  match Prim2SF x with
  | S754_zero _ => true
  | S754_finite _ m e => (0 <=? e) || (Zpos m mod 2 ^ (- e) =? 0)
  | S754_infinity _ | S754_nan => false
  end.

(** floor(|x|) of a finite number. *)
Definition trunc_abs (x : float) : Z :=
  match Prim2SF x with
  | S754_finite _ m e => if 0 <=? e then Zpos m * 2 ^ e else Zpos m / 2 ^ (- e)
  | _ => 0
  end.

(** *** Number::toString (radix 10)

    ECMAScript picks the digits [s] (with [k] digits, [k] minimal) and the
    position [n] such that [s * 10^(n-k)] converts back to [x], closest to
    [x] when several fit. *)

Definition digit_char (d : Z) : ascii := ascii_of_nat (48 + Z.to_nat (d mod 10)).

Fixpoint fixed_digits (k : nat) (n : Z) : string :=
  match k with
  | O => ""
  | S k' => fixed_digits k' (n / 10) ++ String (digit_char n) ""
  end.

Definition num_digits (n : Z) : Z :=
  match n with
  | Zpos p => Z.of_nat (Decimal.nb_digits (Pos.to_uint p))
  | _ => 1
  end.

Definition decimal_digits (n : Z) : string :=
  fixed_digits (Z.to_nat (num_digits n)) n.

(** Template-literal rendering of an integer-valued Number held as [Z]
    (magnitudes below 10^21, which print without exponent). *)
Definition Z_toString (z : Z) : string :=
  if z <? 0 then "-" ++ decimal_digits (- z) else decimal_digits z.

Fixpoint zeros (k : nat) : string :=
  match k with O => "" | S k' => String "0" (zeros k') end.

(** [(num, den)] with [num/den = m * 2^e / 10^t]. *)
Definition scaled (m : positive) (e t : Z) : Z * Z :=
  (Zpos m * 2 ^ Z.max e 0 * 10 ^ Z.max (- t) 0,
   2 ^ Z.max (- e) 0 * 10 ^ Z.max t 0).

(** The [n] with [10^(n-1) <= m * 2^e < 10^n]. *)
Definition decimal_position (m : positive) (e : Z) : Z :=
  let '(num, den) := scaled m e 0 in
  if den <=? num then num_digits (num / den)
  else let l := num_digits (den / num) - 1 in
       if num * 10 ^ l =? den then 1 - l else - l.

Definition rounds_to (x : float) (s t : Z) : bool :=
  (nearest (s * 10 ^ Z.max t 0) (10 ^ Z.max (- t) 0) =? x)%float.

(** The [k]-digit numeral for [x = m * 2^e], if one converts back to [x]. *)
Definition candidate (x : float) (m : positive) (e n k : Z) : option (Z * Z) :=
  let t := n - k in
  let '(num, den) := scaled m e t in
  let lo := num / den in
  let r := num mod den in
  let hi := lo + 1 in
  let pick_lo := (2 * r <? den) || ((2 * r =? den) && Z.even lo) in
  let norm s := if s =? 10 ^ k then (10 ^ (k - 1), n + 1) else (s, n) in
  match rounds_to x lo t, rounds_to x hi t with
  | true, true => Some (norm (if pick_lo then lo else hi))
  | true, false => Some (norm lo)
  | false, true => Some (norm hi)
  | false, false => None
  end.

Fixpoint shortest_from (fuel : nat) (x : float) (m : positive) (e n k : Z)
  : Z * Z * Z :=
  match candidate x m e n k with
  | Some (s, n') => (s, n', k)
  | None =>
      match fuel with
      | O => (fst (scaled m e (n - k)) / snd (scaled m e (n - k)), n, k)
      | S fuel' => shortest_from fuel' x m e n (k + 1)
      end
  end.

(** [(s, n, k)] for a finite [x > 0]; seventeen digits always suffice. *)
Definition shortest (x : float) : Z * Z * Z :=
  match Prim2SF x with
  | S754_finite _ m e => shortest_from 16 x m e (decimal_position m e) 1
  | _ => (0, 0, 1)
  end.

Definition substring_from (i : nat) (s : string) : string :=
  substring i (String.length s - i) s.

Definition positive_toString (x : float) : string :=
  let '(s, n, k) := shortest x in
  let ds := fixed_digits (Z.to_nat k) s in
  if (k <=? n) && (n <=? 21) then ds ++ zeros (Z.to_nat (n - k))
  else if (0 <? n) && (n <=? 21) then
    substring 0 (Z.to_nat n) ds ++ "." ++ substring_from (Z.to_nat n) ds
  else if (-6 <? n) && (n <=? 0) then "0." ++ zeros (Z.to_nat (- n)) ++ ds
  else
    let ex := n - 1 in
    let sign := if ex <? 0 then "-" else "+" in
    let mant := if k =? 1 then ds
                else substring 0 1 ds ++ "." ++ substring_from 1 ds in
    mant ++ "e" ++ sign ++ decimal_digits (Z.abs ex).

Definition toString (x : float) : string :=
  if is_nan x then "NaN"
  else if is_zero x then "0"
  else if is_infinity x then (if get_sign x then "-Infinity" else "Infinity")
  else if get_sign x then "-" ++ positive_toString (abs x)
  else positive_toString x.

(** Leading digit of the exponent-notation numeral of [x > 0]. *)
Definition leading_digit (x : float) : Z :=
  let '(s, _, k) := shortest x in s / 10 ^ (k - 1).

End JSNumber.

(** ** Dates: time values, [toISOString] and [Date.parse] *)

Module JSDate.

Definition msPerDay : Z := 86400000.
Definition maxTime : Z := 8640000000000000.

(** Year, month (1..12) and day of month of a day number (days since
    1970-01-01, proleptic Gregorian calendar). *)
Definition civil_from_days (day : Z) : Z * Z * Z :=
  let z := day + 719468 in
  let era := z / 146097 in
  let doe := z - era * 146097 in
  let yoe := (doe - doe / 1460 + doe / 36524 - doe / 146096) / 365 in
  let doy := doe - (365 * yoe + yoe / 4 - yoe / 100) in
  let mp := (5 * doy + 2) / 153 in
  let d := doy - (153 * mp + 2) / 5 + 1 in
  let m := if mp <? 10 then mp + 3 else mp - 9 in
  let y := yoe + era * 400 in
  (if m <=? 2 then y + 1 else y, m, d).

(** [MakeDay]: the day number of a year, a month in 1..12 and a day of
    month (a day past the end of the month runs into the next one). *)
Definition MakeDay (year month date : Z) : Z :=
  let y := if month <=? 2 then year - 1 else year in
  let era := y / 400 in
  let yoe := y - era * 400 in
  let mp := if 2 <? month then month - 3 else month + 9 in
  let doy := (153 * mp + 2) / 5 + date - 1 in
  let doe := yoe * 365 + yoe / 4 - yoe / 100 + doy in
  era * 146097 + doe - 719468.

Definition MakeTime (hour min sec ms : Z) : Z :=
  hour * 3600000 + min * 60000 + sec * 1000 + ms.

Definition pad (k : nat) (n : Z) : string := JSNumber.fixed_digits k n.

Definition year_string (y : Z) : string :=
  if (0 <=? y) && (y <=? 9999) then pad 4 y
  else (if y <? 0 then "-" else "+") ++ pad 6 (Z.abs y).

(** [YYYY-MM-DDTHH:mm:ss.sssZ] of a valid time value. *)
Definition iso_string (t : Z) : string :=
  let day := t / msPerDay in
  let ms := t mod msPerDay in
  let '(y, m, d) := civil_from_days day in
  year_string y ++ "-" ++ pad 2 m ++ "-" ++ pad 2 d ++ "T" ++
  pad 2 (ms / 3600000) ++ ":" ++ pad 2 (ms / 60000 mod 60) ++ ":" ++
  pad 2 (ms / 1000 mod 60) ++ "." ++ pad 3 (ms mod 1000) ++ "Z".

(** [Date.prototype.toISOString]: a RangeError on an invalid date. *)
Definition toISOString (t : option Z) : completion string :=
  match t with
  | Some t => Return (iso_string t)
  | None => Throw (RangeError "Invalid time value")
  end.

Definition is_digit (c : ascii) : bool :=
  let n := nat_of_ascii c in ((48 <=? n) && (n <=? 57))%nat.

Definition digit_value (c : ascii) : Z := Z.of_nat (nat_of_ascii c) - 48.

(** Exactly [k] digits. *)
Fixpoint read_digits (k : nat) (acc : Z) (s : string) : option (Z * string) :=
  match k with
  | O => Some (acc, s)
  | S k' =>
      match s with
      | String c s' =>
          if is_digit c then read_digits k' (10 * acc + digit_value c) s' else None
      | EmptyString => None
      end
  end.

Definition expect (c : ascii) (s : string) : option string :=
  match s with
  | String c' s' => if Ascii.eqb c c' then Some s' else None
  | EmptyString => None
  end.

Definition read_year (s : string) : option (Z * string) :=
  match s with
  | String "+" s' => read_digits 6 0 s'
  | String "-" s' =>
      '(y, r) ← read_digits 6 0 s';
      if y =? 0 then None else Some (- y, r)
  | _ => read_digits 4 0 s
  end.

(** The date-time format with all fields and the [Z] suffix; the field
    checks are V8's (day of month up to 31, hour 24 only as 24:00:00.000),
    followed by [TimeClip]. *)
Definition parse_iso (s : string) : option Z :=
  '(y, s) ← read_year s;
  s ← expect "-" s;
  '(m, s) ← read_digits 2 0 s;
  s ← expect "-" s;
  '(d, s) ← read_digits 2 0 s;
  s ← expect "T" s;
  '(h, s) ← read_digits 2 0 s;
  s ← expect ":" s;
  '(mi, s) ← read_digits 2 0 s;
  s ← expect ":" s;
  '(sec, s) ← read_digits 2 0 s;
  s ← expect "." s;
  '(ms, s) ← read_digits 3 0 s;
  s ← expect "Z" s;
  if negb (String.eqb s "") then None
  else if negb ((1 <=? m) && (m <=? 12) && (1 <=? d) && (d <=? 31)) then None
  else if negb ((mi <=? 59) && (sec <=? 59)) then None
  else if negb ((h <=? 23) || ((h =? 24) && (mi =? 0) && (sec =? 0) && (ms =? 0)))
  then None
  else
    let t := MakeDay y m d * msPerDay + MakeTime h mi sec ms in
    if Z.abs t <=? maxTime then Some t else None.

Definition parse `{Host} (s : string) : option Z :=
  match parse_iso s with
  | Some t => Some t
  | None => date_parse_other s
  end.

(** [TimeClip(ToNumber(x))] for a Number. *)
Definition TimeClip (x : float) : option Z :=
  if is_finite x && (abs x <=? 8.64e15)%float
  then Some (if get_sign x then - JSNumber.trunc_abs x else JSNumber.trunc_abs x)
  else None.

End JSDate.

(** ** Abstract operations and global functions *)

Section Globals.
Context `{Host}.

(** [ToBoolean]. *)
Definition truthy (v : js) : bool :=
  match v with
  | JUndefined | JNull => false
  | JBool b => b
  | JNum x => negb (is_zero x || is_nan x)
  | JStr s => negb (String.eqb s "")
  | JDate _ | JArr _ | JObj _ | JObjProto _ _ => true
  end.

(** [a || b]. *)
Definition js_or (a b : js) : js := if truthy a then a else b.

(** [v !== undefined]. *)
Definition defined (v : js) : bool :=
  match v with JUndefined => false | _ => true end.

Definition join (sep : string) (l : list string) : string :=
  match l with
  | [] => ""
  | x :: l' => fold_left (λ acc y, acc ++ sep ++ y) l' x
  end.

Definition lookup_prop (k : string) (props : list (string * js)) : option js :=
  snd <$> find (λ p, String.eqb (fst p) k) props.

(** [typeof v === 'object']: an object or [null]. *)
Definition is_object_or_null (v : js) : bool :=
  match v with
  | JNull | JDate _ | JArr _ | JObj _ | JObjProto _ _ => true
  | _ => false
  end.

(** The data property [k] that a read of [v.k] finds on an object: its own,
    or else the one of the nearest object on its prototype chain (for the
    names this code reads, none of which is an index or the [length] of an
    array). *)
Fixpoint find_prop (k : string) (v : js) : option js :=
  match v with
  | JObj props => lookup_prop k props
  | JObjProto proto props =>
      match lookup_prop k props with
      | Some w => Some w
      | None => find_prop k proto
      end
  | _ => None
  end.

(** Where the prototype chain of an object ends: in [null], or in the
    built-in prototypes of plain objects, of arrays or of Dates. *)
Inductive chain_end : Type := EndNull | EndObject | EndArray | EndDate.

Fixpoint proto_end (v : js) : chain_end :=
  match v with
  | JObjProto proto _ => proto_end proto
  | JNull => EndNull
  | JArr _ => EndArray
  | JDate _ => EndDate
  | _ => EndObject
  end.

(** [ToString] (and [String(v)]).  An array is joined; an object renders
    through the [toString] it inherits, unless a data property of that name
    (its own or inherited, never a function) hides it, and then the
    conversion throws.  An object whose prototype was replaced inherits
    [toString] from where its chain ends: none ([null]), that of
    [Object.prototype], of [Array.prototype], or of [Date.prototype], which
    rejects an object that is not a Date. *)
Fixpoint ToString (v : js) : completion string :=
  match v with
  | JUndefined => Return "undefined"
  | JNull => Return "null"
  | JBool b => Return (if b then "true" else "false")
  | JNum x => Return (JSNumber.toString x)
  | JStr s => Return s
  | JDate None => Return "Invalid Date"
  | JDate (Some t) => Return (date_toString t)
  | JArr items =>
      parts ← mapM (λ i, match i with
                         | JUndefined | JNull => Return ""
                         | _ => ToString i
                         end) items;
      Return (join "," parts)
  | JObj props =>
      match lookup_prop "toString" props with
      | Some _ => Throw (TypeError "Cannot convert object to primitive value")
      | None => Return "[object Object]"
      end
  | JObjProto proto _ =>
      match find_prop "toString" v, proto_end proto with
      | None, EndObject => Return "[object Object]"
      | None, EndArray => array_like_toString v
      | None, EndDate => Throw (TypeError "this is not a Date object.")
      | Some _, EndDate =>
          (* [toString] is not callable; [valueOf] is tried next *)
          match find_prop "valueOf" v with
          | Some _ => Throw (TypeError "Cannot convert object to primitive value")
          | None => Throw (TypeError "this is not a Date object.")
          end
      | _, _ => Throw (TypeError "Cannot convert object to primitive value")
      end
  end.

(** [v.k] for the property names this code reads (none of them is defined
    on a built-in prototype): the property of an object, its own or
    inherited, [undefined] on any other value, a TypeError on [null] and
    [undefined]. *)
Definition get (v : js) (k : string) : completion js :=
  match v with
  | JUndefined =>
      Throw (TypeError ("Cannot read properties of undefined (reading '" ++ k ++ "')"))
  | JNull =>
      Throw (TypeError ("Cannot read properties of null (reading '" ++ k ++ "')"))
  | JObj props => Return (default JUndefined (lookup_prop k props))
  | JObjProto _ _ => Return (default JUndefined (find_prop k v))
  | _ => Return JUndefined
  end.

(** [v?.k]. *)
Definition get_opt (v : js) (k : string) : completion js :=
  match v with
  | JUndefined | JNull => Return JUndefined
  | _ => get v k
  end.

(** An own data property is written: an existing key keeps its place, a new
    key goes last. *)
Fixpoint set_prop (props : list (string * js)) (k : string) (v : js)
  : list (string * js) :=
  match props with
  | [] => [(k, v)]
  | (k', v') :: rest =>
      if String.eqb k' k then (k, v) :: rest else (k', v') :: set_prop rest k v
  end.

(** Whether a write of ["__proto__"] that goes up the prototype chain from
    [proto] arrives at the accessor of [Object.prototype]: no object on the
    way has a data property of that name, and the chain does not end in
    [null]. *)
Fixpoint reaches_proto_accessor (proto : js) : bool :=
  match proto with
  | JNull => false
  | JObj props => negb (bool_decide (is_Some (lookup_prop "__proto__" props)))
  | JObjProto proto' props =>
      negb (bool_decide (is_Some (lookup_prop "__proto__" props)))
      && reaches_proto_accessor proto'
  | _ => true
  end.

(** [o[k] = v] on an object.  An own property of that name is written, and
    a name that is not on the object yet is added to it, with one
    exception: the key ["__proto__"], when the object has no own property
    of that name and the write arrives at the accessor that
    [Object.prototype] defines, creates no property; the accessor makes an
    object or [null] the prototype of [o] and ignores a primitive [v]. *)
Definition assign (o : js) (k : string) (v : js) : js :=
  match o with
  | JObj props =>
      if String.eqb k "__proto__"
         && negb (bool_decide (is_Some (lookup_prop "__proto__" props)))
      then if is_object_or_null v then JObjProto v props else o
      else JObj (set_prop props k v)
  | JObjProto proto props =>
      if String.eqb k "__proto__"
         && negb (bool_decide (is_Some (lookup_prop "__proto__" props)))
         && reaches_proto_accessor proto
      then if is_object_or_null v then JObjProto v props else o
      else JObjProto proto (set_prop props k v)
  | _ => o
  end.

(** [Array.isArray(v) ? v : [v]]. *)
Definition as_array (v : js) : list js :=
  match v with JArr l => l | _ => [v] end.

(** *** [parseInt(v, 10)] and [parseFloat(v)] *)

Definition is_space (c : ascii) : bool :=
  let n := nat_of_ascii c in
  ((n =? 32) || ((9 <=? n) && (n <=? 13)))%nat.

Fixpoint trim_start (s : string) : string :=
  match s with
  | String c s' => if is_space c then trim_start s' else s
  | EmptyString => s
  end.

(** The longest prefix of decimal digits: its value, how many digits it
    has, and what follows it. *)
Fixpoint read_number (s : string) (acc : Z) (count : nat) : Z * nat * string :=
  match s with
  | String c s' =>
      if JSDate.is_digit c
      then read_number s' (10 * acc + JSDate.digit_value c) (S count)
      else (acc, count, s)
  | EmptyString => (acc, count, s)
  end.

Definition read_sign (s : string) : bool * string :=
  match s with
  | String "-" s' => (true, s')
  | String "+" s' => (false, s')
  | _ => (false, s)
  end.

Definition parseInt_string (s : string) : float :=
  let '(negative, s) := read_sign (trim_start s) in
  let '(n, count, _) := read_number s 0 0 in
  match count with
  | O => nan
  | S _ => JSNumber.signed negative (JSNumber.of_Z n)
  end.

(** The exponent part [e±ddd], taken only when digits follow. *)
Definition read_exponent (s : string) : Z :=
  match s with
  | String c s' =>
      if Ascii.eqb c "e" || Ascii.eqb c "E" then
        let '(negative, s'') := read_sign s' in
        let '(n, count, _) := read_number s'' 0 0 in
        match count with
        | O => 0
        | S _ => if negative then - n else n
        end
      else 0
  | EmptyString => 0
  end.

Definition has_prefix (p s : string) : bool := String.prefix p s.

Definition parseFloat_string (s : string) : float :=
  let '(negative, s) := read_sign (trim_start s) in
  if has_prefix "Infinity" s then JSNumber.signed negative infinity
  else
    let '(i, ci, s1) := read_number s 0 0 in
    let '(f, cf, s2) :=
      match s1 with
      | String "." s' => read_number s' i 0
      | _ => (i, O, s1)
      end in
    match (ci + cf)%nat with
    | O => nan
    | S _ =>
        let ex := read_exponent s2 - Z.of_nat cf in
        JSNumber.signed negative
          (JSNumber.nearest (f * 10 ^ Z.max ex 0) (10 ^ Z.max (- ex) 0))
    end.

(** [parseInt(x, 10)] of a Number is [parseInt] of its numeral
    [JSNumber.toString x]; by cases on the three shapes of the numeral:
    an integer below 10^21 prints all its digits and reads back as
    itself; other numbers in [1e-6, 1e21) print [int.frac] and read back
    as the integer part; the rest print in exponent notation and read
    back as the leading digit. *)
Definition parseInt_number (x : float) : float :=
  if is_nan x || is_infinity x then nan
  else if is_zero x then 0%float
  else if JSNumber.isInteger x && (abs x <? 1e21)%float then x
  else
    let d := if (1e-6 <=? abs x)%float && (abs x <? 1e21)%float
             then JSNumber.trunc_abs x
             else JSNumber.leading_digit (abs x) in
    JSNumber.signed (get_sign x) (JSNumber.of_Z d).

Definition parseInt (v : js) : completion float :=
  match v with
  | JNum x => Return (parseInt_number x)
  | _ => s ← ToString v; Return (parseInt_string s)
  end.

(** [parseFloat(x)] of a Number reads its numeral back: the number itself
    (ECMAScript: [ToString] followed by [ToNumber] is the identity except
    on [-0], which prints as ["0"]). *)
Definition parseFloat_number (x : float) : float :=
  if is_zero x then 0%float else x.

Definition parseFloat (v : js) : completion float :=
  match v with
  | JNum x => Return (parseFloat_number x)
  | _ => s ← ToString v; Return (parseFloat_string s)
  end.

(** The time value of [new Date(v)]. *)
Definition new_Date (v : js) : completion (option Z) :=
  match v with
  | JDate t => Return t
  | JStr s => Return (JSDate.parse s)
  | JArr _ | JObj _ | JObjProto _ _ => s ← ToString v; Return (JSDate.parse s)
  | JUndefined => Return None
  | JNull => Return (Some 0)
  | JBool b => Return (Some (if b then 1 else 0))
  | JNum x => Return (JSDate.TimeClip x)
  end.

End Globals.

(** ** [src/air/types.ts] *)

Module Types.

Record UCIPRequest : Type := {
  methodName : string;
  params : list js
}.

(** [responseMessage?] and [data?] are absent properties when [None]. *)
Record UCIPResponse : Type := {
  responseCode : js;
  responseMessage : option js;
  data : option js
}.

Module RefillRequest.
Record t : Type := {
  subscriberNumber : string;
  refillAmount : float;
  transactionId : option string;
  transactionCurrency : option string;
  profileId : option string
}.
End RefillRequest.

Module GetBalanceRequest.
Record t : Type := {
  subscriberNumber : string;
  requestedInformationFlags : option float
}.
End GetBalanceRequest.

Module UpdateBalanceRequest.
Record t : Type := {
  subscriberNumber : string;
  adjustmentAmount : float;
  transactionId : option string;
  transactionType : option string
}.
End UpdateBalanceRequest.

Module GetAccountDetailsRequest.
Record t : Type := {
  subscriberNumber : string;
  requestedInformationFlags : option float
}.
End GetAccountDetailsRequest.

Record TransactionStats : Type := {
  totalRequests : Z;
  successfulRequests : Z;
  failedRequests : Z;
  averageResponseTime : float;
  lastResetTime : Z
}.

Module RoutingDestination.
Record t : Type := {
  nodeId : string;
  host : string;
  port : Z;
  url : string;
  weight : option Z;
  active : bool
}.
End RoutingDestination.

End Types.

(** ** [src/air/XmlRpcClient.ts] *)

Module XmlRpcClient.
Import Types.

Record XmlRpcClientConfig : Type := {
  host : string;
  port : Z;
  path : option string;
  timeout : option Z;
  maxConnections : option Z
}.

(** [s || d] and [n || d] on optional configuration fields. *)
Definition or_string (s : option string) (d : string) : string :=
  match s with
  | Some v => if String.eqb v "" then d else v
  | None => d
  end.

Definition or_Z (n : option Z) (d : Z) : Z :=
  match n with
  | Some v => if v =? 0 then d else v
  | None => d
  end.

(** The object: the parser, the builder and the axios instance are the
    host's. *)
Record t : Type := {
  config : XmlRpcClientConfig;
  url : string
}.

Definition new (config : XmlRpcClientConfig) : t :=
  let config' := {|
    host := host config;
    port := port config;
    path := Some (or_string (path config) "/Air");
    timeout := Some (or_Z (timeout config) 30000);
    maxConnections := Some (or_Z (maxConnections config) 20)
  |} in
  {| config := config';
     url := "http://" ++ host config' ++ ":" ++ JSNumber.Z_toString (port config')
            ++ or_string (path config') "" |}.

Section Methods.
Context `{Host}.

(** [{ struct: { member: Object.entries(value).map(...) } }], the members
    built by [build]. *)
Definition build_struct (build : js → completion js) (props : list (string * js))
  : completion js :=
  members ← mapM (λ p, v ← build (snd p);
                       Return (JObj [("name", JStr (fst p)); ("value", v)]))
                 props;
  Return (JObj [("struct", JObj [("member", JArr members)])]).

(** [buildValue] with room for [depth] nested calls on the call stack.  The
    branches are the source's [if] chain, in its order; [typeof] and
    [Array.isArray] are the constructor of the value, and an object
    [instanceof Date] when its prototype chain ends in [Date.prototype]:
    a Date, or an object that inherits from one, on which the inherited
    [toISOString] throws. *)
Fixpoint buildValue_at (depth : nat) (value : js) : completion js :=
  match depth with
  | O => Throw (RangeError "Maximum call stack size exceeded")
  | S depth' =>
      match value with
      | JStr _ => Return (JObj [("string", value)])
      | JNum x =>
          if JSNumber.isInteger x then Return (JObj [("int", value)])
          else Return (JObj [("double", value)])
      | JBool b => Return (JObj [("boolean", JNum (if b then 1 else 0))])
      | JDate t =>
          iso ← JSDate.toISOString t;
          Return (JObj [("dateTime.iso8601", JStr iso)])
      | JArr items =>
          values ← mapM (buildValue_at depth') items;
          Return (JObj [("array", JObj [("data", JObj [("value", JArr values)])])])
      | JObj props => build_struct (buildValue_at depth') props
      | JObjProto proto props =>
          match proto_end proto with
          | EndDate =>
              match find_prop "toISOString" value with
              | Some _ => Throw (TypeError "value.toISOString is not a function")
              | None => Throw (TypeError "this is not a Date object.")
              end
          | _ => build_struct (buildValue_at depth') props
          end
      | JUndefined | JNull =>
          rendering ← ToString value;
          Return (JObj [("string", JStr rendering)])
      end
  end.

(** [buildValue] on the stack that the host leaves to it. *)
Definition buildValue (value : js) : completion js :=
  buildValue_at encode_stack value.

Definition buildXmlRpcRequest (request : UCIPRequest) : completion string :=
  values ← mapM buildValue (params request);
  Return (xml_build (JObj [("methodCall", JObj [
    ("methodName", JStr (methodName request));
    ("params", JObj [("param",
       JArr (map (λ v, JObj [("value", v)]) values))])])])).

(** One step of [members.forEach(...)]:
    [result[member.name] = extractValue(member.value)]. *)
Definition collect_member (extract : js → completion js)
           (acc : completion js) (member : js) : completion js :=
  result ← acc;
  name ← get member "name";
  node ← get member "value";
  v ← extract node;
  key ← ToString name;
  Return (assign result key v).

(** [const result = {}; members.forEach(...); return result]. *)
Definition collect_members (extract : js → completion js) (members : list js)
  : completion js :=
  foldl (collect_member extract) (Return (JObj [])) members.

(** [extractValue] with room for [depth] nested calls on the call stack. *)
Fixpoint extractValue_at (depth : nat) (valueNode : js) : completion js :=
  match depth with
  | O => Throw (RangeError "Maximum call stack size exceeded")
  | S depth' =>
      if negb (truthy valueNode) then Return JNull else
      s ← get valueNode "string";
      if defined s then Return s else
      i ← get valueNode "int";
      if defined i then (n ← parseInt i; Return (JNum n)) else
      i4 ← get valueNode "i4";
      if defined i4 then (n ← parseInt i4; Return (JNum n)) else
      d ← get valueNode "double";
      if defined d then (x ← parseFloat d; Return (JNum x)) else
      b ← get valueNode "boolean";
      if defined b then Return (JBool (truthy b)) else
      dt ← get valueNode "dateTime.iso8601";
      if defined dt then (t ← new_Date dt; Return (JDate t)) else
      arr ← get valueNode "array";
      if truthy arr then
        data ← get arr "data";
        if negb (truthy data) then Return (JArr []) else
        dv ← get data "value";
        if negb (truthy dv) then Return (JArr []) else
        values ← mapM (extractValue_at depth') (as_array dv);
        Return (JArr values)
      else
      st ← get valueNode "struct";
      if truthy st then
        member ← get st "member";
        collect_members (extractValue_at depth') (as_array member)
      else Return JNull
  end.

(** [extractValue] on the stack that the host leaves to it. *)
Definition extractValue (valueNode : js) : completion js :=
  extractValue_at decode_stack valueNode.

(** The nesting depth of a value: a value of depth [d] takes [buildValue],
    and a node of depth [d] takes [extractValue], no more than [d + 1]
    nested calls. *)
Fixpoint js_depth (v : js) : nat :=
  match v with
  | JArr items => S (foldr (λ i d, Nat.max (js_depth i) d) O items)
  | JObj props => S (foldr (λ p d, Nat.max (js_depth (snd p)) d) O props)
  | JObjProto proto props =>
      S (Nat.max (js_depth proto)
                 (foldr (λ p d, Nat.max (js_depth (snd p)) d) O props))
  | _ => O
  end.

Definition parseXmlRpcResponse (xml : string) : completion UCIPResponse :=
  parsed ← xml_parse xml;
  methodResponse ← get parsed "methodResponse";
  fault ← get_opt methodResponse "fault";
  if truthy fault then
    node ← get fault "value";
    fault ← extractValue node;
    faultCode ← get fault "faultCode";
    faultString ← get fault "faultString";
    Return {| responseCode := js_or faultCode (JNum (-1));
              responseMessage := Some (js_or faultString (JStr "Unknown fault"));
              data := None |}
  else
    params ← get_opt methodResponse "params";
    if truthy params then
      param ← get params "param";
      data ← mapM (λ p, node ← get p "value"; extractValue node) (as_array param);
      Return {| responseCode := JNum 0;
                responseMessage := None;
                data := Some (match data with [d] => d | _ => JArr data end) |}
    else Throw (Error "Invalid XML-RPC response format").

(** What [call] does with the response of the exchange; the template
    literal of the last debug line converts the response code to a
    string. *)
Definition receive (response : Axios.Response) : completion UCIPResponse :=
  if negb (Axios.status response =? 200) then
    Throw (Error ("HTTP " ++ JSNumber.Z_toString (Axios.status response) ++ ": "
                  ++ Axios.statusText response))
  else
    ucipResponse ← parseXmlRpcResponse (Axios.data response);
    _ ← ToString (responseCode ucipResponse);
    Return ucipResponse.

(** [call] with the exchanges it performs, in order: the URL and the body
    of each [post]. *)
Definition call_exchanges (this : t) (request : UCIPRequest)
  : completion UCIPResponse * list (string * string) :=
  match buildXmlRpcRequest request with
  | Throw e => (Throw e, [])
  | Return requestBody =>
      (response ← http_post (url this) requestBody; receive response,
       [(url this, requestBody)])
  end.

Definition call (this : t) (request : UCIPRequest) : completion UCIPResponse :=
  fst (call_exchanges this request).

Definition getUrl (this : t) : string := url this.
Definition getConfig (this : t) : XmlRpcClientConfig := config this.

End Methods.
End XmlRpcClient.

(** ** [Map<string, V>] with its insertion order *)

Module JSMap.
Section Ops.
Context {V : Type}.

Definition t : Type := list (string * V).

Definition get (k : string) (m : t) : option V :=
  snd <$> find (λ p, String.eqb (fst p) k) m.

Definition has (k : string) (m : t) : bool := bool_decide (is_Some (get k m)).

Fixpoint set (k : string) (v : V) (m : t) : t :=
  match m with
  | [] => [(k, v)]
  | (k', v') :: rest =>
      if String.eqb k' k then (k, v) :: rest else (k', v') :: set k v rest
  end.

(** [m.values().next().value]. *)
Definition first_value (m : t) : option V := snd <$> head m.

Definition clear (m : t) : t := [].
End Ops.
Arguments t V : clear implicits.
End JSMap.

(** ** [src/defs/INResourceDefinitions.ts]: the node configurations *)

Module AirNodeConfig.
Record t : Type := {
  nodeId : string;
  nodeName : string;
  host : string;
  port : Z;
  url : option string;
  afType : option string;
  environment : string;
  active : bool;
  maxConnections : Z;
  timeout : Z
}.
End AirNodeConfig.

Module INResourceDefinitions.
(** [Array.from(airNodeCache.values()).filter(...)] over the cached nodes. *)
Definition getAirNodesByEnvironment (airNodeCache : list AirNodeConfig.t)
           (environment : string) : list AirNodeConfig.t :=
  filter (λ node, AirNodeConfig.active node = true
                  ∧ AirNodeConfig.environment node = environment) airNodeCache.
End INResourceDefinitions.

(** ** [src/air/AIRService.ts] *)

Module AIRService.
Import Types.

(** The part of [config] the service reads. *)
Record AppConfig : Type := {
  environment : string;
  requestTimeout : option Z;
  maxConnectionsPerRoute : option Z;
  statsInterval_ms : Z
}.

Record t : Type := {
  clients : JSMap.t XmlRpcClient.t;
  routingTable : gmap string (list RoutingDestination.t);
  roundRobinIndexes : gmap string Z;
  stats : TransactionStats;
  statsInterval : option Z;       (* the armed timer and its period *)
  initialized : bool
}.

Definition with_stats (st : TransactionStats) (this : t) : t :=
  {| clients := clients this; routingTable := routingTable this;
     roundRobinIndexes := roundRobinIndexes this; stats := st;
     statsInterval := statsInterval this; initialized := initialized this |}.

Definition zero_stats (now : Z) : TransactionStats :=
  {| totalRequests := 0; successfulRequests := 0; failedRequests := 0;
     averageResponseTime := 0; lastResetTime := now |}.

(** The constructor; [now] is the reading of [new Date()]. *)
Definition new (now : Z) : t :=
  {| clients := []; routingTable := ∅; roundRobinIndexes := ∅;
     stats := zero_stats now; statsInterval := None; initialized := false |}.

(** An optional string argument that is truthy: present and not empty. *)
Definition given (s : option string) : option string :=
  match s with
  | Some v => if String.eqb v "" then None else Some v
  | None => None
  end.

Definition startStatsReporting (cfg : AppConfig) (this : t) : t :=
  {| clients := clients this; routingTable := routingTable this;
     roundRobinIndexes := roundRobinIndexes this; stats := stats this;
     statsInterval := Some (statsInterval_ms cfg); initialized := initialized this |}.

Definition stopStatsReporting (this : t) : t :=
  {| clients := clients this; routingTable := routingTable this;
     roundRobinIndexes := roundRobinIndexes this; stats := stats this;
     statsInterval := None; initialized := initialized this |}.

(** One iteration of the loop of [initialize]. *)
Definition addNode (cfg : AppConfig) (this : t) (node : AirNodeConfig.t) : t :=
  let clientConfig := {|
    XmlRpcClient.host := AirNodeConfig.host node;
    XmlRpcClient.port := AirNodeConfig.port node;
    XmlRpcClient.path := Some "/Air";
    XmlRpcClient.timeout := requestTimeout cfg;
    XmlRpcClient.maxConnections := maxConnectionsPerRoute cfg |} in
  let client := XmlRpcClient.new clientConfig in
  let clients' := JSMap.set (AirNodeConfig.nodeId node) client (clients this) in
  match given (AirNodeConfig.afType node) with
  | Some afType =>
      let fresh := bool_decide (routingTable this !! afType = None) in
      let table := if fresh then <[afType := []]> (routingTable this)
                   else routingTable this in
      let indexes := if fresh then <[afType := 0]> (roundRobinIndexes this)
                     else roundRobinIndexes this in
      let destination := {|
        RoutingDestination.nodeId := AirNodeConfig.nodeId node;
        RoutingDestination.host := AirNodeConfig.host node;
        RoutingDestination.port := AirNodeConfig.port node;
        RoutingDestination.url :=
          "http://" ++ AirNodeConfig.host node ++ ":"
          ++ JSNumber.Z_toString (AirNodeConfig.port node) ++ "/Air";
        RoutingDestination.weight := None;
        RoutingDestination.active := AirNodeConfig.active node |} in
      {| clients := clients';
         routingTable :=
           <[afType := (default [] (table !! afType) ++ [destination])%list]> table;
         roundRobinIndexes := indexes; stats := stats this;
         statsInterval := statsInterval this; initialized := initialized this |}
  | None =>
      {| clients := clients'; routingTable := routingTable this;
         roundRobinIndexes := roundRobinIndexes this; stats := stats this;
         statsInterval := statsInterval this; initialized := initialized this |}
  end.

Definition initialize (cfg : AppConfig) (airNodeCache : list AirNodeConfig.t)
           (this : t) : completion unit * t :=
  if initialized this then (Return (), this)
  else
    let airNodes :=
      INResourceDefinitions.getAirNodesByEnvironment airNodeCache (environment cfg) in
    match airNodes with
    | [] => (Throw (Error ("No AIR nodes configured for environment: "
                           ++ environment cfg)), this)
    | _ =>
        let this1 := foldl (addNode cfg) this airNodes in
        let this2 := startStatsReporting cfg this1 in
        (Return (),
         {| clients := clients this2; routingTable := routingTable this2;
            roundRobinIndexes := roundRobinIndexes this2; stats := stats this2;
            statsInterval := statsInterval this2; initialized := true |})
    end.

Definition set_index (afType : string) (i : Z) (this : t) : t :=
  {| clients := clients this; routingTable := routingTable this;
     roundRobinIndexes := <[afType := i]> (roundRobinIndexes this);
     stats := stats this; statsInterval := statsInterval this;
     initialized := initialized this |}.

(** [destinations[i]] for an integer [i]. *)
Definition at_index {A} (l : list A) (i : Z) : option A :=
  if i <? 0 then None else l !! Z.to_nat i.

Definition client_for (this : t) (nodeId : string) : completion XmlRpcClient.t :=
  match JSMap.get nodeId (clients this) with
  | Some client => Return client
  | None => Throw (Error ("AIR client not found for node: " ++ nodeId))
  end.

(** [getClient(nodeId?, afType?)]: the result and the service afterwards
    (only the round-robin branch writes). *)
Definition getClient (this : t) (nodeId afType : option string)
  : completion XmlRpcClient.t * t :=
  match given nodeId with
  | Some nodeId => (client_for this nodeId, this)
  | None =>
      match given afType with
      | Some afType =>
          match routingTable this !! afType with
          | None | Some [] =>
              (Throw (Error ("No destinations found for AF type: " ++ afType)), this)
          | Some destinations =>
              let len := Z.of_nat (length destinations) in
              let index := default 0 (roundRobinIndexes this !! afType) in
              let destination := at_index destinations (Z.rem index len) in
              let this' := set_index afType (Z.rem (index + 1) len) this in
              match destination with
              | Some destination =>
                  (client_for this' (RoutingDestination.nodeId destination), this')
              | None =>
                  (Throw (TypeError
                     "Cannot read properties of undefined (reading 'nodeId')"), this')
              end
          end
      | None =>
          match JSMap.first_value (clients this) with
          | Some firstClient => (Return firstClient, this)
          | None => (Throw (Error "No AIR clients available"), this)
          end
      end
  end.

(** [updateStats(success, responseTime)]. *)
Definition updateStats (success : bool) (responseTime : float) (this : t) : t :=
  let st := stats this in
  let alpha := 0.1%float in
  with_stats
    {| totalRequests := totalRequests st;
       successfulRequests :=
         if success then successfulRequests st + 1 else successfulRequests st;
       failedRequests := if success then failedRequests st else failedRequests st + 1;
       averageResponseTime :=
         (alpha * responseTime + (1 - alpha) * averageResponseTime st)%float;
       lastResetTime := lastResetTime st |}
    this.

Definition count_request (this : t) : t :=
  let st := stats this in
  with_stats
    {| totalRequests := totalRequests st + 1;
       successfulRequests := successfulRequests st;
       failedRequests := failedRequests st;
       averageResponseTime := averageResponseTime st;
       lastResetTime := lastResetTime st |}
    this.

(** The two readings of [Date.now()] taken by [executeRequest]. *)
Record Clock : Type := { startTime : Z; endTime : Z }.

Definition elapsed (clock : Clock) : float :=
  JSNumber.of_Z (endTime clock - startTime clock).

Section Methods.
Context `{Host}.

Definition executeRequest (clock : Clock) (this : t) (request : UCIPRequest)
           (nodeId afType : option string) : completion UCIPResponse * t :=
  if negb (initialized this) then
    (Throw (Error "AIR service not initialized"), this)
  else
    let this1 := count_request this in
    let '(client, this2) := getClient this1 nodeId afType in
    match client ≫= (λ client, XmlRpcClient.call client request) with
    | Return response => (Return response, updateStats true (elapsed clock) this2)
    | Throw error => (Throw error, updateStats false (elapsed clock) this2)
    end.

Definition opt_str (s : option string) : js :=
  match s with Some v => JStr v | None => JUndefined end.

Definition opt_num (x : option float) : js :=
  match x with Some v => JNum v | None => JUndefined end.

(** [Math.floor(random * 10000).toString().padStart(4, '0')] after
    ["TXN"] and the reading of [Date.now()]. *)
Definition generateTransactionId (now : Z) (random : float) : string :=
  let n := JSNumber.Z_toString (JSNumber.trunc_abs (random * 10000)%float) in
  "TXN" ++ JSNumber.Z_toString now
  ++ JSNumber.zeros (4 - String.length n) ++ n.

Definition getBalance_request (request : GetBalanceRequest.t) : UCIPRequest :=
  {| methodName := "GetBalanceAndDate";
     params := [JObj [
       ("subscriberNumber", JStr (GetBalanceRequest.subscriberNumber request));
       ("requestedInformationFlags",
        js_or (opt_num (GetBalanceRequest.requestedInformationFlags request))
              (JNum 0))]] |}.

Definition getBalance (clock : Clock) (this : t) (request : GetBalanceRequest.t)
           (afType : option string) : completion UCIPResponse * t :=
  executeRequest clock this (getBalance_request request) None afType.

Definition refill_request (now : Z) (random : float) (request : RefillRequest.t)
  : UCIPRequest :=
  {| methodName := "Refill";
     params := [JObj [
       ("subscriberNumber", JStr (RefillRequest.subscriberNumber request));
       ("refillAmount", JNum (RefillRequest.refillAmount request));
       ("transactionId",
        js_or (opt_str (RefillRequest.transactionId request))
              (JStr (generateTransactionId now random)));
       ("transactionCurrency",
        js_or (opt_str (RefillRequest.transactionCurrency request)) (JStr "USD"));
       ("profileId",
        js_or (opt_str (RefillRequest.profileId request)) (JStr ""))]] |}.

Definition refill (clock : Clock) (now : Z) (random : float) (this : t)
           (request : RefillRequest.t) (afType : option string)
  : completion UCIPResponse * t :=
  executeRequest clock this (refill_request now random request) None afType.

Definition updateBalance_request (now : Z) (random : float)
           (request : UpdateBalanceRequest.t) : UCIPRequest :=
  {| methodName := "UpdateBalanceAndDate";
     params := [JObj [
       ("subscriberNumber", JStr (UpdateBalanceRequest.subscriberNumber request));
       ("adjustmentAmount", JNum (UpdateBalanceRequest.adjustmentAmount request));
       ("transactionId",
        js_or (opt_str (UpdateBalanceRequest.transactionId request))
              (JStr (generateTransactionId now random)));
       ("transactionType",
        js_or (opt_str (UpdateBalanceRequest.transactionType request))
              (JStr "ADJUSTMENT"))]] |}.

Definition updateBalance (clock : Clock) (now : Z) (random : float) (this : t)
           (request : UpdateBalanceRequest.t) (afType : option string)
  : completion UCIPResponse * t :=
  executeRequest clock this (updateBalance_request now random request) None afType.

Definition getAccountDetails_request (request : GetAccountDetailsRequest.t)
  : UCIPRequest :=
  {| methodName := "GetAccountDetails";
     params := [JObj [
       ("subscriberNumber",
        JStr (GetAccountDetailsRequest.subscriberNumber request));
       ("requestedInformationFlags",
        js_or (opt_num (GetAccountDetailsRequest.requestedInformationFlags request))
              (JNum 0xFFFFFFFF))]] |}.

Definition getAccountDetails (clock : Clock) (this : t)
           (request : GetAccountDetailsRequest.t) (afType : option string)
  : completion UCIPResponse * t :=
  executeRequest clock this (getAccountDetails_request request) None afType.

End Methods.

(** [getStats()]: a copy of the statistics. *)
Definition getStats (this : t) : TransactionStats :=
  let st := stats this in
  {| totalRequests := totalRequests st;
     successfulRequests := successfulRequests st;
     failedRequests := failedRequests st;
     averageResponseTime := averageResponseTime st;
     lastResetTime := lastResetTime st |}.

Definition resetStats (now : Z) (this : t) : t := with_stats (zero_stats now) this.

Definition shutdown (this : t) : t :=
  let this1 := stopStatsReporting this in
  {| clients := JSMap.clear (clients this1);
     routingTable := ∅;
     roundRobinIndexes := roundRobinIndexes this1;
     stats := stats this1;
     statsInterval := statsInterval this1;
     initialized := false |}.

Definition isInitialized (this : t) : bool := initialized this.

(** [n] selections one after the other for one routing key. *)
Fixpoint select_seq (n : nat) (this : t) (afType : string)
  : list (completion XmlRpcClient.t) * t :=
  match n with
  | O => ([], this)
  | S n' =>
      let '(client, this1) := getClient this None (Some afType) in
      let '(rest, this2) := select_seq n' this1 afType in
      (client :: rest, this2)
  end.

End AIRService.

(** ** The service as the routes call it

    TypeScript's types are erased at run time: the routes pass whatever the
    request body holds.  These are the methods of [AIRService] on arbitrary
    values. *)

Module AIRServiceUntyped.
Import Types AIRService.
Section Methods.
Context `{Host}.

(** The key of a [Map<string, V>] that a value is equal to, if any. *)
Definition map_key (v : js) : option string :=
  match v with JStr k => Some k | _ => None end.

(** [throw new Error(`<prefix>${v}`)]. *)
Definition throw_template {A} (prefix : string) (v : js) : completion A :=
  rendering ← ToString v; Throw (Error (prefix ++ rendering)).

Definition getClient (this : AIRService.t) (nodeId afType : js)
  : completion XmlRpcClient.t * AIRService.t :=
  if truthy nodeId then
    match map_key nodeId ≫= λ k, JSMap.get k (clients this) with
    | Some client => (Return client, this)
    | None => (throw_template "AIR client not found for node: " nodeId, this)
    end
  else if truthy afType then
    match map_key afType ≫= λ k, pair k <$> routingTable this !! k with
    | None | Some (_, []) =>
        (throw_template "No destinations found for AF type: " afType, this)
    | Some (k, destinations) =>
        let len := Z.of_nat (length destinations) in
        let index := default 0 (roundRobinIndexes this !! k) in
        let destination := at_index destinations (Z.rem index len) in
        let this' := set_index k (Z.rem (index + 1) len) this in
        match destination with
        | Some destination =>
            (client_for this' (RoutingDestination.nodeId destination), this')
        | None =>
            (Throw (TypeError
               "Cannot read properties of undefined (reading 'nodeId')"), this')
        end
    end
  else
    match JSMap.first_value (clients this) with
    | Some firstClient => (Return firstClient, this)
    | None => (Throw (Error "No AIR clients available"), this)
    end.

Definition executeRequest (clock : Clock) (this : AIRService.t) (request : UCIPRequest)
           (nodeId afType : js) : completion UCIPResponse * AIRService.t :=
  if negb (initialized this) then
    (Throw (Error "AIR service not initialized"), this)
  else
    let this1 := count_request this in
    let '(client, this2) := getClient this1 nodeId afType in
    match client ≫= (λ client, XmlRpcClient.call client request) with
    | Return response => (Return response, updateStats true (elapsed clock) this2)
    | Throw error => (Throw error, updateStats false (elapsed clock) this2)
    end.

Definition getBalance (clock : Clock) (this : AIRService.t)
           (subscriberNumber requestedInformationFlags afType : js)
  : completion UCIPResponse * AIRService.t :=
  executeRequest clock this
    {| methodName := "GetBalanceAndDate";
       params := [JObj [
         ("subscriberNumber", subscriberNumber);
         ("requestedInformationFlags", js_or requestedInformationFlags (JNum 0))]] |}
    JUndefined afType.

Definition refill (clock : Clock) (now : Z) (random : float) (this : AIRService.t)
           (subscriberNumber refillAmount transactionId transactionCurrency profileId
              afType : js)
  : completion UCIPResponse * AIRService.t :=
  executeRequest clock this
    {| methodName := "Refill";
       params := [JObj [
         ("subscriberNumber", subscriberNumber);
         ("refillAmount", refillAmount);
         ("transactionId",
          js_or transactionId (JStr (generateTransactionId now random)));
         ("transactionCurrency", js_or transactionCurrency (JStr "USD"));
         ("profileId", js_or profileId (JStr ""))]] |}
    JUndefined afType.

Definition updateBalance (clock : Clock) (now : Z) (random : float)
           (this : AIRService.t)
           (subscriberNumber adjustmentAmount transactionId transactionType afType : js)
  : completion UCIPResponse * AIRService.t :=
  executeRequest clock this
    {| methodName := "UpdateBalanceAndDate";
       params := [JObj [
         ("subscriberNumber", subscriberNumber);
         ("adjustmentAmount", adjustmentAmount);
         ("transactionId",
          js_or transactionId (JStr (generateTransactionId now random)));
         ("transactionType", js_or transactionType (JStr "ADJUSTMENT"))]] |}
    JUndefined afType.

Definition getAccountDetails (clock : Clock) (this : AIRService.t)
           (subscriberNumber requestedInformationFlags afType : js)
  : completion UCIPResponse * AIRService.t :=
  executeRequest clock this
    {| methodName := "GetAccountDetails";
       params := [JObj [
         ("subscriberNumber", subscriberNumber);
         ("requestedInformationFlags",
          js_or requestedInformationFlags (JNum 0xFFFFFFFF))]] |}
    JUndefined afType.

End Methods.
End AIRServiceUntyped.

(** ** [src/server/middleware/error-handler.ts] and [src/server/routes/air.routes.ts] *)

Module AirRoutes.
Import Types.

(** What a handler can be rejected with: an [AppError] of the middleware, or
    any other exception. *)
Inductive failure : Type :=
| AppError (message : string) (statusCode : Z)
| Thrown (e : exn).

(** The status and the value given to [res.json]. *)
Record HttpResponse : Type := {
  statusCode : Z;
  body : js
}.

Definition error_body (message : string) (statusCode : Z) : js :=
  JObj [("success", JBool false);
        ("error", JObj [("message", JStr message);
                        ("statusCode", JNum (JSNumber.of_Z statusCode))])].

(** [errorHandler]. *)
Definition errorHandler (err : failure) : HttpResponse :=
  match err with
  | AppError message statusCode =>
      {| statusCode := statusCode; body := error_body message statusCode |}
  | Thrown _ =>
      {| statusCode := 500; body := error_body "Internal server error" 500 |}
  end.

(** [asyncHandler(fn)] under the application's error handler: the response
    the handler sent, or the error handler's answer to its rejection. *)
Definition asyncHandler (result : failure + HttpResponse) : HttpResponse :=
  match result with
  | inr response => response
  | inl err => errorHandler err
  end.

(** [res.json(value)] without [res.status]: status 200. *)
Definition json (value : js) : HttpResponse := {| statusCode := 200; body := value |}.

(** [const { k } = req.body]. *)
Definition destructure (reqBody : js) (k : string) : completion js :=
  match reqBody with
  | JUndefined =>
      Throw (TypeError ("Cannot destructure property '" ++ k
                        ++ "' of 'req.body' as it is undefined."))
  | JNull =>
      Throw (TypeError ("Cannot destructure property '" ++ k
                        ++ "' of 'req.body' as it is null."))
  | JObj props => Return (default JUndefined (lookup_prop k props))
  | JObjProto _ _ => Return (default JUndefined (find_prop k reqBody))
  | _ => Return JUndefined
  end.

(** [v === 0]. *)
Definition is_zero_number (v : js) : bool :=
  match v with JNum x => is_zero x | _ => false end.

(** A response of the service as the object it is. *)
Definition response_object (response : UCIPResponse) : js :=
  JObj ([("responseCode", responseCode response)]
        ++ match responseMessage response with
           | Some message => [("responseMessage", message)]
           | None => []
           end
        ++ match Types.data response with
           | Some data => [("data", data)]
           | None => []
           end)%list.

Definition stats_object (stats : TransactionStats) : js :=
  JObj [("totalRequests", JNum (JSNumber.of_Z (totalRequests stats)));
        ("successfulRequests", JNum (JSNumber.of_Z (successfulRequests stats)));
        ("failedRequests", JNum (JSNumber.of_Z (failedRequests stats)));
        ("averageResponseTime", JNum (averageResponseTime stats));
        ("lastResetTime", JDate (Some (lastResetTime stats)))].

(** The end of the four POST handlers:
    [res.json({ success: response.responseCode === 0, data: response })]. *)
Definition respond (outcome : completion UCIPResponse * AIRService.t)
  : (failure + HttpResponse) * AIRService.t :=
  match fst outcome with
  | Return response =>
      (inr (json (JObj [("success", JBool (is_zero_number (responseCode response)));
                        ("data", response_object response)])),
       snd outcome)
  | Throw e => (inl (Thrown e), snd outcome)
  end.

Section Handlers.
Context `{Host}.

(** [GET /stats]. *)
Definition stats (this : AIRService.t) : (failure + HttpResponse) * AIRService.t :=
  if negb (AIRService.isInitialized this) then
    (inl (AppError "AIR service not initialized" 503), this)
  else
    (inr (json (JObj [("success", JBool true);
                      ("data", stats_object (AIRService.getStats this))])), this).

(** [POST /balance]. *)
Definition balance (clock : AIRService.Clock) (this : AIRService.t) (reqBody : js)
  : (failure + HttpResponse) * AIRService.t :=
  match
    subscriberNumber ← destructure reqBody "subscriberNumber";
    requestedInformationFlags ← destructure reqBody "requestedInformationFlags";
    afType ← destructure reqBody "afType";
    Return (subscriberNumber, requestedInformationFlags, afType)
  with
  | Throw e => (inl (Thrown e), this)
  | Return (subscriberNumber, requestedInformationFlags, afType) =>
      if negb (truthy subscriberNumber) then
        (inl (AppError "subscriberNumber is required" 400), this)
      else
        match ToString subscriberNumber with    (* the log line *)
        | Throw e => (inl (Thrown e), this)
        | Return _ =>
            respond (AIRServiceUntyped.getBalance clock this subscriberNumber
                       requestedInformationFlags afType)
        end
  end.

(** [POST /refill]. *)
Definition refill (clock : AIRService.Clock) (now : Z) (random : float)
           (this : AIRService.t) (reqBody : js)
  : (failure + HttpResponse) * AIRService.t :=
  match
    subscriberNumber ← destructure reqBody "subscriberNumber";
    refillAmount ← destructure reqBody "refillAmount";
    transactionId ← destructure reqBody "transactionId";
    transactionCurrency ← destructure reqBody "transactionCurrency";
    profileId ← destructure reqBody "profileId";
    afType ← destructure reqBody "afType";
    Return (subscriberNumber, refillAmount, transactionId, transactionCurrency,
            profileId, afType)
  with
  | Throw e => (inl (Thrown e), this)
  | Return (subscriberNumber, refillAmount, transactionId, transactionCurrency,
            profileId, afType) =>
      if negb (truthy subscriberNumber) || negb (defined refillAmount) then
        (inl (AppError "subscriberNumber and refillAmount are required" 400), this)
      else
        match (_ ← ToString refillAmount; ToString subscriberNumber) with
        | Throw e => (inl (Thrown e), this)
        | Return _ =>
            respond (AIRServiceUntyped.refill clock now random this subscriberNumber
                       refillAmount transactionId transactionCurrency profileId afType)
        end
  end.

(** [POST /update-balance]. *)
Definition update_balance (clock : AIRService.Clock) (now : Z) (random : float)
           (this : AIRService.t) (reqBody : js)
  : (failure + HttpResponse) * AIRService.t :=
  match
    subscriberNumber ← destructure reqBody "subscriberNumber";
    adjustmentAmount ← destructure reqBody "adjustmentAmount";
    transactionId ← destructure reqBody "transactionId";
    transactionType ← destructure reqBody "transactionType";
    afType ← destructure reqBody "afType";
    Return (subscriberNumber, adjustmentAmount, transactionId, transactionType, afType)
  with
  | Throw e => (inl (Thrown e), this)
  | Return (subscriberNumber, adjustmentAmount, transactionId, transactionType, afType) =>
      if negb (truthy subscriberNumber) || negb (defined adjustmentAmount) then
        (inl (AppError "subscriberNumber and adjustmentAmount are required" 400), this)
      else
        match (_ ← ToString adjustmentAmount; ToString subscriberNumber) with
        | Throw e => (inl (Thrown e), this)
        | Return _ =>
            respond (AIRServiceUntyped.updateBalance clock now random this
                       subscriberNumber adjustmentAmount transactionId transactionType
                       afType)
        end
  end.

(** [POST /account-details]. *)
Definition account_details (clock : AIRService.Clock) (this : AIRService.t)
           (reqBody : js) : (failure + HttpResponse) * AIRService.t :=
  match
    subscriberNumber ← destructure reqBody "subscriberNumber";
    requestedInformationFlags ← destructure reqBody "requestedInformationFlags";
    afType ← destructure reqBody "afType";
    Return (subscriberNumber, requestedInformationFlags, afType)
  with
  | Throw e => (inl (Thrown e), this)
  | Return (subscriberNumber, requestedInformationFlags, afType) =>
      if negb (truthy subscriberNumber) then
        (inl (AppError "subscriberNumber is required" 400), this)
      else
        match ToString subscriberNumber with    (* the log line *)
        | Throw e => (inl (Thrown e), this)
        | Return _ =>
            respond (AIRServiceUntyped.getAccountDetails clock this subscriberNumber
                       requestedInformationFlags afType)
        end
  end.

End Handlers.
End AirRoutes.

(** ** Sample data for the examples *)

(** A host whose HTTP exchange and XML parse are scripted. *)
Definition scripted_host (response : completion Axios.Response)
           (parsed : completion js) : Host :=
  {| date_toString := JSDate.iso_string;
     date_parse_other := λ _, None;
     xml_build := λ _, "";
     xml_parse := λ _, parsed;
     http_post := λ _ _, response;
     array_like_toString := λ _, Return "";
     encode_stack := 3000;
     encode_stack_room := eq_refl;
     decode_stack := 3000;
     decode_stack_room := eq_refl |}.

(** The scripted host with room for [depth + 2] nested calls only. *)
Definition shallow_host (depth : nat) (response : completion Axios.Response)
           (parsed : completion js) : Host :=
  {| date_toString := JSDate.iso_string;
     date_parse_other := λ _, None;
     xml_build := λ _, "";
     xml_parse := λ _, parsed;
     http_post := λ _ _, response;
     array_like_toString := λ _, Return "";
     encode_stack := S (S depth);
     encode_stack_room := eq_refl;
     decode_stack := S (S depth);
     decode_stack_room := eq_refl |}.

Definition offline_host : Host :=
  scripted_host (Throw (Error "connect ECONNREFUSED")) (Return (JObj [])).

Definition sample_node (id : string) : AirNodeConfig.t :=
  {| AirNodeConfig.nodeId := id;
     AirNodeConfig.nodeName := id;
     AirNodeConfig.host := id ++ ".air.example";
     AirNodeConfig.port := 8080;
     AirNodeConfig.url := None;
     AirNodeConfig.afType := Some "k";
     AirNodeConfig.environment := "lab";
     AirNodeConfig.active := true;
     AirNodeConfig.maxConnections := 10;
     AirNodeConfig.timeout := 30000 |}.

Definition sample_config : AIRService.AppConfig :=
  {| AIRService.environment := "lab";
     AIRService.requestTimeout := Some 30000;
     AIRService.maxConnectionsPerRoute := Some 20;
     AIRService.statsInterval_ms := 60000 |}.

(** The service initialized with the nodes A, B and C, all of routing key ["k"]. *)
Definition sample_service : AIRService.t :=
  snd (AIRService.initialize sample_config
         [sample_node "A"; sample_node "B"; sample_node "C"] (AIRService.new 0)).

Definition sample_client (id : string) : XmlRpcClient.t :=
  XmlRpcClient.new
    {| XmlRpcClient.host := id ++ ".air.example";
       XmlRpcClient.port := 8080;
       XmlRpcClient.path := Some "/Air";
       XmlRpcClient.timeout := Some 30000;
       XmlRpcClient.maxConnections := Some 20 |}.

Definition sample_clock : AIRService.Clock :=
  {| AIRService.startTime := 1700000000000; AIRService.endTime := 1700000000100 |}.

(** [request.params[0][name]] of a request built by a typed operation. *)
Definition request_param (request : Types.UCIPRequest) (name : string) : js :=
  match Types.params request with
  | JObj props :: _ => default JUndefined (lookup_prop name props)
  | _ => JUndefined
  end.

(** [v?.k1?.k2 ...]: [undefined] as soon as a step is missing. *)
Definition chain (v : js) (keys : list string) : js :=
  foldl (λ v k, match v with
                | JObj props => default JUndefined (lookup_prop k props)
                | JObjProto _ _ => default JUndefined (find_prop k v)
                | _ => JUndefined
                end) v keys.

Definition nullish (v : js) : bool :=
  match v with
  | JUndefined | JNull => true
  | _ => false
  end.

(** Wire nodes as the XML parser delivers them. *)
Definition int_node (n : Z) : js := JObj [("int", JNum (JSNumber.of_Z n))].
Definition string_node (s : string) : js := JObj [("string", JStr s)].
Definition struct_node (members : list (string * js)) : js :=
  JObj [("struct", JObj [("member",
    JArr (map (λ m, JObj [("name", JStr (fst m)); ("value", snd m)]) members))])].

(** The parse of [<methodResponse><fault><value>...</value></fault></methodResponse>]. *)
Definition fault_envelope (node : js) : js :=
  JObj [("methodResponse", JObj [("fault", JObj [("value", node)])])].

(** Every value that [buildValue] reaches in [v] and takes for a Date
    ([instanceof Date]) is a Date with a valid time: none is an Invalid
    Date, none is an object that only inherits from a Date. *)
Fixpoint dates_valid (v : js) : bool :=
  match v with
  | JDate t => bool_decide (is_Some t)
  | JArr items => forallb dates_valid items
  | JObj props => forallb (λ p, dates_valid (snd p)) props
  | JObjProto proto props =>
      match proto_end proto with
      | EndDate => false
      | _ => forallb (λ p, dates_valid (snd p)) props
      end
  | _ => true
  end.

(** No object in the value has had its prototype replaced: the values that
    [JSON.parse] and the XML parser deliver. *)
Fixpoint plain (v : js) : bool :=
  match v with
  | JArr items => forallb plain items
  | JObj props => forallb (λ p, plain (snd p)) props
  | JObjProto _ _ => false
  | _ => true
  end.

(** [levels] arrays, one inside the other, around [v]. *)
Fixpoint nested (levels : nat) (v : js) : js :=
  match levels with
  | O => v
  | S levels' => JArr [nested levels' v]
  end.

(** The wire node of an array: [<array><data><value>...</value></data></array>]. *)
Definition array_node (nodes : list js) : js :=
  JObj [("array", JObj [("data", JObj [("value", JArr nodes)])])].

(** The wire node of [levels] arrays, one inside the other, around [node]. *)
Fixpoint nested_node (levels : nat) (node : js) : js :=
  match levels with
  | O => node
  | S levels' => array_node [nested_node levels' node]
  end.

Definition sample_destination (id : string) : Types.RoutingDestination.t :=
  {| Types.RoutingDestination.nodeId := id;
     Types.RoutingDestination.host := id ++ ".air.example";
     Types.RoutingDestination.port := 8080;
     Types.RoutingDestination.url := "http://" ++ id ++ ".air.example:8080/Air";
     Types.RoutingDestination.weight := None;
     Types.RoutingDestination.active := true |}.

(** How many of the naturals below [m] are congruent to [j] modulo [L]. *)
Definition hits (L j m : nat) : nat :=
  length (filter (λ x, (x mod L)%nat = j) (seq 0 m)).

(** ** Value trees and what decoding gives back *)

(** The values the codec is specified on: strings, finite numbers, booleans,
    valid dates, arrays and structs (objects, whose member names are
    distinct) of such values. *)
Inductive value_tree : js → Prop :=
| vt_string (s : string) : value_tree (JStr s)
| vt_number (x : float) : is_finite x = true → value_tree (JNum x)
| vt_boolean (b : bool) : value_tree (JBool b)
| vt_date (t : Z) : Z.abs t <= JSDate.maxTime → value_tree (JDate (Some t))
| vt_array (items : list js) : Forall value_tree items → value_tree (JArr items)
| vt_struct (props : list (string * js)) :
    NoDup (map fst props) →
    Forall (λ p, value_tree (snd p)) props →
    value_tree (JObj props).

(** [v'] is [v] again: the same tree, numbers compared as [===] does (an
    integral double and the integer of the same value are one Number). *)
Inductive decoded_as : js → js → Prop :=
| da_string (s : string) : decoded_as (JStr s) (JStr s)
| da_number (x x' : float) : (x =? x')%float = true → decoded_as (JNum x) (JNum x')
| da_boolean (b : bool) : decoded_as (JBool b) (JBool b)
| da_date (t : option Z) : decoded_as (JDate t) (JDate t)
| da_array (items items' : list js) :
    Forall2 decoded_as items items' → decoded_as (JArr items) (JArr items')
| da_struct (props props' : list (string * js)) :
    Forall2 (λ p p', fst p = fst p' ∧ decoded_as (snd p) (snd p')) props props' →
    decoded_as (JObj props) (JObj props').

(** Where the codec does read back what it wrote: integral numbers are
    below 10^21 in magnitude (so every 64-bit integer is in range), and no
    struct member is named ["__proto__"]. *)
Fixpoint in_codec_range (v : js) : bool :=
  match v with
  | JNum x => negb (JSNumber.isInteger x) || (abs x <? 1e21)%float
  | JArr items => forallb in_codec_range items
  | JObj props =>
      forallb (λ p, negb (String.eqb (fst p) "__proto__") && in_codec_range (snd p))
              props
  | _ => true
  end.

Section Encodes.
Context `{Host}.

(** [node] encodes [v]: it is at least as deep, and decoding it with enough
    stack gives [v] back. *)
Definition reads_back (v node : js) : Prop :=
  (XmlRpcClient.js_depth v ≤ XmlRpcClient.js_depth node)%nat
  ∧ ∀ depth, (XmlRpcClient.js_depth v < depth)%nat →
             ∃ decoded, XmlRpcClient.extractValue_at depth node = Return decoded
                        ∧ decoded_as v decoded.

(** [node] is what [buildValue] returns for [v] whenever the stack has
    room for the nesting of [v]. *)
Definition built_as (v node : js) : Prop :=
  ∀ depth, (XmlRpcClient.js_depth v < depth)%nat →
           XmlRpcClient.buildValue_at depth v = Return node.

(** [member] is the struct member that encodes the property [p]. *)
Definition member_of (p : string * js) (member : js) : Prop :=
  ∃ node, member = JObj [("name", JStr (fst p)); ("value", node)]
          ∧ reads_back (snd p) node.

End Encodes.

(** Numbers of every printed shape, to compare the closed forms of
    [parseInt] and [parseFloat] on Numbers with reading their numerals. *)
Definition sample_numbers : list float :=
  [0; (-0); 1; (-7); 102; 4294967295; 9007199254740993; 1152921504606846976;
   123456789012345680000; 999999999999999900000; 1e21; 1e22; 1e23; (-1.5e21);
   1180591620717411303424; 1e300; 1.7976931348623157e308; 0.1; 0.5; (-0.5);
   123.456; (-123.5); 0.30000000000000004; 0.000001; 1e-6; 9.999999e-7; 1e-7;
   1.5e-7; 5e-324; nan; infinity; neg_infinity]%float.

(** ** Envelopes, request shapes and the states of the service *)

(** The parse of [<methodResponse><params>...</params></methodResponse>]. *)
Definition params_envelope (param : js) : js :=
  JObj [("methodResponse", JObj [("params", JObj [("param", param)])])].

(** A struct all of whose members are strings or numbers. *)
Definition plain_struct (param : js) : Prop :=
  ∃ props, param = JObj props
           ∧ Forall (λ p, match snd p with
                          | JStr _ | JNum _ => True
                          | _ => False
                          end) props.

(** The routing destination that [initialize] builds for a node. *)
Definition destination_of (node : AirNodeConfig.t) : Types.RoutingDestination.t :=
  {| Types.RoutingDestination.nodeId := AirNodeConfig.nodeId node;
     Types.RoutingDestination.host := AirNodeConfig.host node;
     Types.RoutingDestination.port := AirNodeConfig.port node;
     Types.RoutingDestination.url :=
       "http://" ++ AirNodeConfig.host node ++ ":"
       ++ JSNumber.Z_toString (AirNodeConfig.port node) ++ "/Air";
     Types.RoutingDestination.weight := None;
     Types.RoutingDestination.active := AirNodeConfig.active node |}.

(** The states of the service that its public operations produce, one
    operation after the other (no request in flight). *)
Inductive reachable : AIRService.t → Prop :=
| reach_new (now : Z) : reachable (AIRService.new now)
| reach_initialize (cfg : AIRService.AppConfig) (airNodeCache : list AirNodeConfig.t)
                   (this : AIRService.t) :
    reachable this → reachable (snd (AIRService.initialize cfg airNodeCache this))
| reach_executeRequest (H : Host) (clock : AIRService.Clock) (this : AIRService.t)
                       (request : Types.UCIPRequest) (nodeId afType : option string) :
    reachable this →
    reachable (snd (@AIRService.executeRequest H clock this request nodeId afType))
| reach_resetStats (now : Z) (this : AIRService.t) :
    reachable this → reachable (AIRService.resetStats now this)
| reach_shutdown (this : AIRService.t) :
    reachable this → reachable (AIRService.shutdown this).

(** Every routing key has destinations, a cursor inside their list, and a
    registered client for each of them. *)
Definition routes_consistent (this : AIRService.t) : Prop :=
  ∀ afType destinations,
    AIRService.routingTable this !! afType = Some destinations →
    afType ≠ ""
    ∧ destinations ≠ []
    ∧ (∃ i, AIRService.roundRobinIndexes this !! afType = Some i
            ∧ 0 <= i < Z.of_nat (length destinations))
    ∧ Forall (λ d, is_Some (JSMap.get (Types.RoutingDestination.nodeId d)
                              (AIRService.clients this))
                   ∧ Types.RoutingDestination.active d = true) destinations.

Record consistent (this : AIRService.t) : Prop := {
  stats_balanced :
    Types.totalRequests (AIRService.stats this)
    = Types.successfulRequests (AIRService.stats this)
      + Types.failedRequests (AIRService.stats this);
  timer_armed :
    is_Some (AIRService.statsInterval this) ↔ AIRService.initialized this = true;
  stopped_empty :
    AIRService.initialized this = false →
    AIRService.clients this = [] ∧ AIRService.routingTable this = ∅;
  started_clients : AIRService.initialized this = true → AIRService.clients this ≠ [];
  routes_ok : routes_consistent this
}.




(** * Properties *)

Import Types AIRService XmlRpcClient.
#[local] Arguments String.append : simpl nomatch.

(** ** Induction on values and sequencing lemmas *)

Lemma js_ind (P : js → Prop) :
  P JUndefined → P JNull → (∀ b, P (JBool b)) → (∀ x, P (JNum x)) →
  (∀ s, P (JStr s)) → (∀ t, P (JDate t)) →
  (∀ items, Forall P items → P (JArr items)) →
  (∀ props, Forall (λ p, P (snd p)) props → P (JObj props)) →
  (∀ proto props,
     P proto → Forall (λ p, P (snd p)) props → P (JObjProto proto props)) →
  ∀ v, P v.
Proof.
  intros Hu Hn Hb Hx Hs Hd Ha Ho Hp. fix IH 1.
  intros [| | b | x | s | t | items | props | proto props].
  - exact Hu.
  - exact Hn.
  - apply Hb.
  - apply Hx.
  - apply Hs.
  - apply Hd.
  - apply Ha. induction items as [| i items IHitems]; constructor.
    + apply IH.
    + exact IHitems.
  - apply Ho. induction props as [| p props IHprops]; constructor.
    + apply IH.
    + exact IHprops.
  - apply Hp; [apply IH |]. induction props as [| p props IHprops]; constructor.
    + apply IH.
    + exact IHprops.
Qed.

Lemma mapM_Return {A B : Type} (f : A → completion B) (R : A → B → Prop)
      (l : list A) :
  Forall (λ a, ∃ b, f a = Return b ∧ R a b) l →
  ∃ bs, mapM f l = Return bs ∧ Forall2 R l bs.
Proof.
  induction 1 as [| a l (b & Hb & HR) _ (bs & Hbs & HRs)].
  - exists []. split; [reflexivity | constructor].
  - exists (b :: bs). split; [| by constructor].
    simpl. rewrite Hb. simpl. rewrite Hbs. reflexivity.
Qed.

Lemma mapM_Throw {A B : Type} (f : A → completion B) (l : list A) (e : exn) :
  mapM f l = Throw e → ∃ a, a ∈ l ∧ f a = Throw e.
Proof.
  induction l as [| a l IH]; simpl; [discriminate |].
  destruct (f a) as [b | e'] eqn:Hfa; simpl.
  - destruct (mapM f l) as [bs | e'']; simpl; [discriminate |].
    intros [= ->]. destruct (IH eq_refl) as (a' & Hin & Ha').
    exists a'. split; [by right | done].
  - intros [= ->]. exists a. split; [by left | done].
Qed.

Lemma mapM_agree {A B : Type} (f g : A → completion B) (l : list A) :
  (∀ a, a ∈ l → f a = g a) → mapM f l = mapM g l.
Proof.
  induction l as [| a l IH]; intros Hfg; [reflexivity |].
  simpl. rewrite (Hfg a) by left. rewrite IH; [reflexivity |].
  intros a' Ha'. apply Hfg. by right.
Qed.

Lemma mapM_Return_inv {A B : Type} (f : A → completion B) (l : list A) (bs : list B) :
  mapM f l = Return bs → Forall (λ a, ∃ b, f a = Return b) l.
Proof.
  revert bs. induction l as [| a l IH]; simpl; intros bs; [constructor |].
  destruct (f a) as [b | e] eqn:Hb; simpl; [| discriminate].
  destruct (mapM f l) as [bs' | e]; simpl; [| discriminate].
  intros _. constructor; [eauto | by eapply IH].
Qed.

Lemma mapM_Forall2 {A B : Type} (f : A → completion B) (l : list A) (bs : list B) :
  Forall2 (λ a b, f a = Return b) l bs → mapM f l = Return bs.
Proof.
  induction 1 as [| a b l bs Hab _ IH]; [reflexivity |].
  simpl. rewrite Hab. simpl. by rewrite IH.
Qed.

Lemma Forall_exists_Forall2 {A B : Type} (R : A → B → Prop) (l : list A) :
  Forall (λ a, ∃ b, R a b) l → ∃ bs, Forall2 R l bs.
Proof.
  induction 1 as [| a l [b Hb] _ [bs Hbs]]; [by exists [] |].
  exists (b :: bs). by constructor.
Qed.

Lemma Forall2_impl_elem {A B : Type} (R Q : A → B → Prop) (l : list A) (bs : list B) :
  Forall2 R l bs → (∀ a b, a ∈ l → R a b → Q a b) → Forall2 Q l bs.
Proof.
  induction 1 as [| a b l bs Hab _ IH]; intros Himpl; constructor.
  - apply Himpl; [by left | done].
  - apply IH. intros a' b' Ha'. apply Himpl. by right.
Qed.

(** The stack has room for the method and one nested call. *)
Lemma encode_stack_succ `{Host} : ∃ depth, encode_stack = S (S depth).
Proof.
  pose proof encode_stack_room as Hroom.
  destruct encode_stack as [| [| depth]]; [discriminate | discriminate | eauto].
Qed.

Lemma decode_stack_succ `{Host} : ∃ depth, decode_stack = S (S depth).
Proof.
  pose proof decode_stack_room as Hroom.
  destruct decode_stack as [| [| depth]]; [discriminate | discriminate | eauto].
Qed.

Lemma items_depth_elem (items : list js) (i : js) :
  i ∈ items → (js_depth i ≤ foldr (λ i d, Nat.max (js_depth i) d) 0 items)%nat.
Proof.
  induction items as [| a items IH]; [by intros ?%elem_of_nil |].
  intros [-> | Hin]%elem_of_cons; simpl; [lia |]. specialize (IH Hin). lia.
Qed.

Lemma props_depth_elem (props : list (string * js)) (p : string * js) :
  p ∈ props →
  (js_depth (snd p) ≤ foldr (λ p d, Nat.max (js_depth (snd p)) d) 0 props)%nat.
Proof.
  induction props as [| a props IH]; [by intros ?%elem_of_nil |].
  intros [-> | Hin]%elem_of_cons; simpl; [lia |]. specialize (IH Hin). lia.
Qed.

(** ** Dates: [Date.parse] inverts [toISOString] *)

Lemma string_app_assoc (a b c : string) : (a ++ b) ++ c = a ++ (b ++ c).
Proof. induction a as [| x a IH]; simpl; [reflexivity | by f_equal]. Qed.

Lemma digit_char_spec (d : Z) :
  JSDate.is_digit (JSNumber.digit_char d) = true
  ∧ JSDate.digit_value (JSNumber.digit_char d) = d mod 10.
Proof.
  unfold JSNumber.digit_char.
  assert (Hr : 0 <= d mod 10 < 10) by (apply Z.mod_pos_bound; lia).
  set (r := d mod 10) in *.
  assert (Hcases : r = 0 ∨ r = 1 ∨ r = 2 ∨ r = 3 ∨ r = 4 ∨ r = 5 ∨ r = 6
                   ∨ r = 7 ∨ r = 8 ∨ r = 9) by lia.
  destruct Hcases as [-> | [-> | [-> | [-> | [-> | [-> | [-> | [-> | [-> | ->]]]]]]]]];
    split; reflexivity.
Qed.

Lemma read_digits_cons (k : nat) (acc : Z) (c : ascii) (s : string) :
  JSDate.read_digits (S k) acc (String c s)
  = if JSDate.is_digit c
    then JSDate.read_digits k (10 * acc + JSDate.digit_value c) s
    else None.
Proof. reflexivity. Qed.

Lemma read_digits_pad (k : nat) :
  ∀ (n acc : Z) (rest : string) (j : nat),
    0 <= n < 10 ^ Z.of_nat k →
    JSDate.read_digits (k + j) acc (JSDate.pad k n ++ rest)
    = JSDate.read_digits j (acc * 10 ^ Z.of_nat k + n) rest.
Proof.
  induction k as [| k IH]; intros n acc rest j Hn.
  - simpl in *. f_equal. lia.
  - unfold JSDate.pad in *. simpl JSNumber.fixed_digits.
    rewrite string_app_assoc. simpl (String _ "" ++ rest).
    replace (S k + j)%nat with (k + S j)%nat by lia.
    rewrite Nat2Z.inj_succ, Z.pow_succ_r in Hn by lia.
    rewrite IH by (split; [apply Z.div_pos; lia | apply Z.div_lt_upper_bound; lia]).
    rewrite read_digits_cons. destruct (digit_char_spec n) as [-> ->].
    f_equal. rewrite Nat2Z.inj_succ, Z.pow_succ_r by lia.
    pose proof (Z.div_mod n 10 ltac:(lia)). lia.
Qed.

Lemma read_pad (k : nat) (n : Z) (rest : string) :
  0 <= n < 10 ^ Z.of_nat k →
  JSDate.read_digits k 0 (JSDate.pad k n ++ rest) = Some (n, rest).
Proof.
  intros Hn. pose proof (read_digits_pad k n 0 rest 0 Hn) as Hread.
  rewrite Nat.add_0_r in Hread. rewrite Hread. simpl. repeat f_equal; lia.
Qed.

Lemma civil_from_days_spec (day : Z) :
  let '(y, m, d) := JSDate.civil_from_days day in
  1 <= m <= 12 ∧ 1 <= d <= 31 ∧ JSDate.MakeDay y m d = day
  ∧ (day + 719468) / 146097 * 400 <= y <= (day + 719468) / 146097 * 400 + 400.
Proof.
  unfold JSDate.civil_from_days, JSDate.MakeDay.
  set (z := day + 719468).
  set (era := z / 146097).
  set (doe := z - era * 146097).
  assert (Hdoe : 0 <= doe < 146097).
  { subst doe era. pose proof (Z.div_mod z 146097 ltac:(lia)).
    pose proof (Z.mod_pos_bound z 146097 ltac:(lia)). lia. }
  assert (Hz : day = era * 146097 + doe - 719468) by (subst doe z; lia).
  clearbody doe era.
  set (yoe := (doe - doe / 1460 + doe / 36524 - doe / 146096) / 365).
  assert (Hyoe : 0 <= yoe <= 399).
  { subst yoe. Z.div_mod_to_equations. lia. }
  set (doy := doe - (365 * yoe + yoe / 4 - yoe / 100)).
  assert (Hdoy : 0 <= doy <= 365).
  { subst doy yoe. Z.div_mod_to_equations. lia. }
  set (mp := (5 * doy + 2) / 153).
  assert (Hmp : 0 <= mp <= 11).
  { subst mp. Z.div_mod_to_equations. lia. }
  set (d := doy - (153 * mp + 2) / 5 + 1).
  assert (Hd : 1 <= d <= 31).
  { subst d mp. Z.div_mod_to_equations. lia. }
  destruct (Z.ltb_spec mp 10) as [Hlt | Hge].
  - destruct (Z.leb_spec (mp + 3) 2) as [? | _]; [lia |].
    destruct (Z.ltb_spec 2 (mp + 3)) as [_ | ?]; [| lia].
    replace (mp + 3 - 3) with mp by lia.
    split; [lia |]. split; [lia |]. split; [| lia].
    replace ((yoe + era * 400) / 400) with era
      by (clear -Hyoe; Z.div_mod_to_equations; lia).
    replace (yoe + era * 400 - era * 400) with yoe by lia.
    subst d doy. lia.
  - destruct (Z.leb_spec (mp - 9) 2) as [_ | ?]; [| lia].
    destruct (Z.ltb_spec 2 (mp - 9)) as [? | _]; [lia |].
    replace (mp - 9 + 9) with mp by lia.
    replace (yoe + era * 400 + 1 - 1) with (yoe + era * 400) by lia.
    split; [lia |]. split; [lia |]. split; [| lia].
    replace ((yoe + era * 400) / 400) with era
      by (clear -Hyoe; Z.div_mod_to_equations; lia).
    replace (yoe + era * 400 - era * 400) with yoe by lia.
    subst d doy. lia.
Qed.

Lemma pad_head (k : nat) (n : Z) (rest : string) :
  ∃ c s, JSDate.pad (S k) n ++ rest = String c s ∧ JSDate.is_digit c = true.
Proof.
  revert n rest. induction k as [| k IH]; intros n rest.
  - exists (JSNumber.digit_char n), rest. split; [reflexivity |].
    apply digit_char_spec.
  - unfold JSDate.pad in *.
    change (JSNumber.fixed_digits (S (S k)) n)
      with (JSNumber.fixed_digits (S k) (n / 10) ++ String (JSNumber.digit_char n) "").
    rewrite string_app_assoc. apply IH.
Qed.

Lemma read_year_digit (c : ascii) (s : string) :
  JSDate.is_digit c = true →
  JSDate.read_year (String c s) = JSDate.read_digits 4 0 (String c s).
Proof.
  destruct c as [[] [] [] [] [] [] [] []]; try discriminate; reflexivity.
Qed.

Lemma expect_literal (c : ascii) (rest : string) :
  JSDate.expect c (String c rest) = Some rest.
Proof. unfold JSDate.expect. by rewrite Ascii.eqb_refl. Qed.

Lemma read_year_string (y : Z) (rest : string) :
  Z.abs y < 1000000 →
  JSDate.read_year (JSDate.year_string y ++ rest) = Some (y, rest).
Proof.
  intros Hy. unfold JSDate.year_string.
  destruct ((0 <=? y) && (y <=? 9999)) eqn:Hshort.
  - apply andb_true_iff in Hshort as [H0 H9]. apply Z.leb_le in H0, H9.
    destruct (pad_head 3 y rest) as (c & s & Heq & Hc).
    rewrite Heq, (read_year_digit c s Hc), <- Heq.
    apply read_pad. simpl. lia.
  - rewrite string_app_assoc.
    assert (Hpad : JSDate.read_digits 6 0 (JSDate.pad 6 (Z.abs y) ++ rest)
                   = Some (Z.abs y, rest)).
    { apply read_pad. simpl. lia. }
    destruct (Z.ltb_spec y 0) as [Hneg | Hpos].
    + change ("-" ++ JSDate.pad 6 (Z.abs y) ++ rest)
        with (String "-" (JSDate.pad 6 (Z.abs y) ++ rest)).
      unfold JSDate.read_year. rewrite Hpad. simpl.
      destruct (Z.eqb_spec (Z.abs y) 0) as [? | _]; [lia |].
      repeat f_equal; lia.
    + change ("+" ++ JSDate.pad 6 (Z.abs y) ++ rest)
        with (String "+" (JSDate.pad 6 (Z.abs y) ++ rest)).
      unfold JSDate.read_year. rewrite Hpad. repeat f_equal; lia.
Qed.

#[local] Opaque JSDate.pad JSDate.read_digits JSDate.read_year JSDate.expect
  JSDate.MakeDay.

(** [Date.parse] reads back what [toISOString] prints. *)
Lemma parse_iso_string (t : Z) :
  Z.abs t <= JSDate.maxTime → JSDate.parse_iso (JSDate.iso_string t) = Some t.
Proof.
  intros Ht. unfold JSDate.maxTime, JSDate.iso_string, JSDate.msPerDay in *.
  pose proof (civil_from_days_spec (t / 86400000)) as Hcivil.
  destruct (JSDate.civil_from_days (t / 86400000)) as [[y m] d].
  destruct Hcivil as (Hm & Hd & Hday & Hy).
  pose proof (Z.div_mod t 86400000 ltac:(lia)) as Hsplit.
  pose proof (Z.mod_pos_bound t 86400000 ltac:(lia)) as Hms.
  set (ms := t mod 86400000) in *.
  assert (Hera : -700 <= (t / 86400000 + 719468) / 146097 <= 700).
  { clear -Ht. Z.div_mod_to_equations. lia. }
  unfold JSDate.parse_iso.
  rewrite read_year_string by lia. simpl.
  rewrite expect_literal. simpl.
  rewrite read_pad by (simpl; lia). simpl.
  rewrite expect_literal. simpl.
  rewrite read_pad by (simpl; lia). simpl.
  rewrite expect_literal. simpl.
  rewrite read_pad by (simpl; clear -Hms; Z.div_mod_to_equations; lia). simpl.
  rewrite expect_literal. simpl.
  rewrite read_pad by (simpl; clear -Hms; Z.div_mod_to_equations; lia). simpl.
  rewrite expect_literal. simpl.
  rewrite read_pad by (simpl; clear -Hms; Z.div_mod_to_equations; lia). simpl.
  rewrite expect_literal. simpl.
  rewrite read_pad by (simpl; clear -Hms; Z.div_mod_to_equations; lia). simpl.
  rewrite expect_literal. simpl.
  assert (Hfields : (1 <=? m) && (m <=? 12) && (1 <=? d) && (d <=? 31) = true).
  { repeat (apply andb_true_intro; split); apply Z.leb_le; lia. }
  assert (Hclock : ((ms / 60000) mod 60 <=? 59) && ((ms / 1000) mod 60 <=? 59) = true).
  { apply andb_true_intro; split; apply Z.leb_le;
      clear -Hms; Z.div_mod_to_equations; lia. }
  assert (Hhour : (ms / 3600000 <=? 23) = true).
  { apply Z.leb_le. clear -Hms. Z.div_mod_to_equations. lia. }
  rewrite Hfields, Hclock, Hhour. simpl.
  assert (Htime : JSDate.MakeDay y m d * JSDate.msPerDay
                  + JSDate.MakeTime (ms / 3600000) ((ms / 60000) mod 60)
                      ((ms / 1000) mod 60) (ms mod 1000) = t).
  { rewrite Hday. unfold JSDate.MakeTime, JSDate.msPerDay.
    clear -Hsplit Hms. Z.div_mod_to_equations. lia. }
  rewrite Htime.
  destruct (Z.leb_spec (Z.abs t) JSDate.maxTime) as [_ | Hbig]; [reflexivity |].
  unfold JSDate.maxTime in Hbig. lia.
Qed.

#[local] Transparent JSDate.pad JSDate.read_digits JSDate.read_year JSDate.expect
  JSDate.MakeDay.

(** ** The codec round trip *)

Lemma finite_not_nan (x : float) : is_finite x = true → is_nan x = false.
Proof.
  unfold is_finite. destruct (is_nan x); [discriminate | reflexivity].
Qed.

Lemma finite_not_infinity (x : float) : is_finite x = true → is_infinity x = false.
Proof.
  unfold is_finite. destruct (is_nan x), (is_infinity x); try discriminate; reflexivity.
Qed.

Lemma not_nan_eqb_refl (x : float) : is_nan x = false → (x =? x)%float = true.
Proof. unfold is_nan. by destruct (x =? x)%float. Qed.

(** An integer below 10^21 is read back by [parseInt]. *)
Lemma parseInt_number_read_back (x : float) :
  is_finite x = true → JSNumber.isInteger x = true → (abs x <? 1e21)%float = true →
  (x =? parseInt_number x)%float = true.
Proof.
  intros Hfinite Hint Hrange. unfold parseInt_number.
  rewrite Hint, Hrange, (finite_not_nan x Hfinite), (finite_not_infinity x Hfinite).
  simpl. destruct (is_zero x) eqn:Hzero; [exact Hzero |].
  by apply not_nan_eqb_refl, finite_not_nan.
Qed.

(** Every finite number is read back by [parseFloat]. *)
Lemma parseFloat_number_read_back (x : float) :
  is_finite x = true → (x =? parseFloat_number x)%float = true.
Proof.
  intros Hfinite. unfold parseFloat_number.
  destruct (is_zero x) eqn:Hzero; [exact Hzero |].
  by apply not_nan_eqb_refl, finite_not_nan.
Qed.

(** *** Decoding the nodes that [buildValue] produces *)

Section Decode.
Context `{Host}.

Lemma extract_string (depth : nat) (s : string) :
  extractValue_at (S depth) (JObj [("string", JStr s)]) = Return (JStr s).
Proof. reflexivity. Qed.

Lemma extract_int (depth : nat) (x : float) :
  extractValue_at (S depth) (JObj [("int", JNum x)])
  = Return (JNum (parseInt_number x)).
Proof. reflexivity. Qed.

Lemma extract_double (depth : nat) (x : float) :
  extractValue_at (S depth) (JObj [("double", JNum x)])
  = Return (JNum (parseFloat_number x)).
Proof. reflexivity. Qed.

Lemma extract_boolean (depth : nat) (b : bool) :
  extractValue_at (S depth) (JObj [("boolean", JNum (if b then 1 else 0))])
  = Return (JBool b).
Proof. destruct b; reflexivity. Qed.

Lemma extract_date (depth : nat) (iso : string) :
  extractValue_at (S depth) (JObj [("dateTime.iso8601", JStr iso)])
  = Return (JDate (JSDate.parse iso)).
Proof. reflexivity. Qed.

Lemma extract_array (depth : nat) (nodes : list js) :
  extractValue_at (S depth)
    (JObj [("array", JObj [("data", JObj [("value", JArr nodes)])])])
  = (values ← mapM (extractValue_at depth) nodes; Return (JArr values)).
Proof. reflexivity. Qed.

Lemma extract_struct (depth : nat) (members : list js) :
  extractValue_at (S depth) (JObj [("struct", JObj [("member", JArr members)])])
  = collect_members (extractValue_at depth) members.
Proof. reflexivity. Qed.

Lemma collect_member_step (extract : js → completion js) (result : js)
      (name : string) (node : js) :
  collect_member extract (Return result) (JObj [("name", JStr name); ("value", node)])
  = (v ← extract node; Return (assign result name v)).
Proof. unfold collect_member. simpl. by destruct (extract node). Qed.

Lemma set_prop_fresh (props : list (string * js)) (k : string) (v : js) :
  k ∉ map fst props → set_prop props k v = (props ++ [(k, v)])%list.
Proof.
  induction props as [| [k' v'] props IH]; intros Hfresh; [reflexivity |].
  simpl in *. apply not_elem_of_cons in Hfresh as [Hne Hfresh].
  destruct (String.eqb_spec k' k) as [-> | _]; [done |].
  by rewrite IH.
Qed.

Lemma assign_fresh (props : list (string * js)) (k : string) (v : js) :
  k ≠ "__proto__" → k ∉ map fst props →
  assign (JObj props) k v = JObj (props ++ [(k, v)]).
Proof.
  intros Hk Hfresh. unfold assign.
  destruct (String.eqb_spec k "__proto__") as [? | _]; [done |].
  simpl. by rewrite set_prop_fresh.
Qed.

(** The members of a struct node, decoded one after the other into an
    object that so far holds [acc]. *)
Lemma collect_members_fresh (extract : js → completion js)
      (R : js → js → Prop) (props : list (string * js)) :
  ∀ (members : list js) (acc : list (string * js)),
    Forall2 (λ p member,
               ∃ node decoded,
                 member = JObj [("name", JStr (fst p)); ("value", node)]
                 ∧ extract node = Return decoded ∧ R (snd p) decoded)
            props members →
    NoDup (map fst acc ++ map fst props)%list →
    "__proto__" ∉ map fst props →
    ∃ props',
      foldl (collect_member extract) (Return (JObj acc)) members
      = Return (JObj (acc ++ props'))
      ∧ Forall2 (λ p p', fst p = fst p' ∧ R (snd p) (snd p')) props props'.
Proof.
  induction props as [| [name v] props IH];
    intros members acc Hmembers Hnodup Hproto.
  - apply Forall2_nil_inv_l in Hmembers as ->.
    exists []. split; [by rewrite app_nil_r | constructor].
  - apply Forall2_cons_inv_l in Hmembers
      as (member & members' & (node & decoded & -> & Hnode & HR) & Hrest & ->).
    simpl in Hnodup.
    assert (Hfresh : name ∉ map fst acc).
    { apply NoDup_app in Hnodup as (_ & Hdisjoint & _).
      intros Hin. apply (Hdisjoint name Hin). by left. }
    simpl in Hproto. apply not_elem_of_cons in Hproto as [Hname Hproto].
    destruct (IH members' (acc ++ [(name, decoded)])%list Hrest) as (props' & Hfold & HF).
    { rewrite map_app. simpl. rewrite <- app_assoc. simpl.
      eapply NoDup_Permutation_proper; [| exact Hnodup].
      apply Permutation_app_head. reflexivity. }
    { exact Hproto. }
    exists ((name, decoded) :: props'). split; [| by constructor].
    cbn [foldl fst snd]. rewrite collect_member_step, Hnode. cbn [mbind completion_bind].
    rewrite (assign_fresh acc name decoded) by done.
    rewrite Hfold. by rewrite <- app_assoc.
Qed.
End Decode.

Section RoundTrip.
Context `{Host}.

Lemma reads_back_leaf (v node decoded : js) :
  js_depth v = 0%nat →
  (∀ depth, extractValue_at (S depth) node = Return decoded) →
  decoded_as v decoded →
  reads_back v node.
Proof.
  intros Hleaf Hextract Hdecoded. split; [lia |].
  intros [| depth] Hdepth; [lia |]. eauto.
Qed.

Lemma decode_items (items nodes : list js) (depth : nat) :
  Forall2 reads_back items nodes →
  (foldr (λ i d, Nat.max (js_depth i) d) 0%nat items < depth)%nat →
  ∃ decoded, mapM (extractValue_at depth) nodes = Return decoded
             ∧ Forall2 decoded_as items decoded.
Proof.
  induction 1 as [| i node items nodes [_ Hnode] _ IH]; intros Hdepth.
  - exists []. split; [reflexivity | constructor].
  - simpl in Hdepth.
    destruct (Hnode depth) as (v & Hv & Hdecoded); [lia |].
    destruct IH as (vs & Hvs & Hall); [lia |].
    exists (v :: vs). split; [| by constructor].
    simpl. rewrite Hv. simpl. rewrite Hvs. reflexivity.
Qed.

Lemma items_depth_le (items nodes : list js) :
  Forall2 reads_back items nodes →
  (foldr (λ i d, Nat.max (js_depth i) d) 0 items
   ≤ foldr (λ i d, Nat.max (js_depth i) d) 0 nodes)%nat.
Proof.
  induction 1 as [| i node items nodes [Hle _] _ IH]; simpl; lia.
Qed.

Lemma members_depth_le (props : list (string * js)) (members : list js) :
  Forall2 member_of props members →
  (foldr (λ p d, Nat.max (js_depth (snd p)) d) 0 props
   ≤ foldr (λ i d, Nat.max (js_depth i) d) 0 members)%nat.
Proof.
  induction 1 as [| p member props members (node & -> & Hle & _) _ IH]; simpl; lia.
Qed.

Lemma decode_members (props : list (string * js)) (members : list js) (depth : nat) :
  Forall2 member_of props members →
  NoDup (map fst props) →
  "__proto__" ∉ map fst props →
  (foldr (λ p d, Nat.max (js_depth (snd p)) d) 0%nat props < depth)%nat →
  ∃ props', collect_members (extractValue_at depth) members = Return (JObj props')
            ∧ Forall2 (λ p p', fst p = fst p' ∧ decoded_as (snd p) (snd p'))
                      props props'.
Proof.
  intros Hmembers Hnodup Hproto Hdepth.
  destruct (collect_members_fresh (extractValue_at depth) decoded_as props members [])
    as (props' & Hfold & Hall); [| done | done | by exists props'].
  clear Hnodup Hproto.
  induction Hmembers as [| p member props members (node & -> & _ & Hnode) _ IH].
  - constructor.
  - simpl in Hdepth. constructor; [| apply IH; lia].
    destruct (Hnode depth) as (decoded & Hdecoded & Has); [lia |]. eauto.
Qed.

#[local] Opaque JSDate.iso_string JSDate.parse_iso parseInt_number parseFloat_number.

Lemma buildValue_reads_back (v : js) :
  value_tree v → in_codec_range v = true →
  ∃ node, built_as v node ∧ reads_back v node.
Proof.
  induction v as [| | b | x | s | t | items IH | props IH | proto props _ _]
    using js_ind;
    intros Hvalue Hrange; inversion Hvalue as [| ? Hfinite | | ? Htime | ? Hitems
                                               | ? Hnames Hprops]; subst.
  - (* boolean *)
    eexists. split; [by intros [| depth] Hdepth; [lia |] |].
    apply (reads_back_leaf _ _ (JBool b)); [done | | constructor].
    intros depth. apply extract_boolean.
  - (* number *)
    destruct (JSNumber.isInteger x) eqn:Hint; eexists;
      (split; [intros [| depth] Hdepth; [lia |]; simpl; rewrite Hint; reflexivity |]).
    + apply (reads_back_leaf _ _ (JNum (parseInt_number x))); [done | |].
      * intros depth. apply extract_int.
      * constructor. simpl in Hrange. rewrite Hint in Hrange.
        by apply parseInt_number_read_back.
    + apply (reads_back_leaf _ _ (JNum (parseFloat_number x))); [done | |].
      * intros depth. apply extract_double.
      * constructor. by apply parseFloat_number_read_back.
  - (* string *)
    eexists. split; [by intros [| depth] Hdepth; [lia |] |].
    apply (reads_back_leaf _ _ (JStr s)); [done | | constructor].
    intros depth. apply extract_string.
  - (* date *)
    eexists. split; [by intros [| depth] Hdepth; [lia |] |].
    apply (reads_back_leaf _ _ (JDate (Some t0))); [done | | constructor].
    intros depth. rewrite extract_date. unfold JSDate.parse.
    by rewrite parse_iso_string.
  - (* array *)
    destruct (Forall_exists_Forall2 (λ i node, built_as i node ∧ reads_back i node) items)
      as (nodes & Hnodes).
    { simpl in Hrange. rewrite forallb_forall in Hrange.
      rewrite Forall_forall in IH, Hitems |- *. intros i Hi.
      apply (IH i Hi (Hitems i Hi)). apply Hrange. by apply list_elem_of_In. }
    assert (Hall : Forall2 reads_back items nodes).
    { eapply Forall2_impl; [exact Hnodes |]. by intros ? ? [_ ?]. }
    exists (JObj [("array", JObj [("data", JObj [("value", JArr nodes)])])]). split.
    { intros [| depth] Hdepth; [lia |]. simpl in Hdepth. cbn [buildValue_at].
      rewrite (mapM_Forall2 _ _ nodes); [reflexivity |].
      eapply Forall2_impl_elem; [exact Hnodes |].
      intros i node Hi%items_depth_elem [Hbuilt _]. apply Hbuilt. lia. }
    pose proof (items_depth_le items nodes Hall) as Hle.
    split; [simpl; lia |].
    intros [| depth] Hdepth; [lia |]. simpl in Hdepth.
    destruct (decode_items items nodes depth Hall) as (decoded & Hdecoded & Has);
      [lia |].
    exists (JArr decoded). rewrite extract_array, Hdecoded.
    split; [reflexivity | by constructor].
  - (* struct *)
    destruct (Forall_exists_Forall2
                (λ p member, ∃ node, member = JObj [("name", JStr (fst p)); ("value", node)]
                                     ∧ built_as (snd p) node ∧ reads_back (snd p) node)
                props) as (members & Hmembers).
    { simpl in Hrange. rewrite forallb_forall in Hrange.
      rewrite Forall_forall in IH, Hprops |- *. intros p Hp.
      destruct (IH p Hp (Hprops p Hp)) as (node & Hnode & Hback).
      { specialize (Hrange p). rewrite andb_true_iff in Hrange.
        apply Hrange. by apply list_elem_of_In. }
      exists (JObj [("name", JStr (fst p)); ("value", node)]), node. done. }
    assert (Hall : Forall2 member_of props members).
    { eapply Forall2_impl; [exact Hmembers |].
      intros p member (node & -> & _ & Hback). by exists node. }
    assert (Hproto : "__proto__" ∉ map fst props).
    { simpl in Hrange. rewrite forallb_forall in Hrange.
      intros Hin. apply list_elem_of_In, in_map_iff in Hin as (p & Hname & Hp).
      specialize (Hrange p Hp). rewrite andb_true_iff, negb_true_iff in Hrange.
      destruct Hrange as [Hne _]. rewrite Hname in Hne. discriminate. }
    exists (JObj [("struct", JObj [("member", JArr members)])]). split.
    { intros [| depth] Hdepth; [lia |]. simpl in Hdepth. cbn [buildValue_at].
      unfold build_struct. rewrite (mapM_Forall2 _ _ members); [reflexivity |].
      eapply Forall2_impl_elem; [exact Hmembers |].
      intros p member Hp%props_depth_elem (node & -> & Hbuilt & _).
      rewrite Hbuilt by lia. reflexivity. }
    pose proof (members_depth_le props members Hall) as Hle.
    split; [simpl; lia |].
    intros [| depth] Hdepth; [lia |]. simpl in Hdepth.
    destruct (decode_members props members depth Hall Hnames Hproto)
      as (props' & Hdecoded & Has); [lia |].
    exists (JObj props'). rewrite extract_struct, Hdecoded.
    split; [reflexivity | by constructor].
Qed.

#[local] Transparent JSDate.iso_string JSDate.parse_iso parseInt_number
  parseFloat_number.
End RoundTrip.

(** Within the codec's range the round trip holds: a value tree (strings,
    finite numbers, booleans, valid dates, arrays and structs of such
    values) whose integral numbers are below 10^21, whose structs have no
    member named ["__proto__"] and whose nesting the call stack has room
    for is encoded by [buildValue], and [extractValue] decodes the encoding
    back to it. *)
Theorem codec_round_trip `{Host} (v : js) :
  value_tree v →
  in_codec_range v = true →
  (js_depth v < encode_stack)%nat →
  (js_depth v < decode_stack)%nat →
  ∃ node decoded,
    buildValue v = Return node
    ∧ extractValue node = Return decoded
    ∧ decoded_as v decoded.
Proof.
  intros Hvalue Hrange Hencode Hdecode.
  destruct (buildValue_reads_back v Hvalue Hrange) as (node & Hnode & Hle & Hback).
  destruct (Hback decode_stack Hdecode) as (decoded & Hdecoded & Has).
  exists node, decoded. split; [by apply Hnode | done].
Qed.

Lemma codec_round_trip_witness :
  let v := JObj [("subscriberNumber", JStr "1234567890");
                 ("balance", JNum 10000);
                 ("rate", JNum 1.5);
                 ("active", JBool true);
                 ("expiry", JDate (Some 1704110400123));
                 ("offers", JArr [JNum 7; JObj []])] in
  value_tree v
  ∧ in_codec_range v = true
  ∧ (js_depth v < @encode_stack offline_host)%nat
  ∧ (js_depth v < @decode_stack offline_host)%nat
  ∧ ∃ node decoded,
      @buildValue offline_host v = Return node
      ∧ @extractValue offline_host node = Return decoded
      ∧ decoded_as v decoded.
Proof.
  intros v.
  assert (Hvalue : value_tree v).
  { constructor.
    - apply (bool_decide_unpack _). vm_compute. reflexivity.
    - repeat constructor. unfold JSDate.maxTime. simpl. lia. }
  assert (Hdepth : (js_depth v < 3000)%nat).
  { apply Nat.ltb_lt. vm_compute. reflexivity. }
  split; [exact Hvalue |]. split; [reflexivity |].
  split; [exact Hdepth |]. split; [exact Hdepth |].
  exact (@codec_round_trip offline_host v Hvalue eq_refl Hdepth Hdepth).
Defined.

(** C1 fails on two value trees.  The double 10^21 is encoded as the [int]
    element holding it and decoded by [parseInt], which reads its numeral
    ["1e+21"] up to the [e]: the result is 1.  The struct with one member
    named ["__proto__"] is encoded with that member and decoded by
    [result["__proto__"] = ...], which creates no property: the result is
    the empty struct.  Neither result is the value that was encoded, so the
    round trip does not hold for every value tree. *)
Theorem codec_round_trip_fails `{Host} :
  (value_tree (JNum 1e21)
   ∧ buildValue (JNum 1e21) = Return (JObj [("int", JNum 1e21)])
   ∧ extractValue (JObj [("int", JNum 1e21)]) = Return (JNum 1)
   ∧ ¬ decoded_as (JNum 1e21) (JNum 1))
  ∧ (value_tree (JObj [("__proto__", JStr "x")])
     ∧ buildValue (JObj [("__proto__", JStr "x")])
       = Return (struct_node [("__proto__", string_node "x")])
     ∧ extractValue (struct_node [("__proto__", string_node "x")]) = Return (JObj [])
     ∧ ¬ decoded_as (JObj [("__proto__", JStr "x")]) (JObj []))
  ∧ ¬ (∀ v, value_tree v →
            ∃ node decoded,
              buildValue v = Return node
              ∧ extractValue node = Return decoded
              ∧ decoded_as v decoded).
Proof.
  destruct encode_stack_succ as [depth Hencode].
  destruct decode_stack_succ as [depth' Hdecode].
  unfold buildValue, extractValue. rewrite Hencode, Hdecode.
  assert (Hnumber : ¬ decoded_as (JNum 1e21) (JNum 1)).
  { intros Has. inversion Has as [| ? ? Heq | | | |]; subst.
    vm_compute in Heq. discriminate. }
  split; [| split].
  - split; [by constructor |]. split; [reflexivity |].
    split; [vm_compute; reflexivity | exact Hnumber].
  - split.
    { constructor; [| by repeat constructor].
      apply (bool_decide_unpack _). vm_compute. reflexivity. }
    split; [reflexivity |]. split; [reflexivity |].
    intros Has. inversion Has as [| | | | | ? ? Hall]; subst. inversion Hall.
  - intros Hall.
    destruct (Hall (JNum 1e21)) as (node & decoded & Hnode & Hdecoded & Has);
      [by constructor |].
    assert (Hone : decoded = JNum 1); [| by subst].
    injection Hnode as <-. vm_compute in Hdecoded. by injection Hdecoded.
Qed.

(** The closed forms of [parseInt] and [parseFloat] on Numbers agree with
    reading the numeral of the Number. *)
Example parseInt_number_numeral :
  map parseInt_number sample_numbers
  = map (λ x, parseInt_string (JSNumber.toString x)) sample_numbers.
Proof. vm_compute. reflexivity. Qed.

Example parseFloat_number_numeral :
  map parseFloat_number sample_numbers
  = map (λ x, parseFloat_string (JSNumber.toString x)) sample_numbers.
Proof. vm_compute. reflexivity. Qed.

(** The asymmetry on integral doubles: 4294967296.0 comes back as the
    integer 4294967296, and 10^21, whose numeral is ["1e+21"], as 1. *)
Example integral_double_decoding :
  (node ← @buildValue offline_host (JNum 4294967296); @extractValue offline_host node)
  = Return (JNum 4294967296)
  ∧ (node ← @buildValue offline_host (JNum 1e21); @extractValue offline_host node)
    = Return (JNum 1).
Proof. split; vm_compute; reflexivity. Qed.

(** ** Encoding: where it returns and where it throws *)

Lemma build_struct_Return (build : js → completion js) (props : list (string * js)) :
  Forall (λ p, ∃ node, build (snd p) = Return node) props →
  ∃ node, build_struct build props = Return node.
Proof.
  intros Hprops. unfold build_struct.
  destruct (mapM_Return (λ p, v ← build (snd p);
                              Return (JObj [("name", JStr (fst p)); ("value", v)]))
              (λ _ _, True) props) as (members & -> & _); [| simpl; eauto].
  eapply Forall_impl; [exact Hprops |].
  intros p [node Hnode]. rewrite Hnode. simpl. eauto.
Qed.

Lemma forallb_elem {A : Type} (f : A → bool) (l : list A) (a : A) :
  forallb f l = true → a ∈ l → f a = true.
Proof. rewrite forallb_forall. intros Hall Ha. by apply Hall, list_elem_of_In. Qed.

(** With room for its nesting, a value whose Dates are valid is encoded. *)
Lemma buildValue_at_Return `{Host} (depth : nat) :
  ∀ value, dates_valid value = true → (js_depth value < depth)%nat →
           ∃ node, buildValue_at depth value = Return node.
Proof.
  induction depth as [| depth IH]; intros value Hvalid Hdepth; [lia |].
  assert (Hstruct : ∀ props,
            forallb (λ p, dates_valid (snd p)) props = true →
            (foldr (λ p d, Nat.max (js_depth (snd p)) d) 0 props < depth)%nat →
            ∃ node, build_struct (buildValue_at depth) props = Return node).
  { intros props Hprops Hnesting. apply build_struct_Return.
    apply Forall_forall. intros p Hp. apply IH.
    - exact (forallb_elem (λ p, dates_valid (snd p)) props p Hprops Hp).
    - apply props_depth_elem in Hp. lia. }
  destruct value as [| | b | x | s | t | items | props | proto props];
    simpl in Hvalid, Hdepth; cbn [buildValue_at]; eauto.
  - destruct (JSNumber.isInteger x); eauto.
  - destruct t as [t |]; [simpl; eauto | discriminate].
  - destruct (mapM_Return (buildValue_at depth) (λ _ _, True) items)
      as (values & -> & _); [| simpl; eauto].
    apply Forall_forall. intros i Hi.
    destruct (IH i) as [node Hnode]; [by apply (forallb_elem _ items) | | eauto].
    apply items_depth_elem in Hi. lia.
  - apply Hstruct; [done | lia].
  - destruct (proto_end proto); try discriminate; apply Hstruct; (done || lia).
Qed.

(** What [buildValue] returns, it returns for a value whose Dates are
    valid. *)
Lemma buildValue_at_Return_valid `{Host} (depth : nat) :
  ∀ value node, buildValue_at depth value = Return node → dates_valid value = true.
Proof.
  induction depth as [| depth IH]; intros value node; [discriminate |].
  assert (Hstruct : ∀ props node',
            build_struct (buildValue_at depth) props = Return node' →
            forallb (λ p, dates_valid (snd p)) props = true).
  { intros props node'. unfold build_struct.
    destruct (mapM _ props) as [members | e] eqn:Hmembers; simpl; [| discriminate].
    intros _. apply mapM_Return_inv in Hmembers.
    apply forallb_forall. intros p Hp%list_elem_of_In.
    rewrite Forall_forall in Hmembers. destruct (Hmembers p Hp) as [member Hmember].
    destruct (buildValue_at depth (snd p)) as [v | e] eqn:Hv; [| discriminate].
    by apply (IH (snd p) v). }
  destruct value as [| | b | x | s | t | items | props | proto props];
    cbn [buildValue_at]; simpl; try done.
  - destruct t; [done | discriminate].
  - destruct (mapM (buildValue_at depth) items) as [values | e] eqn:Hvalues; simpl;
      [| discriminate].
    intros _. apply mapM_Return_inv in Hvalues.
    apply forallb_forall. intros i Hi%list_elem_of_In.
    rewrite Forall_forall in Hvalues. destruct (Hvalues i Hi) as [v Hv].
    by apply (IH i v).
  - apply Hstruct.
  - destruct (proto_end proto); try apply Hstruct.
    repeat case_match; discriminate.
Qed.

(** The exceptions of [buildValue]. *)
Lemma buildValue_at_Throw `{Host} (depth : nat) :
  ∀ value e,
    buildValue_at depth value = Throw e →
    e = RangeError "Invalid time value"
    ∨ e = RangeError "Maximum call stack size exceeded"
    ∨ ∃ message, e = TypeError message.
Proof.
  induction depth as [| depth IH]; intros value e; [intros [= <-]; auto |].
  assert (Hstruct : ∀ props,
            build_struct (buildValue_at depth) props = Throw e →
            e = RangeError "Invalid time value"
            ∨ e = RangeError "Maximum call stack size exceeded"
            ∨ ∃ message, e = TypeError message).
  { intros props. unfold build_struct.
    destruct (mapM _ props) as [members | e'] eqn:Hmembers; simpl; [discriminate |].
    intros [= ->]. apply mapM_Throw in Hmembers as (p & _ & Hthrow).
    destruct (buildValue_at depth (snd p)) as [v | e'] eqn:Hv; simpl in Hthrow;
      [discriminate |].
    injection Hthrow as ->. by apply (IH (snd p)). }
  destruct value as [| | b | x | s | t | items | props | proto props];
    cbn [buildValue_at]; simpl; try discriminate.
  - destruct (JSNumber.isInteger x); discriminate.
  - destruct t; [discriminate | intros [= <-]; auto].
  - destruct (mapM (buildValue_at depth) items) as [values | e'] eqn:Hvalues; simpl;
      [discriminate |].
    intros [= ->]. apply mapM_Throw in Hvalues as (i & _ & Hthrow).
    by apply (IH i).
  - apply Hstruct.
  - destruct (proto_end proto); try apply Hstruct.
    repeat case_match; intros [= <-]; eauto.
Qed.





(** ** Fault responses *)

Lemma get_truthy `{Host} (v : js) (k : string) :
  truthy v = true → get v k = Return (chain v [k]).
Proof. destruct v; simpl; intros Hv; try discriminate; reflexivity. Qed.

Lemma get_chain `{Host} (v : js) (k : string) :
  nullish v = false → get v k = Return (chain v [k]).
Proof. by destruct v. Qed.

Lemma get_opt_chain `{Host} (v : js) (k : string) : get_opt v k = Return (chain v [k]).
Proof. by destruct v. Qed.

Lemma get_find_prop `{Host} (v : js) (k : string) :
  nullish v = false → get v k = Return (default JUndefined (find_prop k v)).
Proof. by destruct v. Qed.

Lemma chain_undefined (keys : list string) : chain JUndefined keys = JUndefined.
Proof. induction keys as [| k keys IH]; [reflexivity | exact IH]. Qed.

Lemma chain_cons (v : js) (k : string) (keys : list string) :
  chain v (k :: keys) = chain (chain v [k]) keys.
Proof. reflexivity. Qed.

Lemma chain_truthy (v : js) (k : string) (keys : list string) :
  truthy (chain v (k :: keys)) = true → nullish v = false.
Proof.
  destruct v; try reflexivity; rewrite chain_cons; simpl; rewrite chain_undefined;
    discriminate.
Qed.

(** A fault whose [faultCode] is 0 is reported with [responseCode] -1, not
    0: C2 as stated (the response code is the fault code whenever one is
    present) does not hold. *)
Lemma fault_code_zero_counterexample :
  ¬ (∀ (H : Host) xml (code : Z) (message : string),
       xml_parse xml
       = Return (fault_envelope (struct_node [("faultCode", int_node code);
                                              ("faultString", string_node message)])) →
       parseXmlRpcResponse xml
       = Return {| responseCode := JNum (JSNumber.of_Z code);
                   responseMessage := Some (JStr message);
                   Types.data := None |}).
Proof.
  intros Hc.
  pose (parsed := fault_envelope (struct_node [("faultCode", int_node 0);
                                               ("faultString", string_node "ZERO")])).
  specialize (Hc (scripted_host (Throw (Error "unused")) (Return parsed))
                 "" 0 "ZERO" eq_refl).
  apply (f_equal (λ r, match r with
                       | Return {| responseCode := JNum x |} => is_zero x
                       | _ => false
                       end)) in Hc.
  vm_compute in Hc. discriminate.
Qed.

(** C2 (amended): when the envelope contains a fault element whose value
    decodes to something other than [null], [parseXmlRpcResponse] returns a
    response whose [responseCode] is the [faultCode] property of the decoded
    fault (its own, or one that it inherits from the value of a member named
    ["__proto__"]) when it is present and truthy (not 0, NaN or an empty
    string) and -1 otherwise, and whose [responseMessage] is the
    [faultString] property likewise when it is present and truthy (not
    empty) and ["Unknown fault"] otherwise; with faultCode 102 and
    faultString ["INSUFFICIENT_BALANCE"] these are 102 and that message. *)
Theorem fault_response `{Host} (xml : string) (parsed decoded : js) :
  xml_parse xml = Return parsed →
  truthy (chain parsed ["methodResponse"; "fault"]) = true →
  extractValue (chain parsed ["methodResponse"; "fault"; "value"]) = Return decoded →
  nullish decoded = false →
  parseXmlRpcResponse xml
  = Return {| responseCode :=
                match find_prop "faultCode" decoded with
                | Some code => if truthy code then code else JNum (-1)
                | None => JNum (-1)
                end;
              responseMessage :=
                Some match find_prop "faultString" decoded with
                     | Some message =>
                         if truthy message then message else JStr "Unknown fault"
                     | None => JStr "Unknown fault"
                     end;
              Types.data := None |}
  ∧ (decoded = JObj [("faultCode", JNum 102);
                     ("faultString", JStr "INSUFFICIENT_BALANCE")] →
     parseXmlRpcResponse xml
     = Return {| responseCode := JNum 102;
                 responseMessage := Some (JStr "INSUFFICIENT_BALANCE");
                 Types.data := None |}).
Proof.
  intros Hparse Hfault Hdecoded Hnullish.
  assert (Hmain : parseXmlRpcResponse xml
                  = Return {| responseCode :=
                                js_or (default JUndefined (find_prop "faultCode" decoded))
                                      (JNum (-1));
                              responseMessage :=
                                Some (js_or (default JUndefined
                                               (find_prop "faultString" decoded))
                                            (JStr "Unknown fault"));
                              Types.data := None |}).
  { unfold parseXmlRpcResponse. rewrite Hparse. cbn [mbind completion_bind].
    rewrite (get_chain parsed) by (by eapply chain_truthy).
    cbn [mbind completion_bind].
    change (chain parsed ["methodResponse"; "fault"])
      with (chain (chain parsed ["methodResponse"]) ["fault"]) in Hfault.
    change (chain parsed ["methodResponse"; "fault"; "value"])
      with (chain (chain (chain parsed ["methodResponse"]) ["fault"]) ["value"])
      in Hdecoded.
    set (methodResponse := chain parsed ["methodResponse"]) in *.
    rewrite (get_opt_chain methodResponse "fault"). cbn [mbind completion_bind].
    set (fault := chain methodResponse ["fault"]) in *.
    rewrite Hfault, (get_truthy fault "value" Hfault). cbn [mbind completion_bind].
    rewrite Hdecoded. cbn [mbind completion_bind].
    rewrite !(get_find_prop decoded) by done. reflexivity. }
  split.
  - rewrite Hmain. unfold js_or.
    destruct (find_prop "faultCode" decoded) as [code |],
             (find_prop "faultString" decoded) as [message |]; reflexivity.
  - intros ->. rewrite Hmain. reflexivity.
Qed.

Lemma fault_response_witness :
  let parsed :=
    fault_envelope (struct_node [("faultCode", int_node 102);
                                 ("faultString", string_node "INSUFFICIENT_BALANCE")]) in
  let host := scripted_host (Throw (Error "unused")) (Return parsed) in
  @xml_parse host "<methodResponse/>" = Return parsed
  ∧ truthy (chain parsed ["methodResponse"; "fault"]) = true
  ∧ @extractValue host (chain parsed ["methodResponse"; "fault"; "value"])
    = Return (JObj [("faultCode", JNum 102);
                    ("faultString", JStr "INSUFFICIENT_BALANCE")])
  ∧ nullish (JObj [("faultCode", JNum 102);
                   ("faultString", JStr "INSUFFICIENT_BALANCE")]) = false
  ∧ @parseXmlRpcResponse host "<methodResponse/>"
    = Return {| responseCode := JNum 102;
                responseMessage := Some (JStr "INSUFFICIENT_BALANCE");
                Types.data := None |}.
Proof.
  intros parsed host.
  split; [reflexivity |]. split; [reflexivity |]. split; [reflexivity |].
  split; [reflexivity |].
  exact (proj2 (@fault_response host "<methodResponse/>" parsed _
                  eq_refl eq_refl eq_refl eq_refl) eq_refl).
Defined.

(** A fault code that the decoded fault inherits: the struct of the fault
    has one member, named ["__proto__"], whose value is the struct with
    [faultCode] 5 and [faultString] ["FROM_PROTO"].  The assignment makes
    that struct the prototype of the decoded fault, and the response
    carries its code and its message. *)
Example fault_response_inherited :
  let inner := struct_node [("faultCode", int_node 5);
                            ("faultString", string_node "FROM_PROTO")] in
  let parsed := fault_envelope (struct_node [("__proto__", inner)]) in
  let host := scripted_host (Throw (Error "unused")) (Return parsed) in
  @extractValue host (struct_node [("__proto__", inner)])
  = Return (JObjProto (JObj [("faultCode", JNum 5); ("faultString", JStr "FROM_PROTO")])
                      [])
  ∧ @parseXmlRpcResponse host ""
    = Return {| responseCode := JNum 5;
                responseMessage := Some (JStr "FROM_PROTO");
                Types.data := None |}.
Proof. split; vm_compute; reflexivity. Qed.

(** ** The HTTP exchange *)

(** A response with status 204 and a well-formed body is rejected with
    ["HTTP 204: No Content"]: C5 as stated (every 2xx body is decoded) does
    not hold. *)
Lemma call_status_204_counterexample :
  ¬ (∀ (H : Host) this request body response,
       buildXmlRpcRequest request = Return body →
       http_post (url this) body = Return response →
       200 <= Axios.status response < 300 →
       call this request = parseXmlRpcResponse (Axios.data response)).
Proof.
  intros Hc.
  pose (response := {| Axios.status := 204; Axios.statusText := "No Content";
                       Axios.data := "" |}).
  pose (parsed := JObj [("methodResponse", JObj [("params", JObj [("param",
                    JObj [("value", JObj [("string", JStr "OK")])])])])]).
  specialize (Hc (scripted_host (Return response) (Return parsed))
                 (sample_client "A")
                 {| methodName := "GetBalanceAndDate"; params := [] |}
                 "" response eq_refl eq_refl ltac:(simpl; lia)).
  vm_compute in Hc. discriminate.
Qed.

(** C5 (amended): [call] performs one exchange for a request that it can
    serialize, whatever the response (there is no loop and no second
    [post]: it does not retry).  Any status other than 200 (so every
    non-2xx status, and also 201..299) makes [call] throw
    ["HTTP <status>: <statusText>"].  With status 200 the body is decoded by
    [parseXmlRpcResponse]: [call] throws what the decoding throws, and
    otherwise returns the decoded response, unless the debug line that
    follows cannot render the response code as a string, whose TypeError
    [call] then throws; a response code that is not an object (a number, a
    string) is always rendered. *)
Theorem call_status `{Host} (this : XmlRpcClient.t) (request : UCIPRequest)
        (body : string) (response : Axios.Response) :
  buildXmlRpcRequest request = Return body →
  http_post (url this) body = Return response →
  snd (call_exchanges this request) = [(url this, body)]
  ∧ (Axios.status response ≠ 200 →
     call this request
     = Throw (Error ("HTTP " ++ JSNumber.Z_toString (Axios.status response) ++ ": "
                     ++ Axios.statusText response)))
  ∧ (¬ (200 <= Axios.status response < 300) →
     ∃ message, call this request = Throw (Error message))
  ∧ (Axios.status response = 200 →
     (∀ e, parseXmlRpcResponse (Axios.data response) = Throw e →
           call this request = Throw e)
     ∧ (∀ decoded,
          parseXmlRpcResponse (Axios.data response) = Return decoded →
          (∀ rendering, ToString (responseCode decoded) = Return rendering →
                        call this request = Return decoded)
          ∧ (∀ e, ToString (responseCode decoded) = Throw e →
                  call this request = Throw e)
          ∧ (is_object_or_null (responseCode decoded) = false →
             call this request = Return decoded))).
Proof.
  intros Hbody Hpost. unfold call, call_exchanges. rewrite Hbody. cbn [fst snd].
  rewrite Hpost. cbn [mbind completion_bind]. unfold receive.
  split; [reflexivity |]. split; [| split].
  - intros Hne. destruct (Z.eqb_spec (Axios.status response) 200); [lia | reflexivity].
  - intros Hne. destruct (Z.eqb_spec (Axios.status response) 200); [lia |].
    eexists. reflexivity.
  - intros ->. cbn [Z.eqb Pos.eqb negb]. split.
    + intros e ->. reflexivity.
    + intros decoded ->. cbn [mbind completion_bind].
      split; [| split].
      * intros rendering ->. reflexivity.
      * intros e ->. reflexivity.
      * intros Hprimitive. by destruct (responseCode decoded).
Qed.

Lemma call_status_witness :
  let response := {| Axios.status := 503; Axios.statusText := "Service Unavailable";
                     Axios.data := "" |} in
  let host := scripted_host (Return response) (Return (JObj [])) in
  let request := {| methodName := "Refill"; params := [JStr "1234567890"] |} in
  @buildXmlRpcRequest host request = Return ""
  ∧ @http_post host (url (sample_client "A")) "" = Return response
  ∧ @call host (sample_client "A") request
    = Throw (Error "HTTP 503: Service Unavailable").
Proof.
  intros response host request.
  split; [reflexivity |]. split; [reflexivity |].
  exact (proj1 (proj2 (@call_status host (sample_client "A") request "" response
                         eq_refl eq_refl)) ltac:(discriminate)).
Defined.

(** A response with status 200 whose fault carries, as [faultCode], a
    struct with a member named ["toString"]: the body is decoded, the
    response code is that struct, and the debug line of [call] cannot
    render it; [call] throws the TypeError instead of returning the
    response. *)
Example call_response_code_object :
  let code := struct_node [("toString", int_node 1)] in
  let parsed := fault_envelope (struct_node [("faultCode", code)]) in
  let host :=
    scripted_host
      (Return {| Axios.status := 200; Axios.statusText := "OK"; Axios.data := "" |})
      (Return parsed) in
  let request := {| methodName := "Refill"; params := [] |} in
  @parseXmlRpcResponse host ""
  = Return {| responseCode := JObj [("toString", JNum 1)];
              responseMessage := Some (JStr "Unknown fault");
              Types.data := None |}
  ∧ @call_exchanges host (sample_client "A") request
    = (Throw (TypeError "Cannot convert object to primitive value"),
       [("http://A.air.example:8080/Air", "")]).
Proof. split; vm_compute; reflexivity. Qed.

(** ** Routing *)

(** With the empty string as nodeId and a routing key, [getClient] does not
    look up the client registered under that id: it takes the round-robin
    path and advances the cursor.  C4 as stated (every supplied nodeId wins
    over the routing key) does not hold. *)
Lemma getClient_empty_nodeId_counterexample :
  ¬ (∀ this nodeId afType,
       getClient this (Some nodeId) afType = (client_for this nodeId, this)).
Proof.
  intros Hc. specialize (Hc sample_service "" (Some "k")).
  apply (f_equal (λ r, roundRobinIndexes (snd r) !! "k")) in Hc.
  vm_compute in Hc. discriminate.
Qed.

(** C4 (amended): when a non-empty nodeId is supplied, [getClient] returns
    the client registered under it, or throws ["AIR client not found for
    node: <id>"] when there is none; the routing key is ignored and the
    service (its cursors included) is unchanged.  The empty string is
    treated as an absent nodeId. *)
Theorem getClient_nodeId_precedence (this : AIRService.t) (nodeId : string)
        (afType : option string) :
  nodeId ≠ "" →
  getClient this (Some nodeId) afType
  = (match JSMap.get nodeId (clients this) with
     | Some client => Return client
     | None => Throw (Error ("AIR client not found for node: " ++ nodeId))
     end, this)
  ∧ (∀ afType', getClient this (Some nodeId) afType'
                = getClient this (Some nodeId) afType)
  ∧ getClient this (Some "") afType = getClient this None afType.
Proof.
  intros Hne.
  assert (Hgiven : given (Some nodeId) = Some nodeId).
  { unfold given. destruct (String.eqb_spec nodeId ""); congruence. }
  unfold getClient. rewrite Hgiven. repeat split.
Qed.

Lemma getClient_nodeId_precedence_witness :
  "B" ≠ ""
  ∧ getClient sample_service (Some "B") (Some "k")
    = (Return (sample_client "B"), sample_service).
Proof.
  split; [discriminate |].
  exact (eq_trans
           (proj1 (getClient_nodeId_precedence sample_service "B" (Some "k")
                     ltac:(discriminate)))
           eq_refl).
Defined.

(** ** Round-robin selection *)

Lemma succ_div_mod (m L : nat) :
  L ≠ 0%nat →
  (S (m mod L) < L ∧ S m / L = m / L ∧ S m mod L = S (m mod L))%nat
  ∨ (S (m mod L) = L ∧ S m / L = S (m / L) ∧ S m mod L = 0)%nat.
Proof.
  intros HL.
  pose proof (Nat.div_mod_eq m L) as Hm.
  pose proof (Nat.mod_upper_bound m L HL) as Hr.
  destruct (decide (S (m mod L) < L)%nat) as [Hlt | Hge].
  - left. split; [done |].
    assert (Heq : S m = (L * (m / L) + S (m mod L))%nat) by lia.
    split.
    + symmetry. eapply Nat.div_unique; [| exact Heq]. lia.
    + symmetry. eapply Nat.mod_unique; [| exact Heq]. lia.
  - right. split; [lia |].
    assert (Heq : S m = (L * S (m / L) + 0)%nat) by lia.
    split.
    + symmetry. eapply Nat.div_unique; [| exact Heq]. lia.
    + symmetry. eapply Nat.mod_unique; [| exact Heq]. lia.
Qed.

Lemma hits_formula (L j m : nat) :
  (j < L)%nat →
  hits L j m = (m / L + (if decide (j < m mod L)%nat then 1 else 0))%nat.
Proof.
  intros Hj. assert (HL : L ≠ 0%nat) by lia.
  induction m as [| m IH].
  - unfold hits. simpl. rewrite Nat.Div0.div_0_l, Nat.Div0.mod_0_l.
    case_decide; lia.
  - unfold hits in *. rewrite seq_S, filter_app, length_app, IH. simpl.
    destruct (succ_div_mod m L HL) as [(Hlt & -> & ->) | (Hlt & -> & ->)];
      rewrite (filter_cons _ m), filter_nil;
      repeat case_decide; simpl; lia.
Qed.

Lemma hits_window (L j c n : nat) :
  length (filter (λ i, ((c + i) mod L)%nat = j) (seq 0 n)) = (hits L j (c + n) - hits L j c)%nat.
Proof.
  unfold hits. rewrite seq_app, filter_app, length_app.
  replace (seq (0 + c)%nat n) with (map (λ i, c + i)%nat (seq 0 n)).
  2:{ change (map ?f ?l) with (f <$> l). rewrite fmap_add_seq. f_equal. lia. }
  assert (Hmap : ∀ l : list nat,
    length (filter (λ x, (x mod L)%nat = j) (map (λ i, (c + i)%nat) l))
    = length (filter (λ i, ((c + i) mod L)%nat = j) l)).
  { induction l as [| a l IHl]; [done |]. simpl.
    rewrite !filter_cons. repeat case_decide; simpl; try lia; congruence. }
  rewrite Hmap. lia.
Qed.

Lemma visits_fair (L j c n : nat) :
  (j < L)%nat →
  let count := length (filter (λ i, ((c + i) mod L)%nat = j) (seq 0 n)) in
  count = (n / L)%nat ∨ count = ((n + L - 1) / L)%nat.
Proof.
  intros Hj count. assert (HL : L ≠ 0%nat) by lia.
  subst count. rewrite hits_window, !hits_formula by done.
  pose proof (Nat.div_mod_eq c L) as Hc.
  pose proof (Nat.mod_upper_bound c L HL) as Hrc.
  pose proof (Nat.div_mod_eq n L) as Hn.
  pose proof (Nat.mod_upper_bound n L HL) as Hrn.
  set (q1 := (c / L)%nat) in *. set (r1 := (c mod L)%nat) in *.
  set (q := (n / L)%nat) in *. set (r := (n mod L)%nat) in *.
  assert (Hceil : ((n + L - 1) / L)%nat = if decide (r = 0%nat) then q else S q).
  { case_decide.
    - symmetry. apply (Nat.div_unique _ _ _ (L - 1)); lia.
    - symmetry. apply (Nat.div_unique _ _ _ (r - 1)); lia. }
  rewrite Hceil.
  destruct (decide (r1 + r < L)%nat) as [Hlt | Hge].
  - assert (Hdiv : ((c + n) / L)%nat = (q1 + q)%nat).
    { symmetry. apply (Nat.div_unique _ _ _ (r1 + r)); lia. }
    assert (Hmod : ((c + n) mod L)%nat = (r1 + r)%nat).
    { symmetry. apply (Nat.mod_unique _ _ (q1 + q)); lia. }
    rewrite Hdiv, Hmod. repeat case_decide; lia.
  - assert (Hdiv : ((c + n) / L)%nat = S (q1 + q)).
    { symmetry. apply (Nat.div_unique _ _ _ (r1 + r - L)); lia. }
    assert (Hmod : ((c + n) mod L)%nat = (r1 + r - L)%nat).
    { symmetry. apply (Nat.mod_unique _ _ (S (q1 + q))); lia. }
    rewrite Hdiv, Hmod. repeat case_decide; lia.
Qed.

Lemma given_nonempty (s : string) : s ≠ "" → given (Some s) = Some s.
Proof. intros Hs. unfold given. destruct (String.eqb_spec s ""); congruence. Qed.

(** One selection by routing key. *)
Lemma getClient_round_robin (this : AIRService.t) (afType : string)
      (destinations : list RoutingDestination.t) (c : nat)
      (destination : RoutingDestination.t) :
  afType ≠ "" →
  routingTable this !! afType = Some destinations →
  default 0 (roundRobinIndexes this !! afType) = Z.of_nat c →
  destinations !! (c mod length destinations)%nat = Some destination →
  getClient this None (Some afType)
  = (client_for this (RoutingDestination.nodeId destination),
     set_index afType (Z.of_nat (S c mod length destinations)) this).
Proof.
  intros Hkey Htable Hcursor Hdest.
  assert (Hlen : length destinations ≠ 0%nat).
  { destruct destinations; [discriminate | simpl; lia]. }
  unfold getClient. rewrite (given_nonempty afType Hkey). simpl (given None). cbv iota.
  rewrite Htable, Hcursor.
  destruct destinations as [| d0 rest]; [done |].
  set (ds := d0 :: rest) in *.
  rewrite Z.rem_mod_nonneg, <- Nat2Z.inj_mod by lia.
  replace (Z.of_nat c + 1) with (Z.of_nat (S c)) by lia.
  rewrite Z.rem_mod_nonneg, <- Nat2Z.inj_mod by lia.
  unfold at_index.
  destruct (Z.ltb_spec (Z.of_nat (c mod length ds)) 0) as [Hneg | _]; [lia |].
  rewrite Nat2Z.id, Hdest. reflexivity.
Qed.

Lemma select_seq_round_robin (n : nat) :
  ∀ (this : AIRService.t) (afType : string)
    (destinations : list RoutingDestination.t) (c : nat),
  afType ≠ "" →
  routingTable this !! afType = Some destinations →
  destinations ≠ [] →
  default 0 (roundRobinIndexes this !! afType) = Z.of_nat c →
  (∀ i destination,
     (i < n)%nat →
     destinations !! ((c + i) mod length destinations)%nat = Some destination →
     fst (select_seq n this afType) !! i
     = Some (client_for this (RoutingDestination.nodeId destination)))
  ∧ length (fst (select_seq n this afType)) = n
  ∧ clients (snd (select_seq n this afType)) = clients this
  ∧ routingTable (snd (select_seq n this afType)) = routingTable this
  ∧ ((0 < n)%nat →
     roundRobinIndexes (snd (select_seq n this afType)) !! afType
     = Some (Z.of_nat ((c + n) mod length destinations))).
Proof.
  induction n as [| n IH]; intros this afType destinations c Hkey Htable Hne Hcursor.
  - simpl. split; [| split; [| split; [| split]]]; try done; intros; lia.
  - assert (Hlen : length destinations ≠ 0%nat).
    { destruct destinations; [done | simpl; lia]. }
    destruct (lookup_lt_is_Some_2 destinations (c mod length destinations)%nat)
      as [d Hd]; [by apply Nat.mod_upper_bound |].
    simpl.
    rewrite (getClient_round_robin this afType destinations c d Hkey Htable Hcursor Hd).
    set (this1 := set_index afType (Z.of_nat (S c mod length destinations)) this).
    destruct (IH this1 afType destinations (S c mod length destinations)%nat Hkey)
      as (Horder & Hlength & Hclients & Hrouting & Hfinal); try done.
    { subst this1. simpl. by rewrite lookup_insert_eq. }
    destruct (select_seq n this1 afType) as [rest this2] eqn:Hrest. simpl in *.
    assert (Hshift : ∀ i, ((S c mod length destinations + i) mod length destinations
                           = (c + S i) mod length destinations)%nat).
    { intros i. rewrite Nat.Div0.add_mod_idemp_l. f_equal. lia. }
    split; [| split; [| split; [| split]]].
    + intros [| i] destination Hi Hdest.
      * simpl. rewrite Nat.add_0_r in Hdest. congruence.
      * simpl. rewrite <- Hshift in Hdest.
        rewrite (Horder i destination) by (done || lia). reflexivity.
    + by rewrite Hlength.
    + done.
    + done.
    + intros _. destruct n as [| n'].
      * injection Hrest as <- <-. subst this1. simpl.
        rewrite lookup_insert_eq. repeat f_equal; lia.
      * rewrite Hfinal by lia. rewrite Hshift. repeat f_equal; lia.
Qed.

(** C3: with the destinations [A; B; C] configured for the key ["k"] and the
    cursor at 0 (the service initialized with these three nodes, whose
    clients are registered under their ids), seven selections by routing key
    return the clients of A, B, C, A, B, C, A in that order and leave the
    cursor at 1.  In general, [n] selections one after the other over the
    destinations of a key, from cursor [c], visit the positions
    [c, c+1, ...] modulo the length of the list (the [i]-th selection
    returns the client registered for the destination at position
    [(c + i) mod len]), leave the cursor at [(c + n) mod len], and choose
    each position [floor(n/len)] or [ceil(n/len)] times. *)
Theorem round_robin_selection (this : AIRService.t) (afType : string)
        (destinations : list RoutingDestination.t) (c n : nat) :
  afType ≠ "" →
  routingTable this !! afType = Some destinations →
  destinations ≠ [] →
  default 0 (roundRobinIndexes this !! afType) = Z.of_nat c →
  let len := length destinations in
  let chosen (i : nat) := ((c + i) mod len)%nat in
  (∀ i, (i < n)%nat →
        ∃ destination,
          destinations !! chosen i = Some destination
          ∧ fst (select_seq n this afType) !! i
            = Some (client_for this (RoutingDestination.nodeId destination)))
  ∧ ((0 < n)%nat →
     roundRobinIndexes (snd (select_seq n this afType)) !! afType
     = Some (Z.of_nat (chosen n)))
  ∧ (∀ j, (j < len)%nat →
          let count := length (filter (λ i, chosen i = j) (seq 0 n)) in
          count = (n / len)%nat ∨ count = ((n + len - 1) / len)%nat)
  ∧ (clients sample_service = map (λ id, (id, sample_client id)) ["A"; "B"; "C"]
     ∧ routingTable sample_service !! "k" = Some (map sample_destination ["A"; "B"; "C"])
     ∧ fst (select_seq 7 sample_service "k")
       = map (λ id, Return (sample_client id)) ["A"; "B"; "C"; "A"; "B"; "C"; "A"]
     ∧ roundRobinIndexes sample_service !! "k" = Some 0
     ∧ roundRobinIndexes (snd (select_seq 7 sample_service "k")) !! "k" = Some 1).
Proof.
  intros Hkey Htable Hne Hcursor len chosen.
  destruct (select_seq_round_robin n this afType destinations c Hkey Htable Hne Hcursor)
    as (Horder & _ & _ & _ & Hfinal).
  assert (Hlen : len ≠ 0%nat).
  { subst len. destruct destinations; [done | simpl; lia]. }
  split; [| split; [| split]].
  - intros i Hi.
    destruct (lookup_lt_is_Some_2 destinations (chosen i)) as [d Hd];
      [by apply Nat.mod_upper_bound |].
    exists d. split; [done |]. by apply Horder.
  - exact Hfinal.
  - intros j Hj. by apply visits_fair.
  - vm_compute. repeat split.
Qed.

Lemma round_robin_selection_witness :
  "k" ≠ ""
  ∧ routingTable sample_service !! "k"
    = Some [sample_destination "A"; sample_destination "B"; sample_destination "C"]
  ∧ [sample_destination "A"; sample_destination "B"; sample_destination "C"] ≠ []
  ∧ default 0 (roundRobinIndexes sample_service !! "k") = Z.of_nat 0
  ∧ roundRobinIndexes (snd (select_seq 7 sample_service "k")) !! "k" = Some 1.
Proof.
  split; [discriminate |]. split; [reflexivity |].
  split; [discriminate |]. split; [reflexivity |].
  exact (proj1 (proj2 (round_robin_selection sample_service "k"
                         [sample_destination "A"; sample_destination "B";
                          sample_destination "C"] 0 7
                         ltac:(discriminate) eq_refl ltac:(discriminate) eq_refl))
               ltac:(lia)).
Defined.

(** ** Calls before initialization *)

(** C7: while the service is not initialized, [executeRequest] and each of
    the four typed operations throw ["AIR service not initialized"] and
    leave the service, hence every field of its statistics, unchanged. *)
Theorem not_initialized_rejected `{Host} (clock : Clock) (this : AIRService.t) :
  initialized this = false →
  (∀ request nodeId afType,
     executeRequest clock this request nodeId afType
     = (Throw (Error "AIR service not initialized"), this))
  ∧ (∀ request afType,
       getBalance clock this request afType
       = (Throw (Error "AIR service not initialized"), this))
  ∧ (∀ now random request afType,
       refill clock now random this request afType
       = (Throw (Error "AIR service not initialized"), this))
  ∧ (∀ now random request afType,
       updateBalance clock now random this request afType
       = (Throw (Error "AIR service not initialized"), this))
  ∧ (∀ request afType,
       getAccountDetails clock this request afType
       = (Throw (Error "AIR service not initialized"), this))
  ∧ (∀ request nodeId afType,
       getStats (snd (executeRequest clock this request nodeId afType))
       = getStats this).
Proof.
  intros Hinit.
  assert (Hexec : ∀ request nodeId afType,
             executeRequest clock this request nodeId afType
             = (Throw (Error "AIR service not initialized"), this)).
  { intros request nodeId afType. unfold executeRequest. by rewrite Hinit. }
  repeat split; intros; unfold getBalance, refill, updateBalance, getAccountDetails;
    by rewrite Hexec.
Qed.

Lemma not_initialized_rejected_witness :
  initialized (AIRService.new 0) = false
  ∧ @getBalance offline_host sample_clock (AIRService.new 0)
      {| GetBalanceRequest.subscriberNumber := "1234567890";
         GetBalanceRequest.requestedInformationFlags := None |} (Some "k")
    = (Throw (Error "AIR service not initialized"), AIRService.new 0).
Proof.
  split; [reflexivity |].
  apply (@not_initialized_rejected offline_host sample_clock (AIRService.new 0)); reflexivity.
Defined.

(** ** Typed operations *)

(** A caller who supplies [requestedInformationFlags: 0] to
    [getAccountDetails] gets 4294967295 in the request: C8 as stated (the
    supplied value is used whenever one is supplied) does not hold. *)
Lemma getAccountDetails_flags_zero_counterexample :
  ¬ (∀ request v,
       GetAccountDetailsRequest.requestedInformationFlags request = Some v →
       request_param (getAccountDetails_request request) "requestedInformationFlags"
       = JNum v).
Proof.
  intros Hc.
  specialize (Hc {| GetAccountDetailsRequest.subscriberNumber := "1234567890";
                    GetAccountDetailsRequest.requestedInformationFlags := Some 0%float |}
                 0%float eq_refl).
  apply (f_equal (λ v, match v with JNum x => is_zero x | _ => false end)) in Hc.
  vm_compute in Hc. discriminate.
Qed.

(** C8 (amended): [getAccountDetails] passes to [executeRequest] a request
    whose [requestedInformationFlags] is the caller's value when that value
    is truthy (neither 0 nor NaN), and 4294967295 (all 32 bits set) when the
    caller omits it or supplies 0 or NaN. *)
Theorem getAccountDetails_flags `{Host} (clock : Clock) (this : AIRService.t)
        (request : GetAccountDetailsRequest.t) (afType : option string) :
  getAccountDetails clock this request afType
  = executeRequest clock this (getAccountDetails_request request) None afType
  ∧ request_param (getAccountDetails_request request) "requestedInformationFlags"
    = match GetAccountDetailsRequest.requestedInformationFlags request with
      | Some v => if is_zero v || is_nan v then JNum 4294967295 else JNum v
      | None => JNum 4294967295
      end.
Proof.
  split; [reflexivity |].
  destruct request as [number [v |]]; [| reflexivity].
  unfold getAccountDetails_request, request_param. simpl.
  unfold js_or. simpl. by destruct (is_zero v || is_nan v).
Qed.

(** ** Statistics *)

(** C6: [updateStats] sets the average response time to 0.1 times the
    elapsed time plus 0.9 times the previous average (binary64 arithmetic;
    [1 - 0.1] is the double 0.9).  From a fresh service (average 0) an
    elapsed time of 100 gives 10.0 and a following elapsed time of 200
    gives 29.0, whether the calls succeeded or failed. *)
Theorem updateStats_moving_average :
  (∀ success responseTime this,
     averageResponseTime (stats (updateStats success responseTime this))
     = (0.1 * responseTime + 0.9 * averageResponseTime (stats this))%float)
  ∧ (∀ now s1 s2,
       averageResponseTime (stats (updateStats s1 100 (AIRService.new now))) = 10%float
       ∧ averageResponseTime
           (stats (updateStats s2 200 (updateStats s1 100 (AIRService.new now)))) = 29%float).
Proof.
  split.
  - intros success responseTime this. reflexivity.
  - intros now s1 s2. split; reflexivity.
Qed.

(** C9: [shutdown] leaves the statistics as they are: [getStats] returns
    the same snapshot after it as before it, while the client registry and
    the routing table are emptied and the service is marked not ready. *)
Theorem shutdown_keeps_stats (this : AIRService.t) :
  getStats (shutdown this) = getStats this
  ∧ stats (shutdown this) = stats this
  ∧ clients (shutdown this) = []
  ∧ routingTable (shutdown this) = ∅
  ∧ initialized (shutdown this) = false.
Proof. repeat split. Qed.

(** ** End to end *)

(** The end-to-end scenario of the specification: [getBalance] against a
    node that answers with a success struct. *)
Example getBalance_end_to_end :
  let parsed :=
    JObj [("methodResponse", JObj [("params", JObj [("param",
      JObj [("value", struct_node [("subscriberNumber", string_node "1234567890");
                                   ("balance", int_node 10000)])])])])] in
  let host :=
    scripted_host
      (Return {| Axios.status := 200; Axios.statusText := "OK"; Axios.data := "" |})
      (Return parsed) in
  let '(response, service) :=
    @getBalance host sample_clock sample_service
      {| GetBalanceRequest.subscriberNumber := "1234567890";
         GetBalanceRequest.requestedInformationFlags := None |} (Some "k") in
  response
  = Return {| responseCode := JNum 0;
              responseMessage := None;
              Types.data := Some (JObj [("subscriberNumber", JStr "1234567890");
                                        ("balance", JNum 10000)]) |}
  ∧ totalRequests (stats service) = 1
  ∧ successfulRequests (stats service) = 1
  ∧ failedRequests (stats service) = 0.
Proof. vm_compute. repeat split. Qed.

(** * Further properties *)

(** ** The decoder: stack depth and exceptions *)

Lemma lookup_prop_depth (k : string) (props : list (string * js)) (w : js) :
  lookup_prop k props = Some w →
  (js_depth w ≤ foldr (λ p d, Nat.max (js_depth (snd p)) d) 0 props)%nat.
Proof.
  unfold lookup_prop. induction props as [| [k' v'] props IH]; simpl; [discriminate |].
  destruct (String.eqb k' k); simpl.
  - intros [= <-]. lia.
  - intros Hw. specialize (IH Hw). lia.
Qed.

Lemma find_prop_depth (k : string) (v w : js) :
  find_prop k v = Some w → (js_depth w < js_depth v)%nat.
Proof.
  induction v as [| | b | x | s | t | items _ | props _ | proto props IH _]
    using js_ind; simpl; try discriminate.
  - intros Hw%lookup_prop_depth. lia.
  - destruct (lookup_prop k props) as [w' |] eqn:Hown.
    + intros [= <-]. apply lookup_prop_depth in Hown. lia.
    + intros Hw. specialize (IH Hw). lia.
Qed.

Lemma get_depth `{Host} (v w : js) (k : string) :
  get v k = Return w → (js_depth w ≤ js_depth v)%nat.
Proof.
  destruct v as [| | b | x | s | t | items | props | proto props];
    cbn [get]; try discriminate; try (intros [= <-]; simpl; lia).
  - change (lookup_prop k props) with (find_prop k (JObj props)).
    destruct (find_prop k (JObj props)) as [w' |] eqn:Hw; cbn [default]; intros [= <-].
    + apply find_prop_depth in Hw. lia.
    + simpl. lia.
  - destruct (find_prop k (JObjProto proto props)) as [w' |] eqn:Hw; cbn [default];
      intros [= <-].
    + apply find_prop_depth in Hw. lia.
    + simpl. lia.
Qed.

Lemma get_truthy_depth `{Host} (v w : js) (k : string) :
  get v k = Return w → truthy w = true → (js_depth w < js_depth v)%nat.
Proof.
  destruct v as [| | b | x | s | t | items | props | proto props];
    cbn [get]; try discriminate; try (intros [= <-]; discriminate).
  - change (lookup_prop k props) with (find_prop k (JObj props)).
    destruct (find_prop k (JObj props)) as [w' |] eqn:Hw; cbn [default]; intros [= <-].
    + intros _. by apply find_prop_depth in Hw.
    + discriminate.
  - destruct (find_prop k (JObjProto proto props)) as [w' |] eqn:Hw; cbn [default];
      intros [= <-].
    + intros _. by apply find_prop_depth in Hw.
    + discriminate.
Qed.

Lemma as_array_depth (v i : js) : i ∈ as_array v → (js_depth i ≤ js_depth v)%nat.
Proof.
  destruct v; simpl; try (intros ->%list_elem_of_singleton; simpl; lia).
  intros Hi%items_depth_elem. lia.
Qed.

Lemma collect_members_agree `{Host} (f g : js → completion js) (members : list js) :
  (∀ member node, member ∈ members → get member "value" = Return node → f node = g node) →
  collect_members f members = collect_members g members.
Proof.
  unfold collect_members. generalize (@Return js (JObj [])).
  induction members as [| m members IH]; intros acc Hfg; [reflexivity |].
  cbn [foldl]. rewrite IH by (intros; eapply Hfg; [by right | done]).
  f_equal. unfold collect_member. destruct acc as [result | e]; simpl; [| reflexivity].
  destruct (get m "name") as [name | e]; simpl; [| reflexivity].
  destruct (get m "value") as [node | e] eqn:Hnode; simpl; [| reflexivity].
  rewrite (Hfg m node); [reflexivity | by left | done].
Qed.

(** Two stacks with room for the nesting of a node give the same result. *)
Lemma extractValue_at_depth `{Host} (d : nat) :
  ∀ (d' : nat) (node : js),
    (js_depth node < d)%nat → (js_depth node < d')%nat →
    extractValue_at d node = extractValue_at d' node.
Proof.
  induction d as [| d IH]; intros d' node Hd Hd'; [lia |].
  destruct d' as [| d']; [lia |].
  cbn [extractValue_at].
  destruct (negb (truthy node)); [reflexivity |].
  destruct (get node "string") as [s | e]; simpl; [| reflexivity].
  destruct (defined s); [reflexivity |].
  destruct (get node "int") as [i | e]; simpl; [| reflexivity].
  destruct (defined i); [reflexivity |].
  destruct (get node "i4") as [i4 | e]; simpl; [| reflexivity].
  destruct (defined i4); [reflexivity |].
  destruct (get node "double") as [db | e]; simpl; [| reflexivity].
  destruct (defined db); [reflexivity |].
  destruct (get node "boolean") as [b | e]; simpl; [| reflexivity].
  destruct (defined b); [reflexivity |].
  destruct (get node "dateTime.iso8601") as [dt | e]; simpl; [| reflexivity].
  destruct (defined dt); [reflexivity |].
  destruct (get node "array") as [arr | e] eqn:Harr; simpl; [| reflexivity].
  destruct (truthy arr) eqn:Tarr.
  - pose proof (get_truthy_depth _ _ _ Harr Tarr) as Darr.
    destruct (get arr "data") as [data | e] eqn:Hdata; simpl; [| reflexivity].
    destruct (truthy data) eqn:Tdata; simpl; [| reflexivity].
    pose proof (get_truthy_depth _ _ _ Hdata Tdata) as Ddata.
    destruct (get data "value") as [dv | e] eqn:Hdv; simpl; [| reflexivity].
    destruct (truthy dv) eqn:Tdv; simpl; [| reflexivity].
    pose proof (get_truthy_depth _ _ _ Hdv Tdv) as Ddv.
    rewrite (mapM_agree (extractValue_at d) (extractValue_at d')); [reflexivity |].
    intros item Hitem%as_array_depth. apply IH; lia.
  - destruct (get node "struct") as [st | e] eqn:Hst; simpl; [| reflexivity].
    destruct (truthy st) eqn:Tst; [| reflexivity].
    pose proof (get_truthy_depth _ _ _ Hst Tst) as Dst.
    destruct (get st "member") as [member | e] eqn:Hmember; simpl; [| reflexivity].
    pose proof (get_depth _ _ _ Hmember) as Dmember.
    apply collect_members_agree.
    intros m node' Hm%as_array_depth Hnode%get_depth. apply IH; lia.
Qed.

Lemma extractValue_at_enough `{Host} (depth : nat) (node : js) :
  (js_depth node < depth)%nat → (js_depth node < decode_stack)%nat →
  extractValue_at depth node = extractValue node.
Proof. intros Hdepth Hstack. unfold extractValue. by apply extractValue_at_depth. Qed.

Lemma get_throws `{Host} (v : js) (k : string) (e : exn) :
  get v k = Throw e → ∃ message, e = TypeError message.
Proof. destruct v; simpl; try discriminate; intros [= <-]; eauto. Qed.

Lemma plain_lookup (k : string) (props : list (string * js)) (w : js) :
  forallb (λ p, plain (snd p)) props = true → lookup_prop k props = Some w →
  plain w = true.
Proof.
  unfold lookup_prop. induction props as [| [k' v'] props IH]; simpl; [discriminate |].
  intros [Hv Hprops]%andb_true_iff. destruct (String.eqb k' k); simpl.
  - by intros [= <-].
  - by apply IH.
Qed.

Lemma plain_get `{Host} (v w : js) (k : string) :
  plain v = true → get v k = Return w → plain w = true.
Proof.
  destruct v as [| | b | x | s | t | items | props | proto props];
    cbn [get]; try discriminate; try (by intros _ [= <-]).
  intros Hprops. destruct (lookup_prop k props) as [w' |] eqn:Hw; simpl; intros [= <-].
  - by eapply plain_lookup.
  - reflexivity.
Qed.

Lemma plain_as_array (v i : js) : plain v = true → i ∈ as_array v → plain i = true.
Proof.
  destruct v; simpl; try (by intros Hv ->%list_elem_of_singleton).
  intros Hitems Hi. by apply (forallb_elem plain items).
Qed.

Lemma ToString_throws `{Host} (v : js) (e : exn) :
  plain v = true → ToString v = Throw e → ∃ message, e = TypeError message.
Proof.
  induction v as [| | b | x | s | t | items IH | props IH | proto props _ _]
    using js_ind; simpl; try discriminate.
  - destruct t; discriminate.
  - intros Hitems.
    destruct (mapM _ items) as [parts | e'] eqn:Hparts; simpl; [discriminate |].
    intros [= ->]. apply mapM_Throw in Hparts as (i & Hi & Hthrow).
    rewrite Forall_forall in IH.
    pose proof (forallb_elem plain items i Hitems Hi) as Hplain.
    destruct i; try discriminate; eapply IH; eauto.
  - intros _. destruct (lookup_prop "toString" props); [| discriminate].
    intros [= <-]. eauto.
Qed.

Lemma parseInt_throws `{Host} (v : js) (e : exn) :
  plain v = true → parseInt v = Throw e → ∃ message, e = TypeError message.
Proof.
  intros Hplain. unfold parseInt. destruct v; try discriminate;
    (destruct (ToString _) eqn:Hs; simpl; [discriminate |];
     intros [= ->]; by apply ToString_throws in Hs).
Qed.

Lemma parseFloat_throws `{Host} (v : js) (e : exn) :
  plain v = true → parseFloat v = Throw e → ∃ message, e = TypeError message.
Proof.
  intros Hplain. unfold parseFloat. destruct v; try discriminate;
    (destruct (ToString _) eqn:Hs; simpl; [discriminate |];
     intros [= ->]; by apply ToString_throws in Hs).
Qed.

Lemma new_Date_throws `{Host} (v : js) (e : exn) :
  plain v = true → new_Date v = Throw e → ∃ message, e = TypeError message.
Proof.
  intros Hplain. unfold new_Date. destruct v; try discriminate;
    (destruct (ToString _) eqn:Hs; simpl; [discriminate |];
     intros [= ->]; by apply ToString_throws in Hs).
Qed.

Lemma collect_members_throws `{Host} (extract : js → completion js)
      (P : exn → Prop) (members : list js) (e : exn) :
  (∀ message, P (TypeError message)) →
  (∀ member, member ∈ members → plain member = true) →
  (∀ member node e', member ∈ members → get member "value" = Return node →
                     extract node = Throw e' → P e') →
  collect_members extract members = Throw e → P e.
Proof.
  intros HP. unfold collect_members.
  assert (Hacc : ∀ e', @Return js (JObj []) = Throw e' → P e') by discriminate.
  revert Hacc. generalize (@Return js (JObj [])).
  induction members as [| m members IH]; intros acc Hacc Hplain Hextract; cbn [foldl];
    [apply Hacc |].
  apply IH; [| intros; apply Hplain; by right
             | intros; eapply Hextract; [by right | done | done]].
  intros e'. unfold collect_member.
  destruct acc as [result | e0]; simpl; [| apply Hacc].
  destruct (get m "name") as [name | e1] eqn:Hname; simpl;
    [| intros [= <-]; apply get_throws in Hname as [? ->]; apply HP].
  destruct (get m "value") as [node | e1] eqn:Hnode; simpl;
    [| intros [= <-]; apply get_throws in Hnode as [? ->]; apply HP].
  destruct (extract node) as [v | e1] eqn:Hv; simpl;
    [| intros [= <-]; eapply Hextract; [by left | done | done]].
  destruct (ToString name) as [key | e1] eqn:Hkey; simpl; [discriminate |].
  intros [= <-]. apply ToString_throws in Hkey as [? ->]; [apply HP |].
  eapply plain_get; [| exact Hname]. apply Hplain. by left.
Qed.

(** What [extractValue] throws on a node as the XML parser delivers it: a
    TypeError, or the RangeError of the engine when the node is nested as
    deeply as the stack has room for. *)
Lemma extractValue_at_throws `{Host} (d : nat) :
  ∀ (node : js) (e : exn),
    plain node = true →
    extractValue_at d node = Throw e →
    (∃ message, e = TypeError message)
    ∨ (e = RangeError "Maximum call stack size exceeded" ∧ (d ≤ js_depth node)%nat).
Proof.
  induction d as [| d IH]; intros node e Hplain; [intros [= <-]; right; split; [done | lia] |].
  cbn [extractValue_at].
  destruct (negb (truthy node)); [discriminate |].
  destruct (get node "string") as [s | e0] eqn:Hs; simpl;
    [| intros [= <-]; left; by apply get_throws in Hs].
  destruct (defined s); [discriminate |].
  destruct (get node "int") as [i | e0] eqn:Hi; simpl;
    [| intros [= <-]; left; by apply get_throws in Hi].
  destruct (defined i).
  { destruct (parseInt i) eqn:Hp; simpl; [discriminate |].
    intros [= <-]. left. apply parseInt_throws in Hp; [done | by eapply plain_get]. }
  destruct (get node "i4") as [i4 | e0] eqn:Hi4; simpl;
    [| intros [= <-]; left; by apply get_throws in Hi4].
  destruct (defined i4).
  { destruct (parseInt i4) eqn:Hp; simpl; [discriminate |].
    intros [= <-]. left. apply parseInt_throws in Hp; [done | by eapply plain_get]. }
  destruct (get node "double") as [db | e0] eqn:Hdb; simpl;
    [| intros [= <-]; left; by apply get_throws in Hdb].
  destruct (defined db).
  { destruct (parseFloat db) eqn:Hp; simpl; [discriminate |].
    intros [= <-]. left. apply parseFloat_throws in Hp; [done | by eapply plain_get]. }
  destruct (get node "boolean") as [b | e0] eqn:Hb; simpl;
    [| intros [= <-]; left; by apply get_throws in Hb].
  destruct (defined b); [discriminate |].
  destruct (get node "dateTime.iso8601") as [dt | e0] eqn:Hdt; simpl;
    [| intros [= <-]; left; by apply get_throws in Hdt].
  destruct (defined dt).
  { destruct (new_Date dt) eqn:Hp; simpl; [discriminate |].
    intros [= <-]. left. apply new_Date_throws in Hp; [done | by eapply plain_get]. }
  destruct (get node "array") as [arr | e0] eqn:Harr; simpl;
    [| intros [= <-]; left; by apply get_throws in Harr].
  destruct (truthy arr) eqn:Tarr.
  - pose proof (get_truthy_depth _ _ _ Harr Tarr) as Darr.
    pose proof (plain_get _ _ _ Hplain Harr) as Parr.
    destruct (get arr "data") as [data | e0] eqn:Hdata; simpl;
      [| intros [= <-]; left; by apply get_throws in Hdata].
    destruct (truthy data) eqn:Tdata; simpl; [| discriminate].
    pose proof (get_truthy_depth _ _ _ Hdata Tdata) as Ddata.
    pose proof (plain_get _ _ _ Parr Hdata) as Pdata.
    destruct (get data "value") as [dv | e0] eqn:Hdv; simpl;
      [| intros [= <-]; left; by apply get_throws in Hdv].
    destruct (truthy dv) eqn:Tdv; simpl; [| discriminate].
    pose proof (get_truthy_depth _ _ _ Hdv Tdv) as Ddv.
    pose proof (plain_get _ _ _ Pdata Hdv) as Pdv.
    destruct (mapM _ (as_array dv)) as [values | e0] eqn:Hvalues; simpl;
      [discriminate |].
    intros [= <-]. apply mapM_Throw in Hvalues as (item & Hitem & Hthrow).
    pose proof (plain_as_array _ _ Pdv Hitem) as Pitem.
    apply as_array_depth in Hitem.
    destruct (IH item e0 Pitem Hthrow) as [? | [-> ?]]; [by left |].
    right. split; [done | lia].
  - destruct (get node "struct") as [st | e0] eqn:Hst; simpl;
      [| intros [= <-]; left; by apply get_throws in Hst].
    destruct (truthy st) eqn:Tst; [| discriminate].
    pose proof (get_truthy_depth _ _ _ Hst Tst) as Dst.
    pose proof (plain_get _ _ _ Hplain Hst) as Pst.
    destruct (get st "member") as [member | e0] eqn:Hmember; simpl;
      [| intros [= <-]; left; by apply get_throws in Hmember].
    pose proof (get_depth _ _ _ Hmember) as Dmember.
    pose proof (plain_get _ _ _ Pst Hmember) as Pmember.
    intros Hthrow.
    apply (collect_members_throws (extractValue_at d)
             (λ e, (∃ message, e = TypeError message)
                   ∨ (e = RangeError "Maximum call stack size exceeded"
                      ∧ (S d ≤ js_depth node)%nat))
             (as_array member) e); [| | | exact Hthrow].
    + intros message. left. eauto.
    + intros m Hm. by apply (plain_as_array member).
    + intros m node' e' Hm Hnode Hthrow'.
      pose proof (plain_get _ _ _ (plain_as_array _ _ Pmember Hm) Hnode) as Pnode.
      apply as_array_depth in Hm. apply get_depth in Hnode.
      destruct (IH node' e' Pnode Hthrow') as [? | [-> ?]]; [by left |].
      right. split; [done | lia].
Qed.

Lemma extractValue_at_nested `{Host} (depth : nat) (node : js) :
  extractValue_at depth (nested_node depth node)
  = Throw (RangeError "Maximum call stack size exceeded").
Proof.
  induction depth as [| depth IH]; [reflexivity |].
  cbn [nested_node]. unfold array_node. rewrite extract_array. simpl. by rewrite IH.
Qed.

(** X2: on a node as the XML parser delivers it (no object whose
    prototype was replaced), [extractValue] fails only with a TypeError (a
    member that is [null] or [undefined], or a member name, [int], [double]
    or date content that cannot be converted to a primitive), or, when the
    node is nested as deeply as the call stack has room for, with the
    RangeError of the engine; a node with room to spare throws nothing but
    a TypeError.  Arrays nested as deeply as the stack has room for do
    exhaust it. *)
Theorem extractValue_throws_TypeError `{Host} (node : js) (e : exn) :
  plain node = true →
  extractValue node = Throw e →
  ((∃ message, e = TypeError message)
   ∨ (e = RangeError "Maximum call stack size exceeded"
      ∧ (decode_stack ≤ js_depth node)%nat))
  ∧ ((js_depth node < decode_stack)%nat → ∃ message, e = TypeError message)
  ∧ extractValue (nested_node decode_stack node)
    = Throw (RangeError "Maximum call stack size exceeded").
Proof.
  intros Hplain Hthrow.
  pose proof (extractValue_at_throws decode_stack node e Hplain Hthrow) as Hcases.
  split; [exact Hcases |]. split; [| apply extractValue_at_nested].
  intros Hdepth. destruct Hcases as [? | [_ ?]]; [done | lia].
Qed.

Lemma extractValue_throws_TypeError_witness :
  let node := array_node [JObj [("struct", JObj [])]] in
  plain node = true
  ∧ @extractValue offline_host node
    = Throw (TypeError "Cannot read properties of undefined (reading 'name')")
  ∧ ∃ message,
      TypeError "Cannot read properties of undefined (reading 'name')"
      = TypeError message.
Proof.
  intros node.
  assert (Hthrow : @extractValue offline_host node
                   = Throw (TypeError "Cannot read properties of undefined (reading 'name')"))
    by (vm_compute; reflexivity).
  split; [reflexivity |]. split; [exact Hthrow |].
  apply (proj1 (proj2 (@extractValue_throws_TypeError offline_host node _ eq_refl Hthrow))).
  apply Nat.ltb_lt. vm_compute. reflexivity.
Defined.

(** Three arrays, one inside the other, on a stack with room for two
    nested calls: decoding and encoding throw the RangeError of the
    engine. *)
Example stack_exhausted :
  let host := shallow_host 0 (Throw (Error "unused")) (Return (JObj [])) in
  @extractValue host (nested_node 3 (string_node "deep"))
  = Throw (RangeError "Maximum call stack size exceeded")
  ∧ @buildValue host (nested 3 (JStr "deep"))
    = Throw (RangeError "Maximum call stack size exceeded")
  ∧ @extractValue host (nested_node 1 (string_node "deep")) = Return (JArr [JStr "deep"])
  ∧ @buildValue host (nested 1 (JStr "deep")) = Return (array_node [string_node "deep"]).
Proof. repeat split. Qed.

(** ** The encoder and its composition with the decoder *)

(** With room for the nesting of the value, the stack is not exhausted. *)
Lemma buildValue_at_Throw_enough `{Host} (depth : nat) :
  ∀ value e,
    (js_depth value < depth)%nat →
    buildValue_at depth value = Throw e →
    e = RangeError "Invalid time value" ∨ ∃ message, e = TypeError message.
Proof.
  induction depth as [| depth IH]; intros value e Hdepth; [lia |].
  assert (Hstruct : ∀ props,
            (foldr (λ p d, Nat.max (js_depth (snd p)) d) 0 props < depth)%nat →
            build_struct (buildValue_at depth) props = Throw e →
            e = RangeError "Invalid time value" ∨ ∃ message, e = TypeError message).
  { intros props Hnesting. unfold build_struct.
    destruct (mapM _ props) as [members | e'] eqn:Hmembers; simpl; [discriminate |].
    intros [= ->]. apply mapM_Throw in Hmembers as (p & Hp & Hthrow).
    destruct (buildValue_at depth (snd p)) as [v | e'] eqn:Hv; simpl in Hthrow;
      [discriminate |].
    injection Hthrow as ->. apply (IH (snd p)); [| done].
    apply props_depth_elem in Hp. lia. }
  destruct value as [| | b | x | s | t | items | props | proto props];
    cbn [buildValue_at]; simpl in Hdepth |- *; try discriminate.
  - destruct (JSNumber.isInteger x); discriminate.
  - destruct t; [discriminate | intros [= <-]; auto].
  - destruct (mapM (buildValue_at depth) items) as [values | e'] eqn:Hvalues; simpl;
      [discriminate |].
    intros [= ->]. apply mapM_Throw in Hvalues as (i & Hi & Hthrow).
    apply (IH i); [| done]. apply items_depth_elem in Hi. lia.
  - apply Hstruct. lia.
  - destruct (proto_end proto); try (apply Hstruct; lia).
    repeat case_match; intros [= <-]; eauto.
Qed.

(** X3: on a value whose nesting the call stack has room for,
    [buildValue] returns a wire element exactly when every Date in the
    value is valid and no object in it inherits from a Date; otherwise it
    throws the RangeError of [toISOString] on the Invalid Date, or the
    TypeError of [toISOString] on the object that is not a Date, and
    nothing else. *)
Theorem buildValue_throws_iff `{Host} (value : js) :
  (js_depth value < encode_stack)%nat →
  (dates_valid value = true ↔ ∃ node, buildValue value = Return node)
  ∧ (dates_valid value = false ↔ ∃ e, buildValue value = Throw e)
  ∧ (∀ e, buildValue value = Throw e →
          e = RangeError "Invalid time value" ∨ ∃ message, e = TypeError message).
Proof.
  intros Hdepth.
  assert (Hreturn : dates_valid value = true ↔ ∃ node, buildValue value = Return node).
  { split; [intros Hvalid; by apply buildValue_at_Return |].
    intros [node Hnode]. by apply buildValue_at_Return_valid in Hnode. }
  split; [exact Hreturn |]. split.
  - split.
    + intros Hinvalid. destruct (buildValue value) as [node | e] eqn:Hbuild; [| eauto].
      assert (dates_valid value = true) by (apply Hreturn; eauto). congruence.
    + intros [e He]. destruct (dates_valid value) eqn:Hvalid; [| done].
      destruct (proj1 Hreturn eq_refl) as [node Hnode]. congruence.
  - intros e. by apply buildValue_at_Throw_enough.
Qed.

Lemma buildValue_throws_iff_witness :
  let value := JObj [("expiry", JDate None)] in
  (js_depth value < @encode_stack offline_host)%nat
  ∧ dates_valid value = false
  ∧ @buildValue offline_host value = Throw (RangeError "Invalid time value")
  ∧ ∃ e, @buildValue offline_host value = Throw e.
Proof.
  intros value.
  assert (Hdepth : (js_depth value < @encode_stack offline_host)%nat).
  { apply Nat.ltb_lt. vm_compute. reflexivity. }
  split; [exact Hdepth |]. split; [reflexivity |]. split; [reflexivity |].
  exact (proj1 (proj1 (proj2 (@buildValue_throws_iff offline_host value Hdepth))) eq_refl).
Defined.

Lemma collect_members_Return `{Host} (extract : js → completion js)
      (members : list js) :
  Forall (λ member, ∃ name node decoded,
            member = JObj [("name", JStr name); ("value", node)]
            ∧ extract node = Return decoded) members →
  ∃ result, collect_members extract members = Return result.
Proof.
  intros Hmembers. unfold collect_members. generalize (JObj []).
  induction Hmembers as [| m members (name & node & decoded & -> & Hnode) _ IH];
    intros acc; [by exists acc |].
  cbn [foldl]. rewrite collect_member_step, Hnode. cbn [mbind completion_bind]. apply IH.
Qed.

(** With room for the nesting of a value whose Dates are valid, the value
    is encoded, and the encoding is decoded on any stack with that room. *)
Lemma encode_decode_at `{Host} (depth : nat) :
  ∀ depth' value,
    dates_valid value = true →
    (js_depth value < depth)%nat → (js_depth value < depth')%nat →
    ∃ node decoded, buildValue_at depth value = Return node
                    ∧ extractValue_at depth' node = Return decoded.
Proof.
  induction depth as [| depth IH]; intros depth' value Hvalid Hdepth Hdepth'; [lia |].
  destruct depth' as [| depth']; [lia |].
  assert (Hstruct : ∀ props,
            forallb (λ p, dates_valid (snd p)) props = true →
            (foldr (λ p d, Nat.max (js_depth (snd p)) d) 0 props < depth)%nat →
            (foldr (λ p d, Nat.max (js_depth (snd p)) d) 0 props < depth')%nat →
            ∃ node decoded,
              build_struct (buildValue_at depth) props = Return node
              ∧ extractValue_at (S depth') node = Return decoded).
  { intros props Hprops Hnesting Hnesting'.
    destruct (Forall_exists_Forall2
                (λ p member, ∃ node decoded,
                   member = JObj [("name", JStr (fst p)); ("value", node)]
                   ∧ buildValue_at depth (snd p) = Return node
                   ∧ extractValue_at depth' node = Return decoded) props)
      as (members & Hmembers).
    { apply Forall_forall. intros p Hp.
      pose proof (props_depth_elem props p Hp) as Hle.
      destruct (IH depth' (snd p)) as (node & decoded & Hnode & Hdecoded);
        [| lia | lia | eauto 8].
      exact (forallb_elem (λ p, dates_valid (snd p)) props p Hprops Hp). }
    destruct (collect_members_Return (extractValue_at depth') members) as [result Hresult].
    { eapply Forall2_Forall_r; [exact Hmembers |]. apply Forall_true.
      intros p member (node & decoded & -> & _ & Hdecoded). eauto 8. }
    exists (JObj [("struct", JObj [("member", JArr members)])]), result.
    split; [| by rewrite extract_struct].
    unfold build_struct. rewrite (mapM_Forall2 _ _ members); [reflexivity |].
    eapply Forall2_impl; [exact Hmembers |].
    intros p member (node & decoded & -> & -> & _). reflexivity. }
  destruct value as [| | b | x | s | t | items | props | proto props];
    simpl in Hvalid, Hdepth, Hdepth'; cbn [buildValue_at].
  - by eexists _, _.
  - by eexists _, _.
  - eexists _, _. split; [reflexivity |]. apply extract_boolean.
  - destruct (JSNumber.isInteger x); by eexists _, _.
  - by eexists _, _.
  - destruct t as [t |]; [| discriminate]. by eexists _, _.
  - destruct (Forall_exists_Forall2
                (λ i node, buildValue_at depth i = Return node
                           ∧ ∃ decoded, extractValue_at depth' node = Return decoded)
                items) as (nodes & Hnodes).
    { apply Forall_forall. intros i Hi.
      pose proof (items_depth_elem items i Hi) as Hle.
      destruct (IH depth' i) as (node & decoded & Hnode & Hdecoded);
        [by apply (forallb_elem _ items) | lia | lia | eauto]. }
    destruct (mapM_Return (extractValue_at depth') (λ _ _, True) nodes)
      as (values & Hvalues & _).
    { eapply Forall2_Forall_r; [exact Hnodes |]. apply Forall_true.
      intros i node [_ [decoded Hdecoded]]. eauto. }
    exists (JObj [("array", JObj [("data", JObj [("value", JArr nodes)])])]), (JArr values).
    split; [| by rewrite extract_array, Hvalues].
    rewrite (mapM_Forall2 _ _ nodes); [reflexivity |].
    eapply Forall2_impl; [exact Hnodes |]. by intros i node [? _].
  - apply Hstruct; [done | lia | lia].
  - destruct (proto_end proto); try discriminate; apply Hstruct; (done || lia).
Qed.

(** X4: whatever [buildValue] returns, [extractValue] decodes without
    throwing: for every value without an Invalid Date and without an object
    that inherits from a Date (also [null], [undefined], NaN, numbers of
    any size and any member names), whose nesting the call stack has room
    for in [buildValue] and in [extractValue], the encoding exists and
    decoding it returns a value. *)
Theorem encoding_always_decodes `{Host} (value : js) :
  dates_valid value = true →
  (js_depth value < encode_stack)%nat →
  (js_depth value < decode_stack)%nat →
  ∃ node decoded, buildValue value = Return node ∧ extractValue node = Return decoded.
Proof. apply encode_decode_at. Qed.

Lemma encoding_always_decodes_witness :
  let value := JArr [JNull; JNum nan; JObj [("__proto__", JNum 1e21)]] in
  dates_valid value = true
  ∧ (js_depth value < @encode_stack offline_host)%nat
  ∧ (js_depth value < @decode_stack offline_host)%nat
  ∧ ∃ node decoded,
      @buildValue offline_host value = Return node
      ∧ @extractValue offline_host node = Return decoded.
Proof.
  intros value.
  assert (Hdepth : (js_depth value < 3000)%nat).
  { apply Nat.ltb_lt. vm_compute. reflexivity. }
  split; [reflexivity |]. split; [exact Hdepth |]. split; [exact Hdepth |].
  exact (@encoding_always_decodes offline_host value eq_refl Hdepth Hdepth).
Defined.

(** ** Collapsed lists and repeated member names *)

Lemma extract_array_value `{Host} (depth : nat) (dv : js) :
  extractValue_at (S depth) (JObj [("array", JObj [("data", JObj [("value", dv)])])])
  = if truthy dv
    then values ← mapM (extractValue_at depth) (as_array dv); Return (JArr values)
    else Return (JArr []).
Proof. cbn [extractValue_at]. simpl. by destruct (truthy dv). Qed.

Lemma extract_struct_member `{Host} (depth : nat) (member : js) :
  extractValue_at (S depth) (JObj [("struct", JObj [("member", member)])])
  = collect_members (extractValue_at depth) (as_array member).
Proof. reflexivity. Qed.

(** X5: the decoder accepts the XML parser's collapse of one-element
    lists.  An array whose [data.value] is a single truthy node that is not
    an array decodes as the array of that one node, and a struct whose
    [member] is a single object decodes as the struct of that one member;
    an array whose [data.value] is falsy decodes as the empty array. *)
Theorem single_element_collapse `{Host} (node : js) :
  (∀ items, node ≠ JArr items) →
  (truthy node = true →
   extractValue (JObj [("array", JObj [("data", JObj [("value", node)])])])
   = extractValue (JObj [("array", JObj [("data", JObj [("value", JArr [node])])])]))
  ∧ (truthy node = false →
     extractValue (JObj [("array", JObj [("data", JObj [("value", node)])])])
     = Return (JArr []))
  ∧ extractValue (JObj [("struct", JObj [("member", node)])])
    = extractValue (JObj [("struct", JObj [("member", JArr [node])])]).
Proof.
  intros Hnode.
  assert (Hsingle : as_array node = [node]).
  { destruct node; try reflexivity. by destruct (Hnode items). }
  destruct decode_stack_succ as [depth Hstack]. unfold extractValue. rewrite Hstack.
  split; [| split].
  - intros Htruthy. rewrite !extract_array_value, Htruthy, Hsingle. reflexivity.
  - intros Hfalsy. by rewrite extract_array_value, Hfalsy.
  - by rewrite !extract_struct_member, Hsingle.
Qed.

Lemma single_element_collapse_witness :
  (∀ items, int_node 5 ≠ JArr items)
  ∧ truthy (int_node 5) = true
  ∧ @extractValue offline_host
      (JObj [("array", JObj [("data", JObj [("value", int_node 5)])])])
    = @extractValue offline_host
        (JObj [("array", JObj [("data", JObj [("value", JArr [int_node 5])])])]).
Proof.
  split; [discriminate |]. split; [reflexivity |].
  exact (proj1 (@single_element_collapse offline_host (int_node 5)
                  (λ items, ltac:(discriminate))) eq_refl).
Defined.

Lemma set_prop_keys (props : list (string * js)) (k k' : string) (v : js) :
  k' ∈ map fst (set_prop props k v) ↔ k' = k ∨ k' ∈ map fst props.
Proof.
  induction props as [| [k0 v0] props IH]; simpl.
  - rewrite list_elem_of_singleton. split; [auto | intros [-> | ?%elem_of_nil]; done].
  - destruct (String.eqb_spec k0 k) as [-> | Hne]; simpl;
      rewrite !elem_of_cons; [tauto |]. rewrite IH. tauto.
Qed.

Lemma set_prop_NoDup (props : list (string * js)) (k : string) (v : js) :
  NoDup (map fst props) → NoDup (map fst (set_prop props k v)).
Proof.
  induction props as [| [k0 v0] props IH]; simpl; intros Hnodup.
  - apply NoDup_singleton.
  - destruct (String.eqb_spec k0 k) as [-> | Hne]; simpl; [done |].
    apply NoDup_cons in Hnodup as [Hfresh Hnodup].
    apply NoDup_cons. split; [| by apply IH].
    rewrite set_prop_keys. intros [-> | Hin]; done.
Qed.

Lemma lookup_set_prop (props : list (string * js)) (k k' : string) (v : js) :
  lookup_prop k' (set_prop props k v)
  = if String.eqb k k' then Some v else lookup_prop k' props.
Proof.
  unfold lookup_prop.
  induction props as [| [k0 v0] props IH]; simpl.
  - by destruct (String.eqb k k').
  - destruct (String.eqb_spec k0 k) as [-> | Hne]; simpl.
    + by destruct (String.eqb k k').
    + destruct (String.eqb_spec k0 k') as [-> | Hne']; simpl.
      * destruct (String.eqb_spec k k'); [congruence | done].
      * exact IH.
Qed.

Lemma lookup_prop_snoc (props : list (string * js)) (k k' : string) (v : js) :
  lookup_prop k' (props ++ [(k, v)])
  = match lookup_prop k' props with
    | Some w => Some w
    | None => if String.eqb k k' then Some v else None
    end.
Proof.
  unfold lookup_prop. induction props as [| [k0 v0] props IH]; simpl.
  - by destruct (String.eqb k k').
  - by destruct (String.eqb k0 k').
Qed.

(** An assignment to a plain object that has no own ["__proto__"]: a
    primitive under the key ["__proto__"] changes nothing, any other key is
    written. *)
Lemma assign_plain (acc : list (string * js)) (k : string) (v : js) :
  lookup_prop "__proto__" acc = None →
  (k = "__proto__" → is_object_or_null v = false) →
  assign (JObj acc) k v = JObj (if String.eqb k "__proto__" then acc else set_prop acc k v).
Proof.
  intros Hproto Hprimitive. unfold assign. rewrite Hproto.
  destruct (String.eqb_spec k "__proto__") as [Hk | Hk]; simpl; [| reflexivity].
  by rewrite (Hprimitive Hk).
Qed.

(** The loop of the struct branch, from an object that holds [acc]. *)
Lemma collect_members_lookup `{Host} (extract : js → completion js)
      (members kvs : list (string * js)) :
  Forall2 (λ m kv, fst m = fst kv ∧ extract (snd m) = Return (snd kv)) members kvs →
  Forall (λ kv, fst kv = "__proto__" → is_object_or_null (snd kv) = false) kvs →
  ∀ acc : list (string * js),
    NoDup (map fst acc) →
    lookup_prop "__proto__" acc = None →
    ∃ result,
      foldl (collect_member extract) (Return (JObj acc))
            (map (λ m, JObj [("name", JStr (fst m)); ("value", snd m)]) members)
      = Return (JObj result)
      ∧ NoDup (map fst result)
      ∧ lookup_prop "__proto__" result = None
      ∧ ∀ k, k ≠ "__proto__" →
             lookup_prop k result
             = match lookup_prop k (reverse kvs) with
               | Some v => Some v
               | None => lookup_prop k acc
               end.
Proof.
  induction 1 as [| [name node] [name' v] members kvs [Hname Hnode] _ IH];
    intros Hprimitive acc Hnodup Hproto.
  - exists acc. by repeat split.
  - simpl in Hname, Hnode. subst name'.
    apply Forall_cons in Hprimitive as [Hv Hprimitive]. simpl in Hv.
    pose proof (assign_plain acc name v Hproto Hv) as Hassign.
    set (acc' := if String.eqb name "__proto__" then acc else set_prop acc name v) in *.
    destruct (IH Hprimitive acc') as (result & Hresult & Hnd & Hpr & Hlookup).
    { subst acc'. destruct (String.eqb name "__proto__"); [done |].
      by apply set_prop_NoDup. }
    { subst acc'. destruct (String.eqb_spec name "__proto__") as [-> | Hne]; [done |].
      rewrite lookup_set_prop. by destruct (String.eqb_spec name "__proto__"). }
    exists result. split; [| split; [done | split; [done |]]].
    + cbn [map foldl fst snd]. rewrite collect_member_step, Hnode.
      cbn [mbind completion_bind]. rewrite Hassign. exact Hresult.
    + intros k Hk. rewrite (Hlookup k Hk), reverse_cons, lookup_prop_snoc.
      destruct (lookup_prop k (reverse kvs)); [done |].
      subst acc'. destruct (String.eqb_spec name "__proto__") as [-> | Hne].
      * destruct (String.eqb_spec "__proto__" k); [congruence | done].
      * rewrite lookup_set_prop. by destruct (String.eqb name k).
Qed.

(** X6: decoding a struct whose member values decode, and in which a
    member named ["__proto__"] decodes to a string, a number, a boolean or
    [undefined], yields a plain object with distinct property names in
    which each name holds the value of the last member of that name; the
    members named ["__proto__"] leave no property. *)
Theorem struct_decoding_last_wins `{Host} (members kvs : list (string * js)) :
  Forall2 (λ m kv, fst m = fst kv ∧ extractValue (snd m) = Return (snd kv)) members kvs →
  Forall (λ kv, fst kv = "__proto__" → is_object_or_null (snd kv) = false) kvs →
  (js_depth (struct_node members) < decode_stack)%nat →
  ∃ result,
    extractValue (struct_node members) = Return (JObj result)
    ∧ NoDup (map fst result)
    ∧ lookup_prop "__proto__" result = None
    ∧ ∀ k, k ≠ "__proto__" → lookup_prop k result = lookup_prop k (reverse kvs).
Proof.
  intros Hmembers Hprimitive Hdepth.
  destruct (collect_members_lookup extractValue members kvs Hmembers Hprimitive [])
    as (result & Hresult & Hnodup & Hproto & Hlookup); [constructor | done |].
  exists result. split; [| split; [done | split; [done |]]].
  - unfold extractValue at 1. destruct decode_stack as [| depth] eqn:Hstack; [lia |].
    unfold struct_node. rewrite extract_struct.
    rewrite (collect_members_agree _ extractValue).
    + exact Hresult.
    + intros member node [m [-> Hm]]%list_elem_of_fmap [= <-].
      apply (list_elem_of_fmap_2 (λ m, JObj [("name", JStr (fst m)); ("value", snd m)]))
        in Hm.
      apply items_depth_elem in Hm. unfold struct_node in Hdepth. simpl in Hm, Hdepth.
      change (map ?f ?l) with (f <$> l) in Hdepth.
      apply extractValue_at_enough; rewrite ?Hstack; lia.
  - intros k Hk. rewrite (Hlookup k Hk). by destruct (lookup_prop k (reverse kvs)).
Qed.

Lemma struct_decoding_last_wins_witness :
  let members := [("a", int_node 1); ("__proto__", string_node "x"); ("a", int_node 3)] in
  let kvs := [("a", JNum 1); ("__proto__", JStr "x"); ("a", JNum 3)] in
  Forall2 (λ m kv, fst m = fst kv ∧ @extractValue offline_host (snd m) = Return (snd kv))
          members kvs
  ∧ Forall (λ kv, fst kv = "__proto__" → is_object_or_null (snd kv) = false) kvs
  ∧ (js_depth (struct_node members) < @decode_stack offline_host)%nat
  ∧ ∃ result,
      @extractValue offline_host (struct_node members) = Return (JObj result)
      ∧ NoDup (map fst result)
      ∧ lookup_prop "__proto__" result = None
      ∧ ∀ k, k ≠ "__proto__" → lookup_prop k result = lookup_prop k (reverse kvs).
Proof.
  intros members kvs.
  assert (Hall : Forall2 (λ m kv, fst m = fst kv
                            ∧ @extractValue offline_host (snd m) = Return (snd kv))
                         members kvs).
  { repeat constructor. }
  assert (Hprimitive : Forall (λ kv, fst kv = "__proto__"
                                     → is_object_or_null (snd kv) = false) kvs).
  { repeat constructor. }
  assert (Hdepth : (js_depth (struct_node members) < @decode_stack offline_host)%nat).
  { apply Nat.ltb_lt. vm_compute. reflexivity. }
  split; [exact Hall |]. split; [exact Hprimitive |]. split; [exact Hdepth |].
  exact (@struct_decoding_last_wins offline_host members kvs Hall Hprimitive Hdepth).
Defined.

(** Members named ["__proto__"] whose values are objects or [null].  A
    struct value becomes the prototype of the decoded object, which then
    has no own property and reads the members of that struct as its own; a
    value that decodes to [null] removes the prototype, and a second member
    of that name is then an own property. *)
Example struct_decoding_prototypes :
  @extractValue offline_host
     (struct_node [("__proto__", struct_node [("balance", int_node 7)])])
  = Return (JObjProto (JObj [("balance", JNum 7)]) [])
  ∧ get (JObjProto (JObj [("balance", JNum 7)]) []) "balance" = Return (JNum 7)
  ∧ @extractValue offline_host
       (struct_node [("__proto__", JObj []); ("__proto__", int_node 1)])
    = Return (JObjProto JNull [("__proto__", JNum 1)])
  ∧ @ToString offline_host (JObjProto JNull [("__proto__", JNum 1)])
    = Throw (TypeError "Cannot convert object to primitive value").
Proof. repeat split; vm_compute; reflexivity. Qed.

(** ** Responses *)

Lemma truthy_js_or `{Host} (a b : js) : truthy b = true → truthy (js_or a b) = true.
Proof. intros Hb. unfold js_or. by destruct (truthy a) eqn:Ha. Qed.

(** X7: a response that [parseXmlRpcResponse] returns has one of two
    shapes: a success has [responseCode] 0, a [data] and no
    [responseMessage]; a fault has no [data], a truthy [responseMessage]
    and a truthy [responseCode], so a fault never carries the response
    code 0. *)
Theorem parseXmlRpcResponse_shapes `{Host} (xml : string) (response : UCIPResponse) :
  parseXmlRpcResponse xml = Return response →
  (responseCode response = JNum 0
   ∧ responseMessage response = None
   ∧ is_Some (Types.data response))
  ∨ (truthy (responseCode response) = true
     ∧ (∃ message, responseMessage response = Some message ∧ truthy message = true)
     ∧ Types.data response = None).
Proof.
  unfold parseXmlRpcResponse.
  destruct (xml_parse xml) as [parsed | e]; simpl; [| discriminate].
  destruct (get parsed "methodResponse") as [methodResponse | e]; simpl; [| discriminate].
  destruct (get_opt methodResponse "fault") as [fault | e]; simpl; [| discriminate].
  destruct (truthy fault).
  - destruct (get fault "value") as [node | e]; simpl; [| discriminate].
    destruct (extractValue node) as [decoded | e]; simpl; [| discriminate].
    destruct (get decoded "faultCode") as [faultCode | e]; simpl; [| discriminate].
    destruct (get decoded "faultString") as [faultString | e]; simpl; [| discriminate].
    intros [= <-]. right. simpl. split; [by apply truthy_js_or |].
    split; [| done]. eexists. split; [done |]. by apply truthy_js_or.
  - destruct (get_opt methodResponse "params") as [params | e]; simpl; [| discriminate].
    destruct (truthy params); [| discriminate].
    destruct (get params "param") as [param | e]; simpl; [| discriminate].
    destruct (mapM _ (as_array param)) as [values | e]; simpl; [| discriminate].
    intros [= <-]. left. simpl. by repeat split.
Qed.

Lemma parseXmlRpcResponse_shapes_witness :
  let parsed :=
    fault_envelope (struct_node [("faultCode", int_node 0);
                                 ("faultString", string_node "")]) in
  let host := scripted_host (Throw (Error "unused")) (Return parsed) in
  let response := {| responseCode := JNum (-1);
                     responseMessage := Some (JStr "Unknown fault");
                     Types.data := None |} in
  @parseXmlRpcResponse host "" = Return response
  ∧ truthy (responseCode response) = true.
Proof.
  intros parsed host response. split; [reflexivity |].
  destruct (@parseXmlRpcResponse_shapes host "" response eq_refl)
    as [(Hzero & _) | (Htruthy & _)]; [discriminate Hzero | exact Htruthy].
Defined.

(** X8: when the parsed document has neither a truthy
    [methodResponse.fault] nor a truthy [methodResponse.params] (also when
    [methodResponse] itself is missing), [parseXmlRpcResponse] throws
    ["Invalid XML-RPC response format"]. *)
Theorem parseXmlRpcResponse_invalid_format `{Host} (xml : string) (parsed : js) :
  xml_parse xml = Return parsed →
  nullish parsed = false →
  truthy (chain parsed ["methodResponse"; "fault"]) = false →
  truthy (chain parsed ["methodResponse"; "params"]) = false →
  parseXmlRpcResponse xml = Throw (Error "Invalid XML-RPC response format").
Proof.
  intros Hparse Hparsed Hfault Hparams. unfold parseXmlRpcResponse.
  rewrite Hparse. simpl.
  assert (Hget : ∀ v k, nullish v = false → get v k = Return (chain v [k])).
  { intros v k Hv. by destruct v. }
  assert (Hopt : ∀ v k, get_opt v k = Return (chain v [k])).
  { intros v k. by destruct v. }
  change (chain parsed ["methodResponse"; "fault"])
    with (chain (chain parsed ["methodResponse"]) ["fault"]) in Hfault.
  change (chain parsed ["methodResponse"; "params"])
    with (chain (chain parsed ["methodResponse"]) ["params"]) in Hparams.
  rewrite (Hget parsed) by done.
  generalize dependent (chain parsed ["methodResponse"]). intros methodResponse Hfault Hparams.
  simpl. rewrite (Hopt methodResponse "fault").
  generalize dependent (chain methodResponse ["fault"]). intros fault Hfault.
  simpl. rewrite Hfault, (Hopt methodResponse "params").
  generalize dependent (chain methodResponse ["params"]). intros params Hparams.
  simpl. by rewrite Hparams.
Qed.

Lemma parseXmlRpcResponse_invalid_format_witness :
  let parsed := JObj [("methodResponse", JObj [("status", JStr "ok")])] in
  let host := scripted_host (Throw (Error "unused")) (Return parsed) in
  @xml_parse host "" = Return parsed
  ∧ nullish parsed = false
  ∧ truthy (chain parsed ["methodResponse"; "fault"]) = false
  ∧ truthy (chain parsed ["methodResponse"; "params"]) = false
  ∧ @parseXmlRpcResponse host "" = Throw (Error "Invalid XML-RPC response format").
Proof.
  intros parsed host. repeat (split; [reflexivity |]).
  exact (@parseXmlRpcResponse_invalid_format host "" parsed eq_refl eq_refl eq_refl eq_refl).
Defined.

(** X9: a response with the params [nodes], each of which decodes,
    is a success whose [data] is the one decoded value when there is exactly
    one param and the array of the decoded values, in order, otherwise (the
    empty array for no param); a single param that the XML parser delivers
    as an object instead of a one-element array gives the same result. *)
Theorem parseXmlRpcResponse_success `{Host} (xml : string) (nodes values : list js) :
  Forall2 (λ node value, extractValue node = Return value) nodes values →
  (xml_parse xml
   = Return (params_envelope (JArr (map (λ node, JObj [("value", node)]) nodes))) →
   parseXmlRpcResponse xml
   = Return {| responseCode := JNum 0;
               responseMessage := None;
               Types.data := Some (match values with
                                   | [value] => value
                                   | _ => JArr values
                                   end) |})
  ∧ (∀ node value,
       nodes = [node] → values = [value] →
       xml_parse xml = Return (params_envelope (JObj [("value", node)])) →
       parseXmlRpcResponse xml
       = Return {| responseCode := JNum 0;
                   responseMessage := None;
                   Types.data := Some value |}).
Proof.
  intros Hvalues. split.
  - intros Hparse. unfold parseXmlRpcResponse. rewrite Hparse. simpl.
    rewrite (mapM_Forall2 _ _ values); [reflexivity |].
    clear Hparse.
    induction Hvalues as [| node value nodes values Hnode _ IH]; simpl; constructor;
      [| done].
    simpl. by rewrite Hnode.
  - intros node value -> -> Hparse. unfold parseXmlRpcResponse. rewrite Hparse. simpl.
    apply Forall2_cons_1 in Hvalues as [-> _]. reflexivity.
Qed.

Lemma parseXmlRpcResponse_success_witness :
  let nodes := [int_node 1; string_node "two"] in
  let values := [JNum 1; JStr "two"] in
  let parsed := params_envelope (JArr (map (λ node, JObj [("value", node)]) nodes)) in
  let host := scripted_host (Throw (Error "unused")) (Return parsed) in
  Forall2 (λ node value, @extractValue host node = Return value) nodes values
  ∧ @parseXmlRpcResponse host ""
    = Return {| responseCode := JNum 0;
                responseMessage := None;
                Types.data := Some (JArr values) |}.
Proof.
  intros nodes values parsed host.
  assert (Hall : Forall2 (λ node value, @extractValue host node = Return value)
                         nodes values) by repeat constructor.
  split; [exact Hall |].
  exact (proj1 (@parseXmlRpcResponse_success host "" nodes values Hall) eq_refl).
Defined.

(** ** The client: construction and calls *)

Lemma or_string_spec (s : option string) (d : string) :
  d ≠ "" →
  or_string s d ≠ ""
  ∧ (s = Some (or_string s d) ∨ or_string s d = d)
  ∧ ∀ d', or_string (Some (or_string s d)) d' = or_string s d.
Proof.
  intros Hd. unfold or_string. destruct s as [v |].
  - destruct (String.eqb_spec v "") as [-> | Hv].
    + repeat split; [done | by right |]. intros d'.
      by destruct (String.eqb_spec d "").
    + repeat split; [done | by left |]. intros d'.
      by destruct (String.eqb_spec v "").
  - repeat split; [done | by right |]. intros d'. by destruct (String.eqb_spec d "").
Qed.

Lemma or_Z_spec (n : option Z) (d : Z) :
  d ≠ 0 →
  or_Z n d ≠ 0
  ∧ (n = Some (or_Z n d) ∨ or_Z n d = d)
  ∧ ∀ d', or_Z (Some (or_Z n d)) d' = or_Z n d.
Proof.
  intros Hd. unfold or_Z. destruct n as [v |].
  - destruct (Z.eqb_spec v 0) as [-> | Hv].
    + repeat split; [done | by right |]. intros d'. by destruct (Z.eqb_spec d 0).
    + repeat split; [done | by left |]. intros d'. by destruct (Z.eqb_spec v 0).
  - repeat split; [done | by right |]. intros d'. by destruct (Z.eqb_spec d 0).
Qed.

(** X10: the constructor stores a configuration whose [path] is never empty
    (the caller's, or ["/Air"] when it is absent or empty) and whose
    [timeout] and [maxConnections] are never 0 (the caller's, or 30000 and 20
    when absent or 0); the URL is ["http://<host>:<port><path>"] with that
    path; and constructing a client from the stored configuration gives the
    same client again. *)
Theorem new_normalises (config : XmlRpcClientConfig) :
  let client := XmlRpcClient.new config in
  (∃ p, path (getConfig client) = Some p
        ∧ p ≠ ""
        ∧ (path config = Some p ∨ p = "/Air")
        ∧ getUrl client
          = "http://" ++ host config ++ ":" ++ JSNumber.Z_toString (port config) ++ p)
  ∧ (∃ t, timeout (getConfig client) = Some t
          ∧ t ≠ 0 ∧ (timeout config = Some t ∨ t = 30000))
  ∧ (∃ n, maxConnections (getConfig client) = Some n
          ∧ n ≠ 0 ∧ (maxConnections config = Some n ∨ n = 20))
  ∧ XmlRpcClient.new (getConfig client) = client.
Proof.
  destruct (or_string_spec (path config) "/Air") as (Hp & Hp' & Hp''); [done |].
  destruct (or_Z_spec (timeout config) 30000) as (Ht & Ht' & Ht''); [done |].
  destruct (or_Z_spec (maxConnections config) 20) as (Hn & Hn' & Hn''); [done |].
  unfold XmlRpcClient.new, getConfig, getUrl. cbn [XmlRpcClient.config XmlRpcClient.url
    host port path timeout maxConnections].
  rewrite !Hp'', !Ht'', !Hn''.
  split; [| split; [| split]]; [| by eexists | by eexists | reflexivity].
  eexists. split; [reflexivity |]. split; [done |]. split; [done |]. reflexivity.
Qed.

(** X11: a request with a parameter that [buildValue] rejects for its
    Dates (an Invalid Date, or an object that inherits from a Date,
    anywhere in it) is rejected by [call] before anything is sent: [call]
    throws what the serialization throws (the RangeError or the TypeError
    of [toISOString], or the RangeError of the engine when an earlier
    parameter is nested too deeply) and performs no exchange, whatever the
    host would answer. *)
Theorem call_invalid_date `{Host} (this : XmlRpcClient.t) (request : UCIPRequest)
        (param : js) :
  param ∈ params request →
  dates_valid param = false →
  ∃ e, call_exchanges this request = (Throw e, [])
       ∧ call this request = Throw e
       ∧ (e = RangeError "Invalid time value"
          ∨ e = RangeError "Maximum call stack size exceeded"
          ∨ ∃ message, e = TypeError message).
Proof.
  intros Hparam Hinvalid. unfold call, call_exchanges, buildXmlRpcRequest.
  destruct (mapM buildValue (params request)) as [values | e] eqn:Hvalues;
    cbn [mbind completion_bind].
  - apply mapM_Return_inv in Hvalues. rewrite Forall_forall in Hvalues.
    destruct (Hvalues param Hparam) as [node Hnode].
    apply buildValue_at_Return_valid in Hnode. congruence.
  - exists e. split; [reflexivity |]. split; [reflexivity |].
    apply mapM_Throw in Hvalues as (p & _ & Hthrow).
    by apply buildValue_at_Throw in Hthrow.
Qed.

Lemma call_invalid_date_witness :
  let request := {| methodName := "Refill"; params := [JObj [("expiry", JDate None)]] |} in
  JObj [("expiry", JDate None)] ∈ params request
  ∧ dates_valid (JObj [("expiry", JDate None)]) = false
  ∧ @call_exchanges offline_host (sample_client "A") request
    = (Throw (RangeError "Invalid time value"), [])
  ∧ ∃ e, @call_exchanges offline_host (sample_client "A") request = (Throw e, [])
         ∧ @call offline_host (sample_client "A") request = Throw e
         ∧ (e = RangeError "Invalid time value"
            ∨ e = RangeError "Maximum call stack size exceeded"
            ∨ ∃ message, e = TypeError message).
Proof.
  intros request.
  assert (Hin : JObj [("expiry", JDate None)] ∈ params request) by (simpl; left).
  split; [exact Hin |]. split; [reflexivity |]. split; [reflexivity |].
  exact (@call_invalid_date offline_host (sample_client "A") request _ Hin eq_refl).
Defined.

(** ** The requests of the typed operations *)

Lemma plain_struct_builds `{Host} (request : UCIPRequest) :
  Forall plain_struct (params request) →
  ∃ body, buildXmlRpcRequest request = Return body.
Proof.
  intros Hplain. unfold buildXmlRpcRequest.
  destruct (mapM_Return buildValue (λ _ _, True) (params request))
    as (values & -> & _); [| simpl; eauto].
  eapply Forall_impl; [exact Hplain |].
  intros param (props & -> & Hprops).
  assert (Hscalars : forallb (λ p, dates_valid (snd p)) props = true
                     ∧ foldr (λ p d, Nat.max (js_depth (snd p)) d) 0%nat props = 0%nat).
  { induction Hprops as [| p props Hp _ [IHvalid IHdepth]]; [done |].
    simpl. rewrite IHvalid, IHdepth. by destruct (snd p). }
  destruct Hscalars as [Hvalid Hnesting].
  destruct encode_stack_succ as [depth Hstack].
  destruct (buildValue_at_Return encode_stack (JObj props)) as [node Hnode]; [done | | eauto].
  simpl. rewrite Hnesting, Hstack. lia.
Qed.

(** X12: called with requests of their TypeScript types, [getBalance],
    [refill], [updateBalance] and [getAccountDetails] build requests that
    carry one struct whose members are all strings or numbers (no member is
    [undefined], so none is sent as the string ["undefined"]), and
    [buildXmlRpcRequest] serializes them without throwing. *)
Theorem typed_requests_serialize `{Host} :
  (∀ request,
     Forall plain_struct (params (getBalance_request request))
     ∧ ∃ body, buildXmlRpcRequest (getBalance_request request) = Return body)
  ∧ (∀ now random request,
       Forall plain_struct (params (refill_request now random request))
       ∧ ∃ body, buildXmlRpcRequest (refill_request now random request) = Return body)
  ∧ (∀ now random request,
       Forall plain_struct (params (updateBalance_request now random request))
       ∧ ∃ body,
           buildXmlRpcRequest (updateBalance_request now random request) = Return body)
  ∧ (∀ request,
       Forall plain_struct (params (getAccountDetails_request request))
       ∧ ∃ body, buildXmlRpcRequest (getAccountDetails_request request) = Return body).
Proof.
  assert (Hnum : ∀ x d, match js_or (opt_num x) (JNum d) with
                        | JStr _ | JNum _ => True | _ => False end).
  { intros [x |] d; unfold js_or; simpl; [by destruct (negb _) | done]. }
  assert (Hstr : ∀ s d, match js_or (opt_str s) (JStr d) with
                        | JStr _ | JNum _ => True | _ => False end).
  { intros [s |] d; unfold js_or; simpl; [by destruct (negb _) | done]. }
  assert (Hsplit : ∀ request, Forall plain_struct (params request) →
            Forall plain_struct (params request)
            ∧ ∃ body, buildXmlRpcRequest request = Return body).
  { intros request Hplain. split; [done | by apply plain_struct_builds]. }
  split; [| split; [| split]]; intros; apply Hsplit; (constructor; [| constructor]);
    eexists; (split; [reflexivity |]);
    repeat (constructor; [first [apply Hnum | apply Hstr | exact I] |]); constructor.
Qed.

(** [padStart(4, '0')] of a number below 10000 is its four-digit numeral. *)
Lemma four_digits (n : Z) :
  0 <= n < 10000 →
  JSNumber.zeros (4 - String.length (JSNumber.Z_toString n)) ++ JSNumber.Z_toString n
  = JSNumber.fixed_digits 4 n.
Proof.
  intros Hn.
  assert (Hall : forallb (λ i, String.eqb
                    (JSNumber.zeros (4 - String.length (JSNumber.Z_toString (Z.of_nat i)))
                     ++ JSNumber.Z_toString (Z.of_nat i))
                    (JSNumber.fixed_digits 4 (Z.of_nat i))) (seq 0 (Z.to_nat 10000)) = true)
    by (vm_compute; reflexivity).
  rewrite forallb_forall in Hall.
  specialize (Hall (Z.to_nat n)). rewrite Z2Nat.id in Hall by lia.
  apply String.eqb_eq, Hall, in_seq. lia.
Qed.

Lemma trunc_abs_nonneg (x : float) : 0 <= JSNumber.trunc_abs x.
Proof.
  unfold JSNumber.trunc_abs. destruct (Prim2SF x) as [| | | s m e]; try lia.
  destruct (Z.leb_spec 0 e).
  - apply Z.mul_nonneg_nonneg; [lia | by apply Z.pow_nonneg].
  - apply Z.div_pos; [lia | apply Z.pow_pos_nonneg; lia].
Qed.

(** X13: for a random number from 0 whose scaled floor is below 10000,
    [generateTransactionId] returns ["TXN"], the clock reading and that
    floor written with exactly four digits, zero-padded; [refill] and
    [updateBalance] send the caller's [transactionId] when it is not empty
    and this generated one otherwise. *)
Theorem transaction_id_default (now : Z) (random : float) :
  (0 <=? random)%float = true →
  JSNumber.trunc_abs (random * 10000) < 10000 →
  let generated :=
    "TXN" ++ JSNumber.Z_toString now
    ++ JSNumber.fixed_digits 4 (JSNumber.trunc_abs (random * 10000)) in
  generateTransactionId now random = generated
  ∧ (∀ request,
       request_param (refill_request now random request) "transactionId"
       = JStr (match RefillRequest.transactionId request with
               | Some id => if String.eqb id "" then generated else id
               | None => generated
               end))
  ∧ (∀ request,
       request_param (updateBalance_request now random request) "transactionId"
       = JStr (match UpdateBalanceRequest.transactionId request with
               | Some id => if String.eqb id "" then generated else id
               | None => generated
               end)).
Proof.
  intros _ Hrandom generated.
  assert (Hgenerated : generateTransactionId now random = generated).
  { unfold generateTransactionId, generated. rewrite four_digits; [done |].
    split; [apply trunc_abs_nonneg | done]. }
  split; [done |]. rewrite <- Hgenerated.
  split; intros [? ? [id |] ? ?] || intros [? ? [id |] ?]; unfold request_param; simpl;
    unfold js_or; simpl; try done; by destruct (String.eqb id "").
Qed.

Lemma transaction_id_default_witness :
  (0 <=? 0.0421)%float = true
  ∧ JSNumber.trunc_abs (0.0421 * 10000) < 10000
  ∧ generateTransactionId 1700000000000 0.0421 = "TXN17000000000000421".
Proof.
  split; [reflexivity |]. split; [vm_compute; reflexivity |].
  exact (eq_trans
           (proj1 (transaction_id_default 1700000000000 0.0421 eq_refl eq_refl))
           eq_refl).
Defined.

(** ** Initialization: clients, routes and cursors *)

Lemma JSMap_get_set {V : Type} (k k' : string) (v : V) (m : JSMap.t V) :
  JSMap.get k' (JSMap.set k v m) = if String.eqb k k' then Some v else JSMap.get k' m.
Proof.
  unfold JSMap.get. induction m as [| [k0 v0] m IH]; simpl.
  - by destruct (String.eqb k k').
  - destruct (String.eqb_spec k0 k) as [-> | Hne]; simpl.
    + by destruct (String.eqb k k').
    + destruct (String.eqb_spec k0 k') as [-> | Hne']; simpl.
      * destruct (String.eqb_spec k k'); [congruence | done].
      * exact IH.
Qed.

Lemma JSMap_set_nonempty {V : Type} (k : string) (v : V) (m : JSMap.t V) :
  JSMap.set k v m ≠ [].
Proof. destruct m as [| [k0 v0] m]; simpl; [done |]. by destruct (String.eqb k0 k). Qed.

Lemma given_Some (s : option string) (k : string) :
  given s = Some k ↔ s = Some k ∧ k ≠ "".
Proof.
  unfold given. destruct s as [v |]; [| split; [done | by intros [? _]]].
  destruct (String.eqb_spec v "") as [-> | Hv]; split.
  - done.
  - by intros [[= <-] ?].
  - by intros [= <-].
  - by intros [[= <-] _].
Qed.

Lemma addNode_clients (cfg : AppConfig) (this : AIRService.t) (node : AirNodeConfig.t) :
  clients (addNode cfg this node)
  = JSMap.set (AirNodeConfig.nodeId node)
      (XmlRpcClient.new {| host := AirNodeConfig.host node;
                           port := AirNodeConfig.port node;
                           path := Some "/Air";
                           timeout := requestTimeout cfg;
                           maxConnections := maxConnectionsPerRoute cfg |})
      (clients this).
Proof. unfold addNode. by destruct (given _). Qed.

Lemma addNode_routingTable (cfg : AppConfig) (this : AIRService.t)
      (node : AirNodeConfig.t) :
  routingTable (addNode cfg this node)
  = match given (AirNodeConfig.afType node) with
    | Some afType =>
        <[afType := (default [] (routingTable this !! afType)
                     ++ [destination_of node])%list]> (routingTable this)
    | None => routingTable this
    end.
Proof.
  unfold addNode. destruct (given _) as [afType |]; [| done]. simpl.
  case_bool_decide as Hfresh; [| done].
  by rewrite lookup_insert_eq, insert_insert_eq, Hfresh.
Qed.

Lemma addNode_roundRobinIndexes (cfg : AppConfig) (this : AIRService.t)
      (node : AirNodeConfig.t) :
  roundRobinIndexes (addNode cfg this node)
  = match given (AirNodeConfig.afType node) with
    | Some afType =>
        if bool_decide (routingTable this !! afType = None)
        then <[afType := 0]> (roundRobinIndexes this)
        else roundRobinIndexes this
    | None => roundRobinIndexes this
    end.
Proof. unfold addNode. by destruct (given _). Qed.

Lemma addNode_other (cfg : AppConfig) (this : AIRService.t) (node : AirNodeConfig.t) :
  stats (addNode cfg this node) = stats this
  ∧ statsInterval (addNode cfg this node) = statsInterval this
  ∧ initialized (addNode cfg this node) = initialized this.
Proof. unfold addNode. by destruct (given _). Qed.

Lemma foldl_addNode_other (cfg : AppConfig) (nodes : list AirNodeConfig.t) :
  ∀ this, stats (foldl (addNode cfg) this nodes) = stats this
          ∧ statsInterval (foldl (addNode cfg) this nodes) = statsInterval this
          ∧ initialized (foldl (addNode cfg) this nodes) = initialized this.
Proof.
  induction nodes as [| node nodes IH]; intros this; [done |].
  simpl. destruct (IH (addNode cfg this node)) as (-> & -> & ->).
  apply addNode_other.
Qed.

Lemma foldl_addNode_clients_nonempty (cfg : AppConfig) (nodes : list AirNodeConfig.t) :
  ∀ this, clients this ≠ [] ∨ nodes ≠ [] →
          clients (foldl (addNode cfg) this nodes) ≠ [].
Proof.
  induction nodes as [| node nodes IH]; intros this Hne; [by destruct Hne |].
  simpl. apply IH. left. rewrite addNode_clients. apply JSMap_set_nonempty.
Qed.

Lemma foldl_addNode_clients_dom (cfg : AppConfig) (nodes : list AirNodeConfig.t) :
  ∀ (this : AIRService.t) (id : string),
    is_Some (JSMap.get id (clients (foldl (addNode cfg) this nodes)))
    ↔ is_Some (JSMap.get id (clients this))
      ∨ ∃ node, node ∈ nodes ∧ AirNodeConfig.nodeId node = id.
Proof.
  induction nodes as [| n nodes IH]; intros this id; simpl.
  - split; [auto | intros [? | (? & ?%elem_of_nil & _)]; done].
  - rewrite IH, addNode_clients, JSMap_get_set.
    destruct (String.eqb_spec (AirNodeConfig.nodeId n) id) as [Heq | Hne].
    + split; [| eauto]. intros _. right. exists n. split; [by left | done].
    + split.
      * intros [? | (node & Hin & Hid)]; [by left |].
        right. exists node. split; [by right | done].
      * intros [? | (node & [-> | Hin]%elem_of_cons & Hid)]; [by left | done |].
        right. by exists node.
Qed.

(** The routes of a key after the loop of [initialize]. *)
Lemma foldl_addNode_routingTable (cfg : AppConfig) (nodes : list AirNodeConfig.t) :
  ∀ (this : AIRService.t) (k : string),
    routingTable (foldl (addNode cfg) this nodes) !! k
    = if decide (k = "") then routingTable this !! k
      else match filter (λ node, AirNodeConfig.afType node = Some k) nodes with
           | [] => routingTable this !! k
           | routed => Some (default [] (routingTable this !! k)
                             ++ map destination_of routed)%list
           end.
Proof.
  induction nodes as [| n nodes IH]; intros this k; simpl.
  - by destruct (decide (k = "")).
  - rewrite IH, addNode_routingTable. destruct (decide (k = "")) as [-> | Hk].
    + destruct (given (AirNodeConfig.afType n)) as [a |] eqn:Hgiven; [| done].
      apply given_Some in Hgiven as [_ Ha]. by rewrite lookup_insert_ne.
    + rewrite filter_cons.
      destruct (decide (AirNodeConfig.afType n = Some k)) as [Haf | Haf].
      * rewrite (proj2 (given_Some _ k) (conj Haf Hk)), lookup_insert_eq. simpl.
        destruct (filter _ nodes) as [| r routed]; [done |].
        by rewrite <- app_assoc.
      * destruct (given (AirNodeConfig.afType n)) as [a |] eqn:Hgiven; [| done].
        apply given_Some in Hgiven as [Ha _].
        rewrite lookup_insert_ne by congruence. done.
Qed.

Lemma foldl_addNode_cursors (cfg : AppConfig) (nodes : list AirNodeConfig.t) :
  ∀ this : AIRService.t,
    (∀ k, is_Some (routingTable this !! k) → roundRobinIndexes this !! k = Some 0) →
    ∀ k, is_Some (routingTable (foldl (addNode cfg) this nodes) !! k) →
         roundRobinIndexes (foldl (addNode cfg) this nodes) !! k = Some 0.
Proof.
  induction nodes as [| n nodes IH]; intros this Hzero; [done |].
  simpl. apply IH. intros k.
  rewrite addNode_routingTable, addNode_roundRobinIndexes.
  destruct (given (AirNodeConfig.afType n)) as [a |]; [| apply Hzero].
  destruct (decide (k = a)) as [-> | Hne].
  - intros _. case_bool_decide as Hfresh; [by rewrite lookup_insert_eq |].
    apply Hzero. by destruct (routingTable this !! a).
  - rewrite lookup_insert_ne by done. intros Hk.
    case_bool_decide; [rewrite lookup_insert_ne by done |]; by apply Hzero.
Qed.

Lemma foldl_addNode_agree (cfg : AppConfig) (nodes : list AirNodeConfig.t) :
  ∀ this this' : AIRService.t,
    clients this = clients this' →
    routingTable this = routingTable this' →
    clients (foldl (addNode cfg) this nodes) = clients (foldl (addNode cfg) this' nodes)
    ∧ routingTable (foldl (addNode cfg) this nodes)
      = routingTable (foldl (addNode cfg) this' nodes).
Proof.
  induction nodes as [| n nodes IH]; intros this this' Hc Ht; [done |].
  simpl. apply IH.
  - by rewrite !addNode_clients, Hc.
  - by rewrite !addNode_routingTable, Ht.
Qed.

Lemma getAirNodesByEnvironment_spec (airNodeCache : list AirNodeConfig.t)
      (environment : string) (node : AirNodeConfig.t) :
  node ∈ INResourceDefinitions.getAirNodesByEnvironment airNodeCache environment
  ↔ node ∈ airNodeCache
    ∧ AirNodeConfig.active node = true
    ∧ AirNodeConfig.environment node = environment.
Proof.
  unfold INResourceDefinitions.getAirNodesByEnvironment.
  rewrite list_elem_of_filter. tauto.
Qed.

(** X14: [initialize] on a service that is not initialized and holds no
    client and no route.  Without an active node of the configured
    environment it throws ["No AIR nodes configured for environment: ..."]
    and leaves the service as it was.  Otherwise it returns, the service is
    initialized, the statistics are untouched, a client is registered under
    exactly the ids of the active nodes of that environment, and the routes
    of a key are the destinations of those nodes whose [afType] is the key,
    in cache order (no route under the empty key). *)
Theorem initialize_registers (cfg : AppConfig) (airNodeCache : list AirNodeConfig.t)
        (this : AIRService.t) :
  initialized this = false →
  clients this = [] →
  routingTable this = ∅ →
  let nodes :=
    INResourceDefinitions.getAirNodesByEnvironment airNodeCache (environment cfg) in
  let result := initialize cfg airNodeCache this in
  (nodes = [] →
   result = (Throw (Error ("No AIR nodes configured for environment: "
                           ++ environment cfg)), this))
  ∧ (nodes ≠ [] →
     fst result = Return ()
     ∧ initialized (snd result) = true
     ∧ stats (snd result) = stats this
     ∧ (∀ id, is_Some (JSMap.get id (clients (snd result)))
              ↔ ∃ node, node ∈ airNodeCache
                        ∧ AirNodeConfig.active node = true
                        ∧ AirNodeConfig.environment node = environment cfg
                        ∧ AirNodeConfig.nodeId node = id)
     ∧ (∀ k, routingTable (snd result) !! k
             = if decide (k = "") then None
               else match filter (λ node, AirNodeConfig.afType node = Some k) nodes with
                    | [] => None
                    | routed => Some (map destination_of routed)
                    end)).
Proof.
  intros Hinit Hclients Htable nodes result. subst result. unfold initialize.
  rewrite Hinit. fold nodes. split.
  - by intros ->.
  - intros Hnodes. destruct nodes as [| n ns] eqn:Hn; [done |]. rewrite <- Hn.
    simpl. split; [done |]. split; [done |].
    split; [apply foldl_addNode_other |]. split.
    + intros id. rewrite foldl_addNode_clients_dom, Hclients. simpl.
      split.
      * intros [[? [=]] | (node & Hin & Hid)].
        subst nodes. apply getAirNodesByEnvironment_spec in Hin as (? & ? & ?).
        by exists node.
      * intros (node & Hin & Hactive & Henv & Hid). right. exists node.
        split; [| done]. subst nodes. by apply getAirNodesByEnvironment_spec.
    + intros k. rewrite foldl_addNode_routingTable, Htable, lookup_empty.
      destruct (decide (k = "")); [done |]. by destruct (filter _ nodes).
Qed.

Lemma initialize_registers_witness :
  let airNodeCache := [sample_node "A"; sample_node "B"] in
  initialized (AIRService.new 0) = false
  ∧ clients (AIRService.new 0) = []
  ∧ routingTable (AIRService.new 0) = ∅
  ∧ INResourceDefinitions.getAirNodesByEnvironment airNodeCache
      (environment sample_config) ≠ []
  ∧ fst (initialize sample_config airNodeCache (AIRService.new 0)) = Return ().
Proof.
  intros airNodeCache. repeat (split; [reflexivity || discriminate |]).
  exact (proj1 (proj2 (initialize_registers sample_config airNodeCache (AIRService.new 0)
                         eq_refl eq_refl eq_refl)
                  ltac:(discriminate))).
Defined.

(** X15: [shutdown] followed by [initialize] gives the outcome, the
    clients and the routing table of [initialize] on a new service, and
    keeps the statistics; [shutdown] itself keeps the round-robin cursors,
    and the following [initialize] puts the cursor of every routing key it
    creates back to 0. *)
Theorem restart_restores_routing (cfg : AppConfig) (airNodeCache : list AirNodeConfig.t)
        (now : Z) (this : AIRService.t) :
  let restarted := initialize cfg airNodeCache (shutdown this) in
  let fresh := initialize cfg airNodeCache (AIRService.new now) in
  fst restarted = fst fresh
  ∧ clients (snd restarted) = clients (snd fresh)
  ∧ routingTable (snd restarted) = routingTable (snd fresh)
  ∧ initialized (snd restarted) = initialized (snd fresh)
  ∧ stats (snd restarted) = stats this
  ∧ roundRobinIndexes (shutdown this) = roundRobinIndexes this
  ∧ ∀ k, is_Some (routingTable (snd restarted) !! k) →
         roundRobinIndexes (snd restarted) !! k = Some 0.
Proof.
  unfold initialize. simpl initialized. cbv iota.
  destruct (INResourceDefinitions.getAirNodesByEnvironment _ _) as [| n ns] eqn:Hnodes.
  - simpl. repeat split. intros k. rewrite lookup_empty. by intros [? ?].
  - rewrite <- Hnodes.
    set (nodes := INResourceDefinitions.getAirNodesByEnvironment _ _).
    destruct (foldl_addNode_agree cfg nodes (shutdown this) (AIRService.new now))
      as [Hc Ht]; [done | done |].
    destruct (foldl_addNode_other cfg nodes (shutdown this)) as (Hs & _ & _).
    simpl. split; [done |]. split; [exact Hc |]. split; [exact Ht |].
    split; [done |]. split; [exact Hs |]. split; [done |].
    apply foldl_addNode_cursors. intros k. simpl. rewrite lookup_empty. by intros [? ?].
Qed.

(** ** What every reachable state of the service satisfies *)

Lemma addNode_routes_consistent (cfg : AppConfig) (this : AIRService.t)
      (node : AirNodeConfig.t) :
  AirNodeConfig.active node = true →
  routes_consistent this → routes_consistent (addNode cfg this node).
Proof.
  intros Hactive Hroutes afType destinations.
  rewrite addNode_routingTable, addNode_roundRobinIndexes, addNode_clients.
  assert (Hkept : ∀ ds,
    Forall (λ d, is_Some (JSMap.get (RoutingDestination.nodeId d) (clients this))
                 ∧ RoutingDestination.active d = true) ds →
    Forall (λ d, is_Some (JSMap.get (RoutingDestination.nodeId d)
                            (JSMap.set (AirNodeConfig.nodeId node)
                               (XmlRpcClient.new
                                  {| host := AirNodeConfig.host node;
                                     port := AirNodeConfig.port node;
                                     path := Some "/Air";
                                     timeout := requestTimeout cfg;
                                     maxConnections := maxConnectionsPerRoute cfg |})
                               (clients this)))
                 ∧ RoutingDestination.active d = true) ds).
  { intros ds Hds. eapply Forall_impl; [exact Hds |].
    intros d [Hclient Hd]. split; [| done].
    rewrite JSMap_get_set. by destruct (String.eqb _ _). }
  destruct (given (AirNodeConfig.afType node)) as [k |] eqn:Hgiven.
  - apply given_Some in Hgiven as [_ Hk].
    destruct (decide (afType = k)) as [-> | Hne].
    + rewrite lookup_insert_eq. intros [= <-].
      split; [done |]. split; [by destruct (default [] _) |].
      destruct (routingTable this !! k) as [old |] eqn:Hold; simpl.
      * destruct (Hroutes k old Hold) as (_ & _ & (i & Hi & Hrange) & Hall).
        try rewrite bool_decide_eq_false_2 by done.
        split; [exists i; split; [done | rewrite length_app; simpl; lia] |].
        apply Forall_app. split; [by apply Hkept |].
        repeat constructor; [| done]. simpl. rewrite JSMap_get_set, String.eqb_refl. eauto.
      * try rewrite bool_decide_eq_true_2 by done.
        split; [exists 0; rewrite lookup_insert_eq; split; [done | simpl; lia] |].
        repeat constructor; [| done]. simpl. rewrite JSMap_get_set, String.eqb_refl. eauto.
    + rewrite lookup_insert_ne by done. intros Hds.
      destruct (Hroutes afType destinations Hds) as (Hkey & Hnonempty & (i & Hi & Hrange) & Hall).
      split; [done |]. split; [done |]. split; [| by apply Hkept].
      exists i. split; [| done].
      case_bool_decide; [by rewrite lookup_insert_ne |done].
  - intros Hds.
    destruct (Hroutes afType destinations Hds) as (Hkey & Hnonempty & Hcursor & Hall).
    split; [done |]. split; [done |]. split; [done | by apply Hkept].
Qed.

Lemma foldl_addNode_routes_consistent (cfg : AppConfig) (nodes : list AirNodeConfig.t) :
  Forall (λ node, AirNodeConfig.active node = true) nodes →
  ∀ this, routes_consistent this → routes_consistent (foldl (addNode cfg) this nodes).
Proof.
  induction 1 as [| node nodes Hactive _ IH]; intros this Hroutes; [done |].
  simpl. apply IH. by apply addNode_routes_consistent.
Qed.

Lemma initialize_consistent (cfg : AppConfig) (airNodeCache : list AirNodeConfig.t)
      (this : AIRService.t) :
  consistent this → consistent (snd (initialize cfg airNodeCache this)).
Proof.
  intros Hthis. unfold initialize.
  destruct (initialized this) eqn:Hinit; [done |].
  destruct (INResourceDefinitions.getAirNodesByEnvironment _ _) as [| node nodes] eqn:Hnodes;
    [done |].
  rewrite <- Hnodes. set (airNodes := INResourceDefinitions.getAirNodesByEnvironment _ _) in *.
  destruct (foldl_addNode_other cfg airNodes this) as (Hstats & _ & _).
  simpl. split; simpl.
  - rewrite Hstats. apply Hthis.
  - split; [done | eauto].
  - discriminate.
  - intros _. apply foldl_addNode_clients_nonempty. right. by rewrite Hnodes.
  - assert (Hroutes : routes_consistent (foldl (addNode cfg) this airNodes)).
    { apply foldl_addNode_routes_consistent; [| apply Hthis].
      apply Forall_forall. intros n Hn. subst airNodes.
      by apply getAirNodesByEnvironment_spec in Hn as (_ & ? & _). }
    exact Hroutes.
Qed.

(** What [getClient] may change: the cursor of the routing key it used. *)
Lemma getClient_frame (this : AIRService.t) (nodeId afType : option string) :
  let this' := snd (getClient this nodeId afType) in
  clients this' = clients this
  ∧ routingTable this' = routingTable this
  ∧ stats this' = stats this
  ∧ statsInterval this' = statsInterval this
  ∧ initialized this' = initialized this
  ∧ ∀ k, given nodeId ≠ None ∨ given afType ≠ Some k →
         roundRobinIndexes this' !! k = roundRobinIndexes this !! k.
Proof.
  unfold getClient.
  destruct (given nodeId) as [id |]; [done |].
  destruct (given afType) as [key |]; [| by destruct (JSMap.first_value _)].
  destruct (routingTable this !! key) as [[| d ds] |]; [done | | done].
  assert (Hframe : ∀ result i,
            let this' := snd (A:=completion XmlRpcClient.t) (result, set_index key i this) in
            clients this' = clients this
            ∧ routingTable this' = routingTable this
            ∧ stats this' = stats this
            ∧ statsInterval this' = statsInterval this
            ∧ initialized this' = initialized this
            ∧ ∀ k, None ≠ @None string ∨ Some key ≠ Some k →
                   roundRobinIndexes this' !! k = roundRobinIndexes this !! k).
  { intros result i. simpl. repeat split. intros k [? | Hk]; [done |].
    apply lookup_insert_ne. congruence. }
  cbv zeta. destruct (at_index _ _); apply Hframe.
Qed.

Lemma getClient_routes_consistent (this : AIRService.t) (nodeId afType : option string) :
  routes_consistent this → routes_consistent (snd (getClient this nodeId afType)).
Proof.
  intros Hroutes.
  destruct (getClient_frame this nodeId afType) as (Hc & Ht & Hs & Hi & Hn & Hidx).
  intros key destinations. rewrite Hc, Ht. intros Hds.
  destruct (Hroutes key destinations Hds) as (Hkey & Hne & (i & Hcursor & Hrange) & Hall).
  split; [done |]. split; [done |]. split; [| done].
  destruct (decide (given nodeId = None ∧ given afType = Some key)) as [[Hid Haf] | Hother].
  - unfold getClient. rewrite Hid, Haf, Hds.
    destruct destinations as [| d ds]; [done |].
    exists (Z.rem (i + 1) (Z.of_nat (length (d :: ds)))).
    rewrite Hcursor. simpl default.
    split.
    + cbv zeta. destruct (at_index _ _); simpl; apply lookup_insert_eq.
    + rewrite Z.rem_mod_nonneg by (simpl length; lia).
      apply Z.mod_pos_bound. simpl length. lia.
  - exists i. split; [| done]. rewrite Hidx; [done |].
    destruct (given nodeId); [by left |].
    right. intros Haf. apply Hother. done.
Qed.

Lemma routes_consistent_ext (this this' : AIRService.t) :
  clients this' = clients this →
  routingTable this' = routingTable this →
  roundRobinIndexes this' = roundRobinIndexes this →
  routes_consistent this → routes_consistent this'.
Proof. unfold routes_consistent. by intros -> -> ->. Qed.

(** The service after [executeRequest] on an initialized service. *)
Lemma executeRequest_frame `{Host} (clock : Clock) (this : AIRService.t)
      (request : UCIPRequest) (nodeId afType : option string) :
  initialized this = true →
  let result := executeRequest clock this request nodeId afType in
  let routed := snd (getClient (count_request this) nodeId afType) in
  clients (snd result) = clients this
  ∧ routingTable (snd result) = routingTable this
  ∧ roundRobinIndexes (snd result) = roundRobinIndexes routed
  ∧ statsInterval (snd result) = statsInterval this
  ∧ initialized (snd result) = true
  ∧ totalRequests (stats (snd result)) = totalRequests (stats this) + 1
  ∧ successfulRequests (stats (snd result))
    = successfulRequests (stats this)
      + (if fst result is Return _ then 1 else 0)
  ∧ failedRequests (stats (snd result))
    = failedRequests (stats this)
      + (if fst result is Return _ then 0 else 1)
  ∧ averageResponseTime (stats (snd result))
    = (0.1 * elapsed clock + 0.9 * averageResponseTime (stats this))%float.
Proof.
  intros Hinit. unfold executeRequest. rewrite Hinit. simpl negb. cbv iota.
  destruct (getClient_frame (count_request this) nodeId afType)
    as (Hc & Ht & Hs & Hi & Hn & _).
  destruct (getClient (count_request this) nodeId afType) as [client routed].
  simpl in Hc, Ht, Hs, Hi, Hn.
  destruct (client ≫= _) as [response | e]; simpl;
    rewrite Hc, Ht, Hs, Hi, Hn; simpl; repeat split; try reflexivity; try lia; done.
Qed.

Lemma executeRequest_consistent `{Host} (clock : Clock) (this : AIRService.t)
      (request : UCIPRequest) (nodeId afType : option string) :
  consistent this →
  consistent (snd (executeRequest clock this request nodeId afType)).
Proof.
  intros Hthis.
  destruct (initialized this) eqn:Hinit;
    [| unfold executeRequest; by rewrite Hinit].
  destruct (executeRequest_frame clock this request nodeId afType Hinit)
    as (Hc & Ht & Hidx & Hi & Hn & Htotal & Hsucc & Hfail & _).
  destruct Hthis as [Hstats Htimer Hstopped Hstarted Hroutes].
  split.
  - rewrite Htotal, Hsucc, Hfail.
    destruct (fst (executeRequest clock this request nodeId afType)); lia.
  - rewrite Hi, Hn, Htimer, Hinit. done.
  - by rewrite Hn.
  - rewrite Hc. auto.
  - apply (routes_consistent_ext (snd (getClient (count_request this) nodeId afType)));
      [| | done |].
    + rewrite Hc. symmetry.
      apply (getClient_frame (count_request this) nodeId afType).
    + rewrite Ht. symmetry.
      apply (getClient_frame (count_request this) nodeId afType).
    + apply getClient_routes_consistent.
      by apply (routes_consistent_ext this).
Qed.

(** Every operation keeps the service consistent. *)
Lemma reachable_consistent (this : AIRService.t) : reachable this → consistent this.
Proof.
  induction 1 as [now | cfg cache this _ IH | H clock this request nodeId afType _ IH
                  | now this _ IH | this _ IH].
  - split; simpl; try done;
      try (split; [by intros [? ?] | done]);
      intros afType destinations; by rewrite lookup_empty.
  - by apply initialize_consistent.
  - by apply executeRequest_consistent.
  - destruct IH as [Hstats Htimer Hstopped Hstarted Hroutes]. by split.
  - destruct IH as [Hstats Htimer Hstopped Hstarted Hroutes].
    split; simpl; try done;
      try (split; [by intros [? ?] | done]);
      intros afType destinations; by rewrite lookup_empty.
Qed.

(** X16: in every state the service reaches through [initialize],
    [executeRequest], [resetStats] and [shutdown] (one operation after
    the other, none in flight), the total of requests is the sum of the
    successful and the failed ones. *)
Theorem stats_stay_balanced (this : AIRService.t) :
  reachable this →
  totalRequests (getStats this)
  = successfulRequests (getStats this) + failedRequests (getStats this).
Proof. intros Hthis. apply (stats_balanced this), reachable_consistent, Hthis. Qed.

Lemma stats_stay_balanced_witness :
  reachable sample_service
  ∧ totalRequests (getStats sample_service)
    = successfulRequests (getStats sample_service)
      + failedRequests (getStats sample_service).
Proof.
  split; [apply reach_initialize, reach_new |].
  exact (stats_stay_balanced sample_service ltac:(apply reach_initialize, reach_new)).
Defined.

(** X17: in every reachable state the statistics timer is armed exactly
    while the service is initialized; a service that is not initialized
    holds no client and no route; an initialized one has a client, and
    routing without node id and routing key returns the first registered
    client. *)
Theorem service_lifecycle (this : AIRService.t) :
  reachable this →
  (is_Some (statsInterval this) ↔ isInitialized this = true)
  ∧ (isInitialized this = false → clients this = [] ∧ routingTable this = ∅)
  ∧ (isInitialized this = true →
     ∃ client, JSMap.first_value (clients this) = Some client
               ∧ getClient this None None = (Return client, this)).
Proof.
  intros [_ Htimer Hstopped Hstarted _]%reachable_consistent.
  split; [done |]. split; [done |].
  intros Hinit. specialize (Hstarted Hinit). unfold getClient. simpl.
  destruct (clients this) as [| [id client] rest]; [done |]. by exists client.
Qed.

Lemma service_lifecycle_witness :
  reachable (shutdown sample_service)
  ∧ isInitialized (shutdown sample_service) = false
  ∧ clients (shutdown sample_service) = []
  ∧ routingTable (shutdown sample_service) = ∅.
Proof.
  assert (Hreach : reachable (shutdown sample_service))
    by apply reach_shutdown, reach_initialize, reach_new.
  split; [exact Hreach |]. split; [reflexivity |].
  exact (proj1 (proj2 (service_lifecycle (shutdown sample_service) Hreach)) eq_refl).
Defined.

(** X18: in every reachable state, selecting by a routing key either
    fails with ["No destinations found for AF type: ..."] and changes
    nothing (the key has no routes), or returns the client registered for
    the destination under the cursor and advances the cursor by one modulo
    the number of destinations; the cursor is inside the list and the
    destination's client exists, so the selection never fails with a
    missing client. *)
Theorem routing_never_dangles (this : AIRService.t) (afType : string) :
  reachable this →
  afType ≠ "" →
  (routingTable this !! afType = None
   ∧ getClient this None (Some afType)
     = (Throw (Error ("No destinations found for AF type: " ++ afType)), this))
  ∨ (∃ destinations index destination client,
       routingTable this !! afType = Some destinations
       ∧ roundRobinIndexes this !! afType = Some index
       ∧ 0 <= index < Z.of_nat (length destinations)
       ∧ destinations !! Z.to_nat index = Some destination
       ∧ JSMap.get (RoutingDestination.nodeId destination) (clients this) = Some client
       ∧ getClient this None (Some afType)
         = (Return client,
            set_index afType (Z.rem (index + 1) (Z.of_nat (length destinations))) this)).
Proof.
  intros [_ _ _ _ Hroutes]%reachable_consistent Hkey.
  unfold getClient. rewrite (given_nonempty afType Hkey). simpl (given None). cbv iota.
  destruct (routingTable this !! afType) as [destinations |] eqn:Htable; [| by left].
  right.
  destruct (Hroutes afType destinations Htable) as (_ & Hne & (i & Hi & Hrange) & Hall).
  destruct (lookup_lt_is_Some_2 destinations (Z.to_nat i)) as [d Hd]; [lia |].
  rewrite Forall_forall in Hall.
  destruct (Hall d) as [[client Hclient] _]; [by eapply list_elem_of_lookup_2 |].
  exists destinations, i, d, client.
  destruct destinations as [| d0 ds]; [done |].
  rewrite Hi. simpl default.
  rewrite (Z.rem_small i) by lia.
  unfold at_index. destruct (Z.ltb_spec i 0) as [? | _]; [lia |].
  rewrite Hd. unfold client_for. simpl clients. rewrite Hclient. done.
Qed.

Lemma routing_never_dangles_witness :
  reachable sample_service
  ∧ "k" ≠ ""
  ∧ ((routingTable sample_service !! "k" = None
      ∧ getClient sample_service None (Some "k")
        = (Throw (Error ("No destinations found for AF type: " ++ "k")), sample_service))
     ∨ (∃ destinations index destination client,
          routingTable sample_service !! "k" = Some destinations
          ∧ roundRobinIndexes sample_service !! "k" = Some index
          ∧ 0 <= index < Z.of_nat (length destinations)
          ∧ destinations !! Z.to_nat index = Some destination
          ∧ JSMap.get (RoutingDestination.nodeId destination) (clients sample_service)
            = Some client
          ∧ getClient sample_service None (Some "k")
            = (Return client,
               set_index "k" (Z.rem (index + 1) (Z.of_nat (length destinations)))
                 sample_service))).
Proof.
  split; [apply reach_initialize, reach_new |]. split; [discriminate |].
  exact (routing_never_dangles sample_service "k" ltac:(apply reach_initialize, reach_new)
           ltac:(discriminate)).
Defined.

(** X19: [getClient] never changes the clients, the routing table, the
    statistics or the initialized flag; it leaves the cursor of every
    routing key other than the one it is given as it was, and changes
    nothing at all when a non-empty node id is given or the routing key is
    absent or empty. *)
Theorem getClient_moves_one_cursor (this : AIRService.t) (nodeId afType : option string) :
  let this' := snd (getClient this nodeId afType) in
  clients this' = clients this
  ∧ routingTable this' = routingTable this
  ∧ stats this' = stats this
  ∧ initialized this' = initialized this
  ∧ (∀ k, afType ≠ Some k → roundRobinIndexes this' !! k = roundRobinIndexes this !! k)
  ∧ (nodeId ≠ None ∧ nodeId ≠ Some "" ∨ afType = None ∨ afType = Some "" →
     this' = this).
Proof.
  destruct (getClient_frame this nodeId afType) as (Hc & Ht & Hs & _ & Hn & Hidx).
  cbv zeta. split; [done |]. split; [done |]. split; [done |]. split; [done |].
  split.
  - intros k Hk. apply Hidx. right. intros Hgiven%given_Some. by destruct Hgiven.
  - unfold getClient. intros [[Hid Hid'] | Haf].
    + destruct nodeId as [id |]; [| done]. by rewrite given_nonempty by congruence.
    + destruct (given nodeId); [done |].
      assert (Hgiven : given afType = None) by (by destruct Haf as [-> | ->]).
      rewrite Hgiven. by destruct (JSMap.first_value _).
Qed.

(** X20: on an initialized service every [executeRequest] counts one
    more request and one more successful request when it returns a response
    (a fault response included) or one more failed request when it throws
    (a routing error included); its outcome is that of [call] on the client
    that [getClient] selects; the clients and the routing table stay as
    they were and the service stays initialized. *)
Theorem executeRequest_accounting `{Host} (clock : Clock) (this : AIRService.t)
        (request : UCIPRequest) (nodeId afType : option string) :
  isInitialized this = true →
  let result := executeRequest clock this request nodeId afType in
  totalRequests (getStats (snd result)) = totalRequests (getStats this) + 1
  ∧ (if fst result is Return _
     then successfulRequests (getStats (snd result))
          = successfulRequests (getStats this) + 1
          ∧ failedRequests (getStats (snd result)) = failedRequests (getStats this)
     else successfulRequests (getStats (snd result)) = successfulRequests (getStats this)
          ∧ failedRequests (getStats (snd result))
            = failedRequests (getStats this) + 1)
  ∧ fst result
    = (client ← fst (getClient this nodeId afType); call client request)
  ∧ clients (snd result) = clients this
  ∧ routingTable (snd result) = routingTable this
  ∧ isInitialized (snd result) = true.
Proof.
  intros Hinit.
  destruct (executeRequest_frame clock this request nodeId afType Hinit)
    as (Hc & Ht & _ & _ & Hn & Htotal & Hsucc & Hfail & _).
  cbv zeta. unfold getStats, isInitialized.
  cbn [totalRequests successfulRequests failedRequests].
  rewrite Htotal, Hsucc, Hfail, Hc, Ht, Hn.
  split; [done |]. split; [destruct (fst _); lia |]. split; [| done].
  unfold executeRequest. unfold isInitialized in Hinit. rewrite Hinit. simpl negb. cbv iota.
  assert (Hsame : fst (getClient (count_request this) nodeId afType)
                  = fst (getClient this nodeId afType)).
  { unfold getClient, count_request, with_stats, client_for; simpl.
    destruct (given nodeId); [done |].
    destruct (given afType) as [k |]; [| by destruct (JSMap.first_value _)].
    destruct (routingTable this !! k) as [[| d ds] |]; try done.
    cbv zeta. by destruct (at_index _ _). }
  rewrite <- Hsame.
  destruct (getClient (count_request this) nodeId afType) as [client routed]. simpl.
  by destruct (client ≫= _).
Qed.

Lemma executeRequest_accounting_witness :
  let parsed :=
    fault_envelope (struct_node [("faultCode", int_node 102);
                                 ("faultString", string_node "INSUFFICIENT_BALANCE")]) in
  let host :=
    scripted_host
      (Return {| Axios.status := 200; Axios.statusText := "OK"; Axios.data := "" |})
      (Return parsed) in
  let request := {| methodName := "Refill"; params := [] |} in
  let result := @executeRequest host sample_clock sample_service request None (Some "k") in
  isInitialized sample_service = true
  ∧ fst result = Return {| responseCode := JNum 102;
                           responseMessage := Some (JStr "INSUFFICIENT_BALANCE");
                           Types.data := None |}
  ∧ successfulRequests (getStats (snd result)) = 1
  ∧ totalRequests (getStats (snd result)) = totalRequests (getStats sample_service) + 1.
Proof.
  intros parsed host request result. split; [reflexivity |]. split; [reflexivity |].
  split; [vm_compute; reflexivity |].
  exact (proj1 (@executeRequest_accounting host sample_clock sample_service request
                  None (Some "k") eq_refl)).
Defined.

(** ** The routes *)

Lemma destructure_chain (reqBody : js) (k : string) :
  nullish reqBody = false →
  AirRoutes.destructure reqBody k = Return (chain reqBody [k]).
Proof. by destruct reqBody. Qed.

(** X22: the POST routes validate before they call the service.  With a
    body that is not [null] or [undefined], a falsy [subscriberNumber]
    (absent, empty, 0, [null]) is answered with the [AppError] 400
    ["subscriberNumber is required"] by [/balance] and [/account-details];
    [/refill] and [/update-balance] answer 400 also when the amount is
    absent; the service is left as it was (no request is counted), and the
    error handler turns the error into status 400 with [success: false]. *)
Theorem routes_validate_first `{Host} (clock : Clock) (now : Z) (random : float)
        (this : AIRService.t) (reqBody : js) :
  nullish reqBody = false →
  let rejected message :=
    (inl (AirRoutes.AppError message 400) : AirRoutes.failure + AirRoutes.HttpResponse,
     this) in
  (truthy (chain reqBody ["subscriberNumber"]) = false →
   AirRoutes.balance clock this reqBody = rejected "subscriberNumber is required"
   ∧ AirRoutes.account_details clock this reqBody
     = rejected "subscriberNumber is required")
  ∧ (truthy (chain reqBody ["subscriberNumber"]) = false
     ∨ chain reqBody ["refillAmount"] = JUndefined →
     AirRoutes.refill clock now random this reqBody
     = rejected "subscriberNumber and refillAmount are required")
  ∧ (truthy (chain reqBody ["subscriberNumber"]) = false
     ∨ chain reqBody ["adjustmentAmount"] = JUndefined →
     AirRoutes.update_balance clock now random this reqBody
     = rejected "subscriberNumber and adjustmentAmount are required")
  ∧ AirRoutes.asyncHandler (inl (AirRoutes.AppError "subscriberNumber is required" 400))
    = {| AirRoutes.statusCode := 400;
         AirRoutes.body :=
           JObj [("success", JBool false);
                 ("error", JObj [("message", JStr "subscriberNumber is required");
                                 ("statusCode", JNum 400)])] |}.
Proof.
  intros Hbody rejected.
  unfold AirRoutes.balance, AirRoutes.account_details, AirRoutes.refill,
    AirRoutes.update_balance.
  rewrite !(destructure_chain reqBody) by done. simpl.
  split; [intros ->; done |].
  split; [| split; [| reflexivity]].
  - intros [-> | ->]; [done |].
    by destruct (negb (truthy _)).
  - intros [-> | ->]; [done |].
    by destruct (negb (truthy _)).
Qed.

(** Where a POST handler can end: a validation error, an exception, or the
    response to the outcome of the service. *)
Lemma post_handlers_end `{Host} (clock : Clock) (now : Z) (random : float)
      (this : AIRService.t) (reqBody : js) :
  Forall (λ result : (AirRoutes.failure + AirRoutes.HttpResponse) * AIRService.t,
            (∃ message, result = (inl (AirRoutes.AppError message 400), this))
            ∨ (∃ e, result = (inl (AirRoutes.Thrown e), this))
            ∨ (∃ request afType,
                 result = AirRoutes.respond
                            (AIRServiceUntyped.executeRequest clock this request
                               JUndefined afType)))
         [AirRoutes.balance clock this reqBody;
          AirRoutes.refill clock now random this reqBody;
          AirRoutes.update_balance clock now random this reqBody;
          AirRoutes.account_details clock this reqBody].
Proof.
  unfold AirRoutes.balance, AirRoutes.account_details, AirRoutes.refill,
    AirRoutes.update_balance.
  destruct (nullish reqBody) eqn:Hbody.
  - assert (Hthrow : ∀ k, ∃ e, AirRoutes.destructure reqBody k = Throw e).
    { intros k. destruct reqBody; try discriminate; simpl; eauto. }
    destruct (Hthrow "subscriberNumber") as [e ->]. simpl.
    constructor; [| constructor; [| constructor; [| constructor; [| constructor]]]];
      right; left; eauto.
  - rewrite !(destructure_chain reqBody) by done.
    generalize (chain reqBody ["subscriberNumber"]),
      (chain reqBody ["requestedInformationFlags"]), (chain reqBody ["afType"]),
      (chain reqBody ["refillAmount"]), (chain reqBody ["adjustmentAmount"]),
      (chain reqBody ["transactionId"]), (chain reqBody ["transactionCurrency"]),
      (chain reqBody ["profileId"]), (chain reqBody ["transactionType"]).
    intros subscriberNumber flags afType refillAmount adjustmentAmount transactionId
      currency profileId transactionType. simpl.
    constructor; [| constructor; [| constructor; [| constructor; [| constructor]]]].
    + destruct (negb (truthy _)); [left; eauto |].
      destruct (ToString _); [right; right; eauto | right; left; eauto].
    + destruct (negb (truthy _) || negb (defined _)); [left; eauto |].
      destruct (ToString refillAmount); simpl; [| right; left; eauto].
      destruct (ToString _); [right; right; eauto | right; left; eauto].
    + destruct (negb (truthy _) || negb (defined _)); [left; eauto |].
      destruct (ToString adjustmentAmount); simpl; [| right; left; eauto].
      destruct (ToString _); [right; right; eauto | right; left; eauto].
    + destruct (negb (truthy _)); [left; eauto |].
      destruct (ToString _); [right; right; eauto | right; left; eauto].
Qed.

(** X23: every answer of the AIR routes has status 200, 400, 500 or 503
    and a body whose [success] is a boolean; [success] is [true] only with
    status 200; an answer 400 leaves the service as it was. *)
Theorem routes_answers `{Host} (clock : Clock) (now : Z) (random : float)
        (this : AIRService.t) (reqBody : js) :
  Forall (λ result : (AirRoutes.failure + AirRoutes.HttpResponse) * AIRService.t,
            let answer := AirRoutes.asyncHandler (fst result) in
            (AirRoutes.statusCode answer = 200
             ∨ AirRoutes.statusCode answer = 400
             ∨ AirRoutes.statusCode answer = 500
             ∨ AirRoutes.statusCode answer = 503)
            ∧ (chain (AirRoutes.body answer) ["success"] = JBool true
               ∨ chain (AirRoutes.body answer) ["success"] = JBool false)
            ∧ (chain (AirRoutes.body answer) ["success"] = JBool true →
               AirRoutes.statusCode answer = 200)
            ∧ (AirRoutes.statusCode answer = 400 → snd result = this))
         [AirRoutes.stats this;
          AirRoutes.balance clock this reqBody;
          AirRoutes.refill clock now random this reqBody;
          AirRoutes.update_balance clock now random this reqBody;
          AirRoutes.account_details clock this reqBody].
Proof.
  constructor.
  - unfold AirRoutes.stats. destruct (negb (isInitialized this)); simpl.
    + split; [auto |]. split; [auto |]. split; [discriminate | discriminate].
    + split; [auto |]. split; [auto |]. split; [done | discriminate].
  - eapply Forall_impl; [apply (post_handlers_end clock now random) |].
    intros result [[message ->] | [[e ->] | (request & afType & ->)]]; simpl.
    + split; [auto |]. split; [auto |]. split; [discriminate | done].
    + split; [auto |]. split; [auto |]. split; [discriminate | discriminate].
    + unfold AirRoutes.respond.
      destruct (fst (AIRServiceUntyped.executeRequest _ _ _ _ _)) as [response | e];
        simpl.
      * split; [auto |]. split; [by destruct (AirRoutes.is_zero_number _); auto |].
        split; [done | discriminate].
      * split; [auto |]. split; [auto |]. split; [discriminate | discriminate].
Qed.

(** X24: while the service is not initialized, [GET /stats] answers 503
    with ["AIR service not initialized"], and the POST routes answer 400
    (validation) or 500 with ["Internal server error"]: the error of
    [executeRequest] is not an [AppError], so a well-formed balance request
    is answered 500, not 503.  The service is left as it was. *)
Theorem routes_before_initialization `{Host} (clock : Clock) (now : Z) (random : float)
        (this : AIRService.t) (reqBody : js) :
  isInitialized this = false →
  AirRoutes.asyncHandler (fst (AirRoutes.stats this))
  = {| AirRoutes.statusCode := 503;
       AirRoutes.body := AirRoutes.error_body "AIR service not initialized" 503 |}
  ∧ Forall (λ result : (AirRoutes.failure + AirRoutes.HttpResponse) * AIRService.t,
              snd result = this
              ∧ (AirRoutes.statusCode (AirRoutes.asyncHandler (fst result)) = 400
                 ∨ AirRoutes.asyncHandler (fst result)
                   = {| AirRoutes.statusCode := 500;
                        AirRoutes.body :=
                          AirRoutes.error_body "Internal server error" 500 |}))
           [AirRoutes.balance clock this reqBody;
            AirRoutes.refill clock now random this reqBody;
            AirRoutes.update_balance clock now random this reqBody;
            AirRoutes.account_details clock this reqBody]
  ∧ (∀ rendering,
       nullish reqBody = false →
       truthy (chain reqBody ["subscriberNumber"]) = true →
       ToString (chain reqBody ["subscriberNumber"]) = Return rendering →
       AirRoutes.asyncHandler (fst (AirRoutes.balance clock this reqBody))
       = {| AirRoutes.statusCode := 500;
            AirRoutes.body := AirRoutes.error_body "Internal server error" 500 |}).
Proof.
  unfold isInitialized. intros Hinit.
  assert (Hexec : ∀ request afType,
            AIRServiceUntyped.executeRequest clock this request JUndefined afType
            = (Throw (Error "AIR service not initialized"), this)).
  { intros. unfold AIRServiceUntyped.executeRequest. by rewrite Hinit. }
  assert (Hresponded : ∀ request afType,
            let result := AirRoutes.respond
                            (AIRServiceUntyped.executeRequest clock this request
                               JUndefined afType) in
            snd result = this
            ∧ AirRoutes.asyncHandler (fst result)
              = {| AirRoutes.statusCode := 500;
                   AirRoutes.body := AirRoutes.error_body "Internal server error" 500 |}).
  { intros. subst result. by rewrite Hexec. }
  split; [| split].
  - unfold AirRoutes.stats, isInitialized. by rewrite Hinit.
  - eapply Forall_impl; [apply (post_handlers_end clock now random) |].
    intros result [[message ->] | [[e ->] | (request & afType & ->)]]; simpl.
    + auto.
    + auto.
    + destruct (Hresponded request afType) as [-> ->]. auto.
  - intros rendering Hbody Htruthy Hrendering. unfold AirRoutes.balance.
    rewrite !(destructure_chain reqBody) by done.
    cbn [mbind completion_bind]. rewrite Htruthy, Hrendering. simpl negb. cbv iota.
    apply Hresponded.
Qed.

Lemma routes_validate_first_witness :
  let reqBody := JObj [("subscriberNumber", JStr ""); ("afType", JStr "k")] in
  nullish reqBody = false
  ∧ truthy (chain reqBody ["subscriberNumber"]) = false
  ∧ @AirRoutes.balance offline_host sample_clock sample_service reqBody
    = (inl (AirRoutes.AppError "subscriberNumber is required" 400), sample_service).
Proof.
  intros reqBody. split; [reflexivity |]. split; [reflexivity |].
  exact (proj1 (proj1 (@routes_validate_first offline_host sample_clock 0 0
                         sample_service reqBody eq_refl) eq_refl)).
Defined.

Lemma routes_before_initialization_witness :
  let reqBody := JObj [("subscriberNumber", JStr "1234567890")] in
  isInitialized (AIRService.new 0) = false
  ∧ nullish reqBody = false
  ∧ truthy (chain reqBody ["subscriberNumber"]) = true
  ∧ @ToString offline_host (chain reqBody ["subscriberNumber"]) = Return "1234567890"
  ∧ AirRoutes.asyncHandler
      (fst (@AirRoutes.balance offline_host sample_clock (AIRService.new 0) reqBody))
    = {| AirRoutes.statusCode := 500;
         AirRoutes.body := AirRoutes.error_body "Internal server error" 500 |}.
Proof.
  intros reqBody. repeat (split; [reflexivity |]).
  exact (proj2 (proj2 (@routes_before_initialization offline_host sample_clock 0 0
                         (AIRService.new 0) reqBody eq_refl))
           "1234567890" eq_refl eq_refl eq_refl).
Defined.

(** ** Sequences of requests and of selections *)




(** X26: in every reachable state, [n] selections one after the other by a
    routing key that has routes all return a client: the [i]-th is the
    client registered for the destination [i] places after the cursor,
    cyclically; none fails. *)
Theorem round_robin_returns_clients (this : AIRService.t) (afType : string)
        (destinations : list RoutingDestination.t) (n : nat) :
  reachable this →
  routingTable this !! afType = Some destinations →
  ∃ cursor : nat,
    roundRobinIndexes this !! afType = Some (Z.of_nat cursor)
    ∧ (cursor < length destinations)%nat
    ∧ length (fst (select_seq n this afType)) = n
    ∧ ∀ i, (i < n)%nat →
           ∃ destination client,
             destinations !! ((cursor + i) mod length destinations)%nat = Some destination
             ∧ JSMap.get (RoutingDestination.nodeId destination) (clients this)
               = Some client
             ∧ fst (select_seq n this afType) !! i = Some (Return client).
Proof.
  intros [_ _ _ _ Hroutes]%reachable_consistent Htable.
  destruct (Hroutes afType destinations Htable) as (Hkey & Hne & (c & Hc & Hrange) & Hall).
  exists (Z.to_nat c). rewrite Z2Nat.id by lia.
  split; [done |]. split; [lia |].
  destruct (select_seq_round_robin n this afType destinations (Z.to_nat c) Hkey Htable Hne)
    as (Horder & Hlength & _); [rewrite Hc; simpl; lia |].
  split; [done |]. intros i Hi.
  destruct (lookup_lt_is_Some_2 destinations
              ((Z.to_nat c + i) mod length destinations)%nat) as [d Hd].
  { apply Nat.mod_upper_bound. by destruct destinations. }
  rewrite Forall_forall in Hall.
  destruct (Hall d) as [[client Hclient] _]; [by eapply list_elem_of_lookup_2 |].
  exists d, client. split; [done |]. split; [done |].
  rewrite (Horder i d Hi Hd). unfold client_for. by rewrite Hclient.
Qed.

Lemma round_robin_returns_clients_witness :
  reachable sample_service
  ∧ routingTable sample_service !! "k" = Some (map sample_destination ["A"; "B"; "C"])
  ∧ ∃ cursor : nat,
      roundRobinIndexes sample_service !! "k" = Some (Z.of_nat cursor)
      ∧ (cursor < length (map sample_destination ["A"; "B"; "C"]))%nat
      ∧ length (fst (select_seq 4 sample_service "k")) = 4%nat
      ∧ ∀ i, (i < 4)%nat →
             ∃ destination client,
               map sample_destination ["A"; "B"; "C"]
                 !! ((cursor + i) mod length (map sample_destination ["A"; "B"; "C"]))%nat
               = Some destination
               ∧ JSMap.get (RoutingDestination.nodeId destination) (clients sample_service)
                 = Some client
               ∧ fst (select_seq 4 sample_service "k") !! i = Some (Return client).
Proof.
  assert (Hreach : reachable sample_service) by apply reach_initialize, reach_new.
  split; [exact Hreach |]. split; [reflexivity |].
  exact (round_robin_returns_clients sample_service "k"
           (map sample_destination ["A"; "B"; "C"]) 4 Hreach eq_refl).
Defined.
